(** * SurgeAudioDriver: a virtual loopback audio device

    Shallow embedding of the AudioServerPlugIn in
    [surge-audio-driver/src/SurgeAudioDriver.c] (with its header) and of the
    shared-memory variant in [native-audio/src/audio_driver/], followed by
    the properties of the specification that are about them.

    Conventions of the embedding:
    - [UInt32] and [UInt64] are [Z] with the wrap-around written out;
    - [Float32] and [Float64] are IEEE 754 binary32 and binary64 data, as
      [spec_float] with the operations of the standard library's
      [SpecFloat] at the two precisions (NaN carries no payload);
    - the heap array behind [Float32* ringBuffer] is a [list Float32]
      ([None] is the [NULL] pointer), read with [!!] and written with
      [<[_:=_]>]; an access outside the array is undefined in C and makes
      the operation return [None];
    - the globals [gDriverState] and [gDriverRefCount] are threaded
      explicitly; [mach_absolute_time], [mach_timebase_info] and the libm
      functions are inputs of the operations that call them;
    - the embedding is sequential: the balanced
      [pthread_mutex_lock]/[unlock] pairs inside one call are not
      represented. *)

From Stdlib Require Import ZArith Lia Bool String.
From Stdlib Require Import SpecFloat.
From stdpp Require Import base option list.

Local Open Scope Z_scope.

(** ** Machine integers *)

Definition UInt32_modulus : Z := 2 ^ 32.
Definition UInt64_modulus : Z := 2 ^ 64.

Definition UInt32_wrap (z : Z) : Z := z mod UInt32_modulus.
Definition UInt64_wrap (z : Z) : Z := z mod UInt64_modulus.

(** ** Floating point *)

Module F32.

Definition prec : Z := 24.
Definition emax : Z := 128.

Definition valid (x : spec_float) : Prop := valid_binary prec emax x = true.

Definition mul : spec_float -> spec_float -> spec_float := SFmul prec emax.
Definition div : spec_float -> spec_float -> spec_float := SFdiv prec emax.
Definition ltb : spec_float -> spec_float -> bool := SFltb.
Definition leb : spec_float -> spec_float -> bool := SFleb.

(** [(Float32) z] for an integer [z], rounding to nearest even. *)
Definition of_Z (z : Z) : spec_float := binary_normalize prec emax z 0 false.

Definition zero : spec_float := S754_zero false.
Definition one : spec_float := Eval vm_compute in of_Z 1.

End F32.

Module F64.

Definition prec : Z := 53.
Definition emax : Z := 1024.

Definition valid (x : spec_float) : Prop := valid_binary prec emax x = true.

Definition div : spec_float -> spec_float -> spec_float := SFdiv prec emax.
Definition ltb : spec_float -> spec_float -> bool := SFltb.
Definition leb : spec_float -> spec_float -> bool := SFleb.

(** [(Float64) z] for an integer [z], rounding to nearest even. *)
Definition of_Z (z : Z) : spec_float := binary_normalize prec emax z 0 false.

(** The integer part of a finite datum, rounding toward zero. *)
Definition trunc (x : spec_float) : option Z :=
  match x with
  | S754_zero _ => Some 0
  | S754_finite s m e =>
      let a := match e with
               | Z0 => Zpos m
               | Zpos p => Zpos m * 2 ^ Zpos p
               | Zneg p => Zpos m / 2 ^ Zpos p
               end in
      Some (if s then - a else a)
  | S754_infinity _ | S754_nan => None
  end.

(** [(UInt64) x]: the truncated value when it fits; the conversion is
    undefined in C otherwise ([None]). *)
Definition to_UInt64 (x : spec_float) : option Z :=
  match trunc x with
  | Some z => if (0 <=? z) && (z <? UInt64_modulus) then Some z else None
  | None => None
  end.

Definition zero : spec_float := S754_zero false.

End F64.

Abbreviation Float32 := spec_float.
Abbreviation Float64 := spec_float.

(** ** CoreAudio vocabulary

    The types and constants below come from the platform headers
    ([CoreAudio/AudioHardwareBase.h], [CoreAudio/AudioServerPlugIn.h]).
    Identifiers that the headers define as distinct four-character codes
    are the constructors of an enumeration; the last constructor of each
    enumeration stands for every value the sources do not name. *)

Inductive OSStatus : Set :=
| kAudioHardwareNoError
| kAudioHardwareUnspecifiedError
| kAudioHardwareUnknownPropertyError
| kAudioHardwareBadPropertySizeError
| kAudioHardwareIllegalOperationError
| kAudioHardwareBadObjectError.

Abbreviation noErr := kAudioHardwareNoError.

Inductive AudioObjectPropertySelector : Set :=
| kAudioObjectPropertyBaseClass
| kAudioObjectPropertyClass
| kAudioObjectPropertyOwner
| kAudioObjectPropertyName
| kAudioObjectPropertyManufacturer
| kAudioObjectPropertyOwnedObjects
| kAudioObjectPropertyControlList
| kAudioHardwarePropertyPlugInList
| kAudioPlugInPropertyDeviceList
| kAudioPlugInPropertyTranslateUIDToDevice
| kAudioPlugInPropertyResourceBundle
| kAudioDevicePropertyDeviceUID
| kAudioDevicePropertyModelUID
| kAudioDevicePropertyTransportType
| kAudioDevicePropertyRelatedDevices
| kAudioDevicePropertyClockDomain
| kAudioDevicePropertyDeviceIsAlive
| kAudioDevicePropertyDeviceIsRunning
| kAudioDevicePropertyDeviceCanBeDefaultDevice
| kAudioDevicePropertyDeviceCanBeDefaultSystemDevice
| kAudioDevicePropertyLatency
| kAudioDevicePropertyStreams
| kAudioDevicePropertySafetyOffset
| kAudioDevicePropertyNominalSampleRate
| kAudioDevicePropertyAvailableNominalSampleRates
| kAudioDevicePropertyIsHidden
| kAudioDevicePropertyZeroTimeStampPeriod
| kAudioDevicePropertyIcon
| kAudioStreamPropertyIsActive
| kAudioStreamPropertyDirection
| kAudioStreamPropertyTerminalType
| kAudioStreamPropertyStartingChannel
| kAudioStreamPropertyVirtualFormat
| kAudioStreamPropertyPhysicalFormat
| kAudioStreamPropertyAvailableVirtualFormats
| kAudioStreamPropertyAvailablePhysicalFormats
| kAudioControlPropertyScope
| kAudioControlPropertyElement
| kAudioLevelControlPropertyScalarValue
| kAudioLevelControlPropertyDecibelValue
| kAudioLevelControlPropertyDecibelRange
| kAudioLevelControlPropertyConvertScalarToDecibels
| kAudioLevelControlPropertyConvertDecibelsToScalar
| kAudioObjectPropertySelector_other.

(** The header gives the stream latency selector the value of the device
    latency selector. *)
Abbreviation kAudioStreamPropertyLatency := kAudioDevicePropertyLatency.

Inductive AudioObjectPropertyScope : Set :=
| kAudioObjectPropertyScopeGlobal
| kAudioObjectPropertyScopeInput
| kAudioObjectPropertyScopeOutput
| kAudioObjectPropertyScope_other.

Definition kAudioObjectPropertyElementMain : Z := 0.

Record AudioObjectPropertyAddress : Set := {
  mSelector : AudioObjectPropertySelector;
  mScope : AudioObjectPropertyScope;
  mElement : Z
}.

Inductive AudioClassID : Set :=
| kAudioObjectClassID
| kAudioPlugInClassID
| kAudioDeviceClassID
| kAudioStreamClassID
| kAudioControlClassID
| kAudioVolumeControlClassID.

Inductive IOOperationID : Set :=
| kAudioServerPlugInIOOperationThread
| kAudioServerPlugInIOOperationCycle
| kAudioServerPlugInIOOperationReadInput
| kAudioServerPlugInIOOperationConvertInput
| kAudioServerPlugInIOOperationProcessInput
| kAudioServerPlugInIOOperationProcessOutput
| kAudioServerPlugInIOOperationMixOutput
| kAudioServerPlugInIOOperationProcessMix
| kAudioServerPlugInIOOperationConvertMix
| kAudioServerPlugInIOOperationWriteMix
| kAudioServerPlugInIOOperation_other.

(** A four-character code as the 32-bit integer the headers give it. *)
Definition FourCC (s : string) : Z :=
  fold_left (fun acc c => acc * 256 + Z.of_N (Ascii.N_of_ascii c))
            (list_ascii_of_string s) 0.

Definition kAudioObjectUnknown : Z := 0.
Definition kAudioObjectSystemObject : Z := 1.
Definition kAudioObjectPlugInObject : Z := 1.
Definition kAudioDeviceTransportTypeVirtual : Z := Eval vm_compute in FourCC "virt".
Definition kAudioStreamTerminalTypeMicrophone : Z := Eval vm_compute in FourCC "micr".
Definition kAudioStreamTerminalTypeSpeaker : Z := Eval vm_compute in FourCC "spkr".
Definition kAudioFormatLinearPCM : Z := Eval vm_compute in FourCC "lpcm".
Definition kAudioFormatFlagIsFloat : Z := 1.
Definition kAudioFormatFlagsNativeEndian : Z := 0.
Definition kAudioFormatFlagIsPacked : Z := 8.

Record AudioValueRange : Set := {
  mMinimum : Float64;
  mMaximum : Float64
}.

Record AudioStreamBasicDescription : Set := {
  mSampleRate : Float64;
  mFormatID : Z;
  mFormatFlags : Z;
  mBytesPerPacket : Z;
  mFramesPerPacket : Z;
  mBytesPerFrame : Z;
  mChannelsPerFrame : Z;
  mBitsPerChannel : Z
}.

Record AudioStreamRangedDescription : Set := {
  mFormat : AudioStreamBasicDescription;
  mSampleRateRange : AudioValueRange
}.

(** What a property getter stores through [outData]. *)
Inductive PropertyData : Set :=
| PD_AudioClassID (c : AudioClassID)
| PD_AudioObjectID (ids : list Z)
| PD_CFString (s : string)
| PD_UInt32 (v : Z)
| PD_Scope (s : AudioObjectPropertyScope)
| PD_Float32 (x : Float32)
| PD_Float64 (x : Float64)
| PD_ValueRange (rs : list AudioValueRange)
| PD_Format (f : AudioStreamBasicDescription)
| PD_RangedFormats (fs : list AudioStreamRangedDescription).

(** Object sizes of the 64-bit platform ABI. *)
Definition sizeof_AudioClassID : Z := 4.
Definition sizeof_AudioObjectID : Z := 4.
Definition sizeof_UInt32 : Z := 4.
Definition sizeof_Float32 : Z := 4.
Definition sizeof_Float64 : Z := 8.
Definition sizeof_CFStringRef : Z := 8.
Definition sizeof_CFURLRef : Z := 8.
Definition sizeof_AudioValueRange : Z := 16.
Definition sizeof_AudioStreamBasicDescription : Z := 40.
Definition sizeof_AudioStreamRangedDescription : Z := 56.

(** The number of bytes a stored datum occupies in the caller's buffer. *)
Definition PropertyData_bytes (d : PropertyData) : Z :=
  match d with
  | PD_AudioClassID _ => sizeof_AudioClassID
  | PD_AudioObjectID ids => Z.of_nat (length ids) * sizeof_AudioObjectID
  | PD_CFString _ => sizeof_CFStringRef
  | PD_UInt32 _ => sizeof_UInt32
  | PD_Scope _ => sizeof_UInt32
  | PD_Float32 _ => sizeof_Float32
  | PD_Float64 _ => sizeof_Float64
  | PD_ValueRange rs => Z.of_nat (length rs) * sizeof_AudioValueRange
  | PD_Format _ => sizeof_AudioStreamBasicDescription
  | PD_RangedFormats fs => Z.of_nat (length fs) * sizeof_AudioStreamRangedDescription
  end.

(** [mach_timebase_info_data_t], and the libm functions the driver calls. *)
Record mach_timebase_info_data_t : Set := {
  numer : Z;
  denom : Z
}.

Record Libm : Set := {
  log10f : Float32 -> Float32;
  powf : Float32 -> Float32 -> Float32
}.

(** ** SurgeAudioDriver.h *)

Definition kObjectID_PlugIn : Z := 1.
Definition kObjectID_Device : Z := 2.
Definition kObjectID_Stream_Input : Z := 3.
Definition kObjectID_Stream_Output : Z := 4.
Definition kObjectID_Volume_Input_Master : Z := 5.
Definition kObjectID_Volume_Output_Master : Z := 6.
Definition kObjectID_Mute_Input_Master : Z := 7.
Definition kObjectID_Mute_Output_Master : Z := 8.
Definition kObjectID_DataSource_Input : Z := 9.
Definition kObjectID_DataSource_Output : Z := 10.

Definition kDevice_Name : string := "Surge Audio".
Definition kDevice_Manufacturer : string := "Surge".
Definition kDevice_UID : string := "SurgeAudioDevice_UID".
Definition kDevice_ModelUID : string := "SurgeAudioDevice_ModelUID".

Definition kSampleRate_Default : Float64 := Eval vm_compute in F64.of_Z 48000.
Definition kBitsPerChannel : Z := 32.
Definition kBytesPerChannel : Z := kBitsPerChannel / 8.
Definition kChannelsPerFrame : Z := 2.
Definition kBytesPerFrame : Z := kBytesPerChannel * kChannelsPerFrame.

Definition kRingBufferFrameSize : Z := 16384.
Definition kRingBufferSize : Z := kRingBufferFrameSize * kBytesPerFrame.

Definition kLatency_Frame_Size : Z := 512.

Record SurgeAudioDriverState : Set := {
  hostRef : Z;
  bundleID : option string;
  sampleRate : Float64;
  ringBufferFrameSize : Z;
  deviceIsRunning : bool;
  inputStreamIsActive : bool;
  outputStreamIsActive : bool;
  inputVolume : Float32;
  outputVolume : Float32;
  inputMute : bool;
  outputMute : bool;
  ringBuffer : option (list Float32);
  ringBufferWritePosition : Z;
  ringBufferReadPosition : Z;
  anchorHostTime : Z;
  anchorSampleTime : Float64;
  ticksPerFrame : Z
}.

(** Assignments to one field of the state. *)
Definition set_hostRef (v : Z) (s : SurgeAudioDriverState) :=
  Build_SurgeAudioDriverState v (bundleID s) (sampleRate s) (ringBufferFrameSize s)
    (deviceIsRunning s) (inputStreamIsActive s) (outputStreamIsActive s)
    (inputVolume s) (outputVolume s) (inputMute s) (outputMute s) (ringBuffer s)
    (ringBufferWritePosition s) (ringBufferReadPosition s) (anchorHostTime s)
    (anchorSampleTime s) (ticksPerFrame s).

Definition set_sampleRate (v : Float64) (s : SurgeAudioDriverState) :=
  Build_SurgeAudioDriverState (hostRef s) (bundleID s) v (ringBufferFrameSize s)
    (deviceIsRunning s) (inputStreamIsActive s) (outputStreamIsActive s)
    (inputVolume s) (outputVolume s) (inputMute s) (outputMute s) (ringBuffer s)
    (ringBufferWritePosition s) (ringBufferReadPosition s) (anchorHostTime s)
    (anchorSampleTime s) (ticksPerFrame s).

Definition set_ringBufferFrameSize (v : Z) (s : SurgeAudioDriverState) :=
  Build_SurgeAudioDriverState (hostRef s) (bundleID s) (sampleRate s) v
    (deviceIsRunning s) (inputStreamIsActive s) (outputStreamIsActive s)
    (inputVolume s) (outputVolume s) (inputMute s) (outputMute s) (ringBuffer s)
    (ringBufferWritePosition s) (ringBufferReadPosition s) (anchorHostTime s)
    (anchorSampleTime s) (ticksPerFrame s).

Definition set_deviceIsRunning (v : bool) (s : SurgeAudioDriverState) :=
  Build_SurgeAudioDriverState (hostRef s) (bundleID s) (sampleRate s) (ringBufferFrameSize s)
    v (inputStreamIsActive s) (outputStreamIsActive s)
    (inputVolume s) (outputVolume s) (inputMute s) (outputMute s) (ringBuffer s)
    (ringBufferWritePosition s) (ringBufferReadPosition s) (anchorHostTime s)
    (anchorSampleTime s) (ticksPerFrame s).

Definition set_inputStreamIsActive (v : bool) (s : SurgeAudioDriverState) :=
  Build_SurgeAudioDriverState (hostRef s) (bundleID s) (sampleRate s) (ringBufferFrameSize s)
    (deviceIsRunning s) v (outputStreamIsActive s)
    (inputVolume s) (outputVolume s) (inputMute s) (outputMute s) (ringBuffer s)
    (ringBufferWritePosition s) (ringBufferReadPosition s) (anchorHostTime s)
    (anchorSampleTime s) (ticksPerFrame s).

Definition set_outputStreamIsActive (v : bool) (s : SurgeAudioDriverState) :=
  Build_SurgeAudioDriverState (hostRef s) (bundleID s) (sampleRate s) (ringBufferFrameSize s)
    (deviceIsRunning s) (inputStreamIsActive s) v
    (inputVolume s) (outputVolume s) (inputMute s) (outputMute s) (ringBuffer s)
    (ringBufferWritePosition s) (ringBufferReadPosition s) (anchorHostTime s)
    (anchorSampleTime s) (ticksPerFrame s).

Definition set_inputVolume (v : Float32) (s : SurgeAudioDriverState) :=
  Build_SurgeAudioDriverState (hostRef s) (bundleID s) (sampleRate s) (ringBufferFrameSize s)
    (deviceIsRunning s) (inputStreamIsActive s) (outputStreamIsActive s)
    v (outputVolume s) (inputMute s) (outputMute s) (ringBuffer s)
    (ringBufferWritePosition s) (ringBufferReadPosition s) (anchorHostTime s)
    (anchorSampleTime s) (ticksPerFrame s).

Definition set_outputVolume (v : Float32) (s : SurgeAudioDriverState) :=
  Build_SurgeAudioDriverState (hostRef s) (bundleID s) (sampleRate s) (ringBufferFrameSize s)
    (deviceIsRunning s) (inputStreamIsActive s) (outputStreamIsActive s)
    (inputVolume s) v (inputMute s) (outputMute s) (ringBuffer s)
    (ringBufferWritePosition s) (ringBufferReadPosition s) (anchorHostTime s)
    (anchorSampleTime s) (ticksPerFrame s).

Definition set_inputMute (v : bool) (s : SurgeAudioDriverState) :=
  Build_SurgeAudioDriverState (hostRef s) (bundleID s) (sampleRate s) (ringBufferFrameSize s)
    (deviceIsRunning s) (inputStreamIsActive s) (outputStreamIsActive s)
    (inputVolume s) (outputVolume s) v (outputMute s) (ringBuffer s)
    (ringBufferWritePosition s) (ringBufferReadPosition s) (anchorHostTime s)
    (anchorSampleTime s) (ticksPerFrame s).

Definition set_outputMute (v : bool) (s : SurgeAudioDriverState) :=
  Build_SurgeAudioDriverState (hostRef s) (bundleID s) (sampleRate s) (ringBufferFrameSize s)
    (deviceIsRunning s) (inputStreamIsActive s) (outputStreamIsActive s)
    (inputVolume s) (outputVolume s) (inputMute s) v (ringBuffer s)
    (ringBufferWritePosition s) (ringBufferReadPosition s) (anchorHostTime s)
    (anchorSampleTime s) (ticksPerFrame s).

Definition set_ringBuffer (v : option (list Float32)) (s : SurgeAudioDriverState) :=
  Build_SurgeAudioDriverState (hostRef s) (bundleID s) (sampleRate s) (ringBufferFrameSize s)
    (deviceIsRunning s) (inputStreamIsActive s) (outputStreamIsActive s)
    (inputVolume s) (outputVolume s) (inputMute s) (outputMute s) v
    (ringBufferWritePosition s) (ringBufferReadPosition s) (anchorHostTime s)
    (anchorSampleTime s) (ticksPerFrame s).

Definition set_ringBufferWritePosition (v : Z) (s : SurgeAudioDriverState) :=
  Build_SurgeAudioDriverState (hostRef s) (bundleID s) (sampleRate s) (ringBufferFrameSize s)
    (deviceIsRunning s) (inputStreamIsActive s) (outputStreamIsActive s)
    (inputVolume s) (outputVolume s) (inputMute s) (outputMute s) (ringBuffer s)
    v (ringBufferReadPosition s) (anchorHostTime s)
    (anchorSampleTime s) (ticksPerFrame s).

Definition set_ringBufferReadPosition (v : Z) (s : SurgeAudioDriverState) :=
  Build_SurgeAudioDriverState (hostRef s) (bundleID s) (sampleRate s) (ringBufferFrameSize s)
    (deviceIsRunning s) (inputStreamIsActive s) (outputStreamIsActive s)
    (inputVolume s) (outputVolume s) (inputMute s) (outputMute s) (ringBuffer s)
    (ringBufferWritePosition s) v (anchorHostTime s)
    (anchorSampleTime s) (ticksPerFrame s).

Definition set_anchorHostTime (v : Z) (s : SurgeAudioDriverState) :=
  Build_SurgeAudioDriverState (hostRef s) (bundleID s) (sampleRate s) (ringBufferFrameSize s)
    (deviceIsRunning s) (inputStreamIsActive s) (outputStreamIsActive s)
    (inputVolume s) (outputVolume s) (inputMute s) (outputMute s) (ringBuffer s)
    (ringBufferWritePosition s) (ringBufferReadPosition s) v
    (anchorSampleTime s) (ticksPerFrame s).

Definition set_anchorSampleTime (v : Float64) (s : SurgeAudioDriverState) :=
  Build_SurgeAudioDriverState (hostRef s) (bundleID s) (sampleRate s) (ringBufferFrameSize s)
    (deviceIsRunning s) (inputStreamIsActive s) (outputStreamIsActive s)
    (inputVolume s) (outputVolume s) (inputMute s) (outputMute s) (ringBuffer s)
    (ringBufferWritePosition s) (ringBufferReadPosition s) (anchorHostTime s)
    v (ticksPerFrame s).

Definition set_ticksPerFrame (v : Z) (s : SurgeAudioDriverState) :=
  Build_SurgeAudioDriverState (hostRef s) (bundleID s) (sampleRate s) (ringBufferFrameSize s)
    (deviceIsRunning s) (inputStreamIsActive s) (outputStreamIsActive s)
    (inputVolume s) (outputVolume s) (inputMute s) (outputMute s) (ringBuffer s)
    (ringBufferWritePosition s) (ringBufferReadPosition s) (anchorHostTime s)
    (anchorSampleTime s) v.

(** ** SurgeAudioDriver.c: globals *)

(** The calls into libc that release resources, in the order made. *)
Inductive LibcCall : Set :=
| call_free
| call_pthread_mutex_destroy.

Record Driver : Set := {
  gDriverState : SurgeAudioDriverState;
  gDriverRefCount : Z;
  gLibcCalls : list LibcCall
}.

Definition set_gDriverState (s : SurgeAudioDriverState) (d : Driver) : Driver :=
  {| gDriverState := s; gDriverRefCount := gDriverRefCount d; gLibcCalls := gLibcCalls d |}.

Definition set_gDriverRefCount (c : Z) (d : Driver) : Driver :=
  {| gDriverState := gDriverState d; gDriverRefCount := c; gLibcCalls := gLibcCalls d |}.

Definition log_call (c : LibcCall) (d : Driver) : Driver :=
  {| gDriverState := gDriverState d; gDriverRefCount := gDriverRefCount d;
     gLibcCalls := gLibcCalls d ++ [c] |}.

(** [static SurgeAudioDriverState gDriverState = {0}] and
    [static UInt32 gDriverRefCount = 0]. *)
Definition gDriverState_static : SurgeAudioDriverState :=
  {| hostRef := 0; bundleID := None; sampleRate := F64.zero; ringBufferFrameSize := 0;
     deviceIsRunning := false; inputStreamIsActive := false; outputStreamIsActive := false;
     inputVolume := F32.zero; outputVolume := F32.zero;
     inputMute := false; outputMute := false;
     ringBuffer := None; ringBufferWritePosition := 0; ringBufferReadPosition := 0;
     anchorHostTime := 0; anchorSampleTime := F64.zero; ticksPerFrame := 0 |}.

Definition Driver_static : Driver :=
  {| gDriverState := gDriverState_static; gDriverRefCount := 0; gLibcCalls := [] |}.

(** ** Helper functions *)

(** The timing computation that [InitializeDriverState] and the sample-rate
    case of [SurgeAudioDriver_SetPropertyData] both carry out:
    [(UInt64)((1000000000.0 / sampleRate) / ((Float64)numer / (Float64)denom))]. *)
Definition ticksPerFrame_of (timebase : mach_timebase_info_data_t) (rate : Float64) : option Z :=
  let nsPerTick := F64.div (F64.of_Z (numer timebase)) (F64.of_Z (denom timebase)) in
  let nsPerFrame := F64.div (F64.of_Z 1000000000) rate in
  F64.to_UInt64 (F64.div nsPerFrame nsPerTick).

(** [calloc] is taken to succeed. *)
Definition InitializeDriverState (timebase : mach_timebase_info_data_t)
    (s : SurgeAudioDriverState) : option SurgeAudioDriverState :=
  let s := set_sampleRate kSampleRate_Default s in
  let s := set_ringBufferFrameSize kRingBufferFrameSize s in
  let s := set_deviceIsRunning false s in
  let s := set_inputStreamIsActive true s in
  let s := set_outputStreamIsActive true s in
  let s := set_inputVolume F32.one s in
  let s := set_outputVolume F32.one s in
  let s := set_inputMute false s in
  let s := set_outputMute false s in
  let s := set_ringBufferWritePosition 0 s in
  let s := set_ringBufferReadPosition 0 s in
  let s := set_ringBuffer (Some (replicate (Z.to_nat kRingBufferSize) F32.zero)) s in
  t ← ticksPerFrame_of timebase (sampleRate s);
  Some (set_ticksPerFrame t s).

Definition CleanupDriverState (d : Driver) : Driver :=
  let d :=
    match ringBuffer (gDriverState d) with
    | Some _ => set_gDriverState (set_ringBuffer None (gDriverState d)) (log_call call_free d)
    | None => d
    end in
  log_call call_pthread_mutex_destroy d.

(** ** Plugin factory *)

(** [typeMatches] is the outcome of [CFEqual(typeUUID, audioPlugInTypeUUID)];
    the result is the driver after the call and whether the interface
    pointer (rather than [NULL]) is returned. *)
Definition SurgeAudioDriverPlugInFactory (typeMatches : bool)
    (timebase : mach_timebase_info_data_t) (d : Driver) : option (bool * Driver) :=
  if typeMatches then
    s ← InitializeDriverState timebase (gDriverState d);
    Some (true, set_gDriverRefCount 1 (set_gDriverState s d))
  else Some (false, d).

(** ** IUnknown interface *)

Definition SurgeAudioDriver_AddRef (d : Driver) : Z * Driver :=
  let d := set_gDriverRefCount (UInt32_wrap (gDriverRefCount d + 1)) d in
  (gDriverRefCount d, d).

Definition SurgeAudioDriver_Release (d : Driver) : Z * Driver :=
  let d :=
    if 0 <? gDriverRefCount d
    then set_gDriverRefCount (UInt32_wrap (gDriverRefCount d - 1)) d
    else d in
  let d := if gDriverRefCount d =? 0 then CleanupDriverState d else d in
  (gDriverRefCount d, d).

(** ** Plugin operations *)

Definition SurgeAudioDriver_Initialize (host : Z) (s : SurgeAudioDriverState)
  : OSStatus * SurgeAudioDriverState :=
  (kAudioHardwareNoError, set_hostRef host s).

Definition SurgeAudioDriver_CreateDevice : OSStatus * Z :=
  (kAudioHardwareNoError, kObjectID_Device).

(** ** Property operations *)

Definition SurgeAudioDriver_HasProperty (objectID : Z)
    (address : AudioObjectPropertyAddress) : bool :=
  if objectID =? kObjectID_PlugIn then
    match mSelector address with
    | kAudioObjectPropertyBaseClass
    | kAudioObjectPropertyClass
    | kAudioObjectPropertyOwner
    | kAudioObjectPropertyManufacturer
    | kAudioObjectPropertyOwnedObjects
    | kAudioPlugInPropertyDeviceList
    | kAudioPlugInPropertyTranslateUIDToDevice
    | kAudioPlugInPropertyResourceBundle => true
    | _ => false
    end
  else if objectID =? kObjectID_Device then
    match mSelector address with
    | kAudioObjectPropertyBaseClass
    | kAudioObjectPropertyClass
    | kAudioObjectPropertyOwner
    | kAudioObjectPropertyName
    | kAudioObjectPropertyManufacturer
    | kAudioDevicePropertyDeviceUID
    | kAudioDevicePropertyModelUID
    | kAudioDevicePropertyTransportType
    | kAudioDevicePropertyRelatedDevices
    | kAudioDevicePropertyClockDomain
    | kAudioDevicePropertyDeviceIsAlive
    | kAudioDevicePropertyDeviceIsRunning
    | kAudioDevicePropertyDeviceCanBeDefaultDevice
    | kAudioDevicePropertyDeviceCanBeDefaultSystemDevice
    | kAudioDevicePropertyLatency
    | kAudioDevicePropertyStreams
    | kAudioObjectPropertyControlList
    | kAudioDevicePropertySafetyOffset
    | kAudioDevicePropertyNominalSampleRate
    | kAudioDevicePropertyAvailableNominalSampleRates
    | kAudioDevicePropertyIsHidden
    | kAudioDevicePropertyZeroTimeStampPeriod
    | kAudioDevicePropertyIcon => true
    | _ => false
    end
  else if (objectID =? kObjectID_Stream_Input) || (objectID =? kObjectID_Stream_Output) then
    match mSelector address with
    | kAudioObjectPropertyBaseClass
    | kAudioObjectPropertyClass
    | kAudioObjectPropertyOwner
    | kAudioStreamPropertyIsActive
    | kAudioStreamPropertyDirection
    | kAudioStreamPropertyTerminalType
    | kAudioStreamPropertyStartingChannel
    | kAudioStreamPropertyLatency
    | kAudioStreamPropertyVirtualFormat
    | kAudioStreamPropertyPhysicalFormat
    | kAudioStreamPropertyAvailableVirtualFormats
    | kAudioStreamPropertyAvailablePhysicalFormats => true
    | _ => false
    end
  else if (objectID =? kObjectID_Volume_Input_Master)
          || (objectID =? kObjectID_Volume_Output_Master) then
    match mSelector address with
    | kAudioObjectPropertyBaseClass
    | kAudioObjectPropertyClass
    | kAudioObjectPropertyOwner
    | kAudioObjectPropertyOwnedObjects
    | kAudioControlPropertyScope
    | kAudioControlPropertyElement
    | kAudioLevelControlPropertyScalarValue
    | kAudioLevelControlPropertyDecibelValue
    | kAudioLevelControlPropertyDecibelRange
    | kAudioLevelControlPropertyConvertScalarToDecibels
    | kAudioLevelControlPropertyConvertDecibelsToScalar => true
    | _ => false
    end
  else false.

Definition SurgeAudioDriver_IsPropertySettable (objectID : Z)
    (address : AudioObjectPropertyAddress) : OSStatus * bool :=
  let outIsSettable :=
    if objectID =? kObjectID_Device then
      match mSelector address with
      | kAudioDevicePropertyNominalSampleRate => true
      | _ => false
      end
    else if (objectID =? kObjectID_Stream_Input) || (objectID =? kObjectID_Stream_Output) then
      match mSelector address with
      | kAudioStreamPropertyIsActive
      | kAudioStreamPropertyVirtualFormat
      | kAudioStreamPropertyPhysicalFormat => true
      | _ => false
      end
    else if (objectID =? kObjectID_Volume_Input_Master)
            || (objectID =? kObjectID_Volume_Output_Master) then
      match mSelector address with
      | kAudioLevelControlPropertyScalarValue
      | kAudioLevelControlPropertyDecibelValue => true
      | _ => false
      end
    else false in
  (kAudioHardwareNoError, outIsSettable).

(** The result carries the value stored through [outDataSize], if any. *)
Definition SurgeAudioDriver_GetPropertyDataSize (objectID : Z)
    (address : AudioObjectPropertyAddress) : OSStatus * option Z :=
  let size (n : Z) := (kAudioHardwareNoError, Some n) in
  let unknown := (kAudioHardwareUnknownPropertyError, @None Z) in
  if objectID =? kObjectID_PlugIn then
    match mSelector address with
    | kAudioObjectPropertyBaseClass
    | kAudioObjectPropertyClass
    | kAudioObjectPropertyOwner => size sizeof_AudioClassID
    | kAudioObjectPropertyManufacturer => size sizeof_CFStringRef
    | kAudioObjectPropertyOwnedObjects
    | kAudioPlugInPropertyDeviceList => size sizeof_AudioObjectID
    | kAudioPlugInPropertyTranslateUIDToDevice => size sizeof_AudioObjectID
    | kAudioPlugInPropertyResourceBundle => size sizeof_CFStringRef
    | _ => unknown
    end
  else if objectID =? kObjectID_Device then
    match mSelector address with
    | kAudioObjectPropertyBaseClass
    | kAudioObjectPropertyClass => size sizeof_AudioClassID
    | kAudioObjectPropertyOwner => size sizeof_AudioObjectID
    | kAudioObjectPropertyName
    | kAudioObjectPropertyManufacturer
    | kAudioDevicePropertyDeviceUID
    | kAudioDevicePropertyModelUID => size sizeof_CFStringRef
    | kAudioDevicePropertyTransportType
    | kAudioDevicePropertyClockDomain => size sizeof_UInt32
    | kAudioDevicePropertyRelatedDevices => size sizeof_AudioObjectID
    | kAudioDevicePropertyDeviceIsAlive
    | kAudioDevicePropertyDeviceIsRunning
    | kAudioDevicePropertyDeviceCanBeDefaultDevice
    | kAudioDevicePropertyDeviceCanBeDefaultSystemDevice
    | kAudioDevicePropertyIsHidden => size sizeof_UInt32
    | kAudioDevicePropertyLatency
    | kAudioDevicePropertySafetyOffset
    | kAudioDevicePropertyZeroTimeStampPeriod => size sizeof_UInt32
    | kAudioDevicePropertyStreams =>
        match mScope address with
        | kAudioObjectPropertyScopeInput => size sizeof_AudioObjectID
        | kAudioObjectPropertyScopeOutput => size sizeof_AudioObjectID
        | _ => size (2 * sizeof_AudioObjectID)
        end
    | kAudioObjectPropertyControlList => size (4 * sizeof_AudioObjectID)
    | kAudioDevicePropertyNominalSampleRate => size sizeof_Float64
    | kAudioDevicePropertyAvailableNominalSampleRates => size (4 * sizeof_AudioValueRange)
    | kAudioDevicePropertyIcon => size sizeof_CFURLRef
    | _ => unknown
    end
  else if (objectID =? kObjectID_Stream_Input) || (objectID =? kObjectID_Stream_Output) then
    match mSelector address with
    | kAudioObjectPropertyBaseClass
    | kAudioObjectPropertyClass => size sizeof_AudioClassID
    | kAudioObjectPropertyOwner => size sizeof_AudioObjectID
    | kAudioStreamPropertyIsActive
    | kAudioStreamPropertyDirection
    | kAudioStreamPropertyTerminalType
    | kAudioStreamPropertyStartingChannel
    | kAudioStreamPropertyLatency => size sizeof_UInt32
    | kAudioStreamPropertyVirtualFormat
    | kAudioStreamPropertyPhysicalFormat => size sizeof_AudioStreamBasicDescription
    | kAudioStreamPropertyAvailableVirtualFormats
    | kAudioStreamPropertyAvailablePhysicalFormats =>
        size (4 * sizeof_AudioStreamRangedDescription)
    | _ => unknown
    end
  else if (objectID =? kObjectID_Volume_Input_Master)
          || (objectID =? kObjectID_Volume_Output_Master) then
    match mSelector address with
    | kAudioObjectPropertyBaseClass
    | kAudioObjectPropertyClass => size sizeof_AudioClassID
    | kAudioObjectPropertyOwner => size sizeof_AudioObjectID
    | kAudioObjectPropertyOwnedObjects => size 0
    | kAudioControlPropertyScope
    | kAudioControlPropertyElement => size sizeof_UInt32
    | kAudioLevelControlPropertyScalarValue
    | kAudioLevelControlPropertyDecibelValue
    | kAudioLevelControlPropertyConvertScalarToDecibels
    | kAudioLevelControlPropertyConvertDecibelsToScalar => size sizeof_Float32
    | kAudioLevelControlPropertyDecibelRange => size sizeof_AudioValueRange
    | _ => unknown
    end
  else (kAudioHardwareBadObjectError, None).

(** What one call of a getter stores: the status it returns, the value
    stored through [outDataSize] and the datum stored through [outData]
    ([None] where the call stores nothing). *)
Record GetResult : Set := {
  get_status : OSStatus;
  get_outDataSize : option Z;
  get_outData : option PropertyData
}.

Definition stored (d : PropertyData) (size : Z) : GetResult :=
  {| get_status := kAudioHardwareNoError; get_outDataSize := Some size; get_outData := Some d |}.

Definition failed (e : OSStatus) : GetResult :=
  {| get_status := e; get_outDataSize := None; get_outData := None |}.

Definition advertisedSampleRates : list Float64 :=
  Eval vm_compute in map F64.of_Z [44100; 48000; 96000; 192000].

(** The canonical stream format at a given sample rate. *)
Definition streamFormat (rate : Float64) : AudioStreamBasicDescription :=
  {| mSampleRate := rate;
     mFormatID := kAudioFormatLinearPCM;
     mFormatFlags := Z.lor (Z.lor kAudioFormatFlagIsFloat kAudioFormatFlagsNativeEndian)
                           kAudioFormatFlagIsPacked;
     mBytesPerPacket := kBytesPerFrame;
     mFramesPerPacket := 1;
     mBytesPerFrame := kBytesPerFrame;
     mChannelsPerFrame := kChannelsPerFrame;
     mBitsPerChannel := kBitsPerChannel |}.

Definition degenerateRange (rate : Float64) : AudioValueRange :=
  {| mMinimum := rate; mMaximum := rate |}.

Definition F32_minus96 : Float32 := Eval vm_compute in F32.of_Z (-96).
Definition F32_20 : Float32 := Eval vm_compute in F32.of_Z 20.
Definition F32_10 : Float32 := Eval vm_compute in F32.of_Z 10.
Definition F64_minus96 : Float64 := Eval vm_compute in F64.of_Z (-96).

(** [qualifierData] is the qualifier string, [None] when the pointer is
    null; [inDataSize] is the capacity of the caller's buffer in bytes. *)
Definition SurgeAudioDriver_GetPropertyData (libm : Libm) (objectID : Z)
    (address : AudioObjectPropertyAddress) (qualifierData : option string)
    (inDataSize : Z) (s : SurgeAudioDriverState) : GetResult :=
  let unknown := failed kAudioHardwareUnknownPropertyError in
  let uint32 (v : Z) := stored (PD_UInt32 v) sizeof_UInt32 in
  let cfstring (v : string) := stored (PD_CFString v) sizeof_CFStringRef in
  let classID (c : AudioClassID) := stored (PD_AudioClassID c) sizeof_AudioClassID in
  let objectIDs (ids : list Z) :=
    stored (PD_AudioObjectID ids) (Z.of_nat (length ids) * sizeof_AudioObjectID) in
  if objectID =? kObjectID_PlugIn then
    match mSelector address with
    | kAudioObjectPropertyBaseClass => classID kAudioObjectClassID
    | kAudioObjectPropertyClass => classID kAudioPlugInClassID
    | kAudioObjectPropertyOwner => objectIDs [kAudioObjectUnknown]
    | kAudioObjectPropertyManufacturer => cfstring kDevice_Manufacturer
    | kAudioObjectPropertyOwnedObjects
    | kAudioPlugInPropertyDeviceList => objectIDs [kObjectID_Device]
    | kAudioPlugInPropertyTranslateUIDToDevice =>
        match qualifierData with
        | Some uid =>
            if String.eqb uid kDevice_UID
            then objectIDs [kObjectID_Device]
            else objectIDs [kAudioObjectUnknown]
        | None => objectIDs [kAudioObjectUnknown]
        end
    | kAudioPlugInPropertyResourceBundle => cfstring EmptyString
    | _ => unknown
    end
  else if objectID =? kObjectID_Device then
    match mSelector address with
    | kAudioObjectPropertyBaseClass => classID kAudioObjectClassID
    | kAudioObjectPropertyClass => classID kAudioDeviceClassID
    | kAudioObjectPropertyOwner => objectIDs [kObjectID_PlugIn]
    | kAudioObjectPropertyName => cfstring kDevice_Name
    | kAudioObjectPropertyManufacturer => cfstring kDevice_Manufacturer
    | kAudioDevicePropertyDeviceUID => cfstring kDevice_UID
    | kAudioDevicePropertyModelUID => cfstring kDevice_ModelUID
    | kAudioDevicePropertyTransportType => uint32 kAudioDeviceTransportTypeVirtual
    | kAudioDevicePropertyRelatedDevices => objectIDs [kObjectID_Device]
    | kAudioDevicePropertyClockDomain => uint32 0
    | kAudioDevicePropertyDeviceIsAlive => uint32 1
    | kAudioDevicePropertyDeviceIsRunning => uint32 (if deviceIsRunning s then 1 else 0)
    | kAudioDevicePropertyDeviceCanBeDefaultDevice => uint32 1
    | kAudioDevicePropertyDeviceCanBeDefaultSystemDevice => uint32 1
    | kAudioDevicePropertyIsHidden => uint32 0
    | kAudioDevicePropertyLatency => uint32 0
    | kAudioDevicePropertySafetyOffset => uint32 0
    | kAudioDevicePropertyZeroTimeStampPeriod => uint32 kLatency_Frame_Size
    | kAudioDevicePropertyStreams =>
        match mScope address with
        | kAudioObjectPropertyScopeInput => objectIDs [kObjectID_Stream_Input]
        | kAudioObjectPropertyScopeOutput => objectIDs [kObjectID_Stream_Output]
        | _ => objectIDs [kObjectID_Stream_Input; kObjectID_Stream_Output]
        end
    | kAudioObjectPropertyControlList =>
        objectIDs [kObjectID_Volume_Input_Master; kObjectID_Volume_Output_Master;
                   kObjectID_Mute_Input_Master; kObjectID_Mute_Output_Master]
    | kAudioDevicePropertyNominalSampleRate =>
        stored (PD_Float64 (sampleRate s)) sizeof_Float64
    | kAudioDevicePropertyAvailableNominalSampleRates =>
        stored (PD_ValueRange (map degenerateRange advertisedSampleRates))
               (4 * sizeof_AudioValueRange)
    | _ => unknown
    end
  else if (objectID =? kObjectID_Stream_Input) || (objectID =? kObjectID_Stream_Output) then
    match mSelector address with
    | kAudioObjectPropertyBaseClass => classID kAudioObjectClassID
    | kAudioObjectPropertyClass => classID kAudioStreamClassID
    | kAudioObjectPropertyOwner => objectIDs [kObjectID_Device]
    | kAudioStreamPropertyIsActive =>
        if objectID =? kObjectID_Stream_Input
        then uint32 (if inputStreamIsActive s then 1 else 0)
        else uint32 (if outputStreamIsActive s then 1 else 0)
    | kAudioStreamPropertyDirection =>
        uint32 (if objectID =? kObjectID_Stream_Input then 1 else 0)
    | kAudioStreamPropertyTerminalType =>
        uint32 (if objectID =? kObjectID_Stream_Input
                then kAudioStreamTerminalTypeMicrophone
                else kAudioStreamTerminalTypeSpeaker)
    | kAudioStreamPropertyStartingChannel => uint32 1
    | kAudioStreamPropertyLatency => uint32 0
    | kAudioStreamPropertyVirtualFormat
    | kAudioStreamPropertyPhysicalFormat =>
        stored (PD_Format (streamFormat (sampleRate s))) sizeof_AudioStreamBasicDescription
    | kAudioStreamPropertyAvailableVirtualFormats
    | kAudioStreamPropertyAvailablePhysicalFormats =>
        stored (PD_RangedFormats
                  (map (fun r => {| mFormat := streamFormat r;
                                    mSampleRateRange := degenerateRange r |})
                       advertisedSampleRates))
               (4 * sizeof_AudioStreamRangedDescription)
    | _ => unknown
    end
  else if (objectID =? kObjectID_Volume_Input_Master)
          || (objectID =? kObjectID_Volume_Output_Master) then
    match mSelector address with
    | kAudioObjectPropertyBaseClass => classID kAudioControlClassID
    | kAudioObjectPropertyClass => classID kAudioVolumeControlClassID
    | kAudioObjectPropertyOwner => objectIDs [kObjectID_Device]
    | kAudioObjectPropertyOwnedObjects =>
        {| get_status := kAudioHardwareNoError;
           get_outDataSize := Some 0; get_outData := None |}
    | kAudioControlPropertyScope =>
        stored (PD_Scope (if objectID =? kObjectID_Volume_Input_Master
                          then kAudioObjectPropertyScopeInput
                          else kAudioObjectPropertyScopeOutput))
               sizeof_UInt32
    | kAudioControlPropertyElement => uint32 kAudioObjectPropertyElementMain
    | kAudioLevelControlPropertyScalarValue =>
        stored (PD_Float32 (if objectID =? kObjectID_Volume_Input_Master
                            then inputVolume s else outputVolume s))
               sizeof_Float32
    | kAudioLevelControlPropertyDecibelValue =>
        let volume := if objectID =? kObjectID_Volume_Input_Master
                      then inputVolume s else outputVolume s in
        stored (PD_Float32 (if F32.ltb F32.zero volume
                            then F32.mul F32_20 (log10f libm volume)
                            else F32_minus96))
               sizeof_Float32
    | kAudioLevelControlPropertyDecibelRange =>
        stored (PD_ValueRange [ {| mMinimum := F64_minus96; mMaximum := F64.zero |} ])
               sizeof_AudioValueRange
    | _ => unknown
    end
  else failed kAudioHardwareBadObjectError.

(** The datum behind [inData], read at the type the case expects; a
    buffer that holds another kind of datum is outside the embedding. *)
Definition inData_Float64 (d : PropertyData) : option Float64 :=
  match d with PD_Float64 x => Some x | _ => None end.

Definition inData_Float32 (d : PropertyData) : option Float32 :=
  match d with PD_Float32 x => Some x | _ => None end.

Definition inData_UInt32 (d : PropertyData) : option Z :=
  match d with PD_UInt32 v => Some v | _ => None end.

(** [None] is undefined behaviour of the C code (a conversion to [UInt64]
    out of range). *)
Definition SurgeAudioDriver_SetPropertyData (libm : Libm)
    (timebase : mach_timebase_info_data_t) (objectID : Z)
    (address : AudioObjectPropertyAddress) (inDataSize : Z) (inData : PropertyData)
    (s : SurgeAudioDriverState) : option (OSStatus * SurgeAudioDriverState) :=
  let unknown := Some (kAudioHardwareUnknownPropertyError, s) in
  if objectID =? kObjectID_Device then
    match mSelector address with
    | kAudioDevicePropertyNominalSampleRate =>
        rate ← inData_Float64 inData;
        let s := set_sampleRate rate s in
        t ← ticksPerFrame_of timebase (sampleRate s);
        Some (kAudioHardwareNoError, set_ticksPerFrame t s)
    | _ => unknown
    end
  else if objectID =? kObjectID_Stream_Input then
    match mSelector address with
    | kAudioStreamPropertyIsActive =>
        v ← inData_UInt32 inData;
        Some (kAudioHardwareNoError, set_inputStreamIsActive (negb (v =? 0)) s)
    | _ => unknown
    end
  else if objectID =? kObjectID_Stream_Output then
    match mSelector address with
    | kAudioStreamPropertyIsActive =>
        v ← inData_UInt32 inData;
        Some (kAudioHardwareNoError, set_outputStreamIsActive (negb (v =? 0)) s)
    | _ => unknown
    end
  else if objectID =? kObjectID_Volume_Input_Master then
    match mSelector address with
    | kAudioLevelControlPropertyScalarValue =>
        v ← inData_Float32 inData;
        Some (kAudioHardwareNoError, set_inputVolume v s)
    | kAudioLevelControlPropertyDecibelValue =>
        dB ← inData_Float32 inData;
        Some (kAudioHardwareNoError,
              set_inputVolume (powf libm F32_10 (F32.div dB F32_20)) s)
    | _ => unknown
    end
  else if objectID =? kObjectID_Volume_Output_Master then
    match mSelector address with
    | kAudioLevelControlPropertyScalarValue =>
        v ← inData_Float32 inData;
        Some (kAudioHardwareNoError, set_outputVolume v s)
    | kAudioLevelControlPropertyDecibelValue =>
        dB ← inData_Float32 inData;
        Some (kAudioHardwareNoError,
              set_outputVolume (powf libm F32_10 (F32.div dB F32_20)) s)
    | _ => unknown
    end
  else Some (kAudioHardwareBadObjectError, s).

(** ** IO operations *)

(** [now] is the value [mach_absolute_time()] returns during the call.
    [None] is undefined behaviour ([memset] through a null pointer or past
    the end of the array). *)
Definition SurgeAudioDriver_StartIO (now : Z) (s : SurgeAudioDriverState)
  : option (OSStatus * SurgeAudioDriverState) :=
  if negb (deviceIsRunning s) then
    let s := set_anchorHostTime now s in
    let s := set_anchorSampleTime F64.zero s in
    let s := set_deviceIsRunning true s in
    rb ← ringBuffer s;
    if decide (Z.to_nat kRingBufferSize <= length rb)%nat then
      let rb := replicate (Z.to_nat kRingBufferSize) F32.zero
                  ++ drop (Z.to_nat kRingBufferSize) rb in
      let s := set_ringBuffer (Some rb) s in
      let s := set_ringBufferWritePosition 0 s in
      let s := set_ringBufferReadPosition 0 s in
      Some (kAudioHardwareNoError, s)
    else None
  else Some (kAudioHardwareNoError, s).

Definition SurgeAudioDriver_StopIO (s : SurgeAudioDriverState)
  : OSStatus * SurgeAudioDriverState :=
  (kAudioHardwareNoError, set_deviceIsRunning false s).

Record ZeroTimeStamp : Set := {
  outSampleTime : Float64;
  outHostTime : Z;
  outSeed : Z
}.

(** [None] is undefined behaviour (the conversion of the period count to
    [UInt64] out of range). *)
Definition SurgeAudioDriver_GetZeroTimeStamp (now : Z) (s : SurgeAudioDriverState)
  : option (OSStatus * ZeroTimeStamp) :=
  let currentHostTime := now in
  let elapsedHostTime := UInt64_wrap (currentHostTime - anchorHostTime s) in
  let elapsedSampleTime :=
    F64.div (F64.of_Z elapsedHostTime) (F64.of_Z (ticksPerFrame s)) in
  periods ← F64.to_UInt64 (F64.div elapsedSampleTime (F64.of_Z kLatency_Frame_Size));
  Some (kAudioHardwareNoError,
        {| outSampleTime := F64.of_Z (UInt64_wrap (periods * kLatency_Frame_Size));
           outHostTime :=
             UInt64_wrap (anchorHostTime s
                          + UInt64_wrap (UInt64_wrap (periods * kLatency_Frame_Size)
                                         * ticksPerFrame s));
           outSeed := 1 |}).

(** The result is [(status, outWillDo, outWillDoInPlace)]. *)
Definition SurgeAudioDriver_WillDoIOOperation (operationID : IOOperationID)
  : OSStatus * bool * bool :=
  match operationID with
  | kAudioServerPlugInIOOperationReadInput
  | kAudioServerPlugInIOOperationWriteMix => (kAudioHardwareNoError, true, true)
  | _ => (kAudioHardwareNoError, false, true)
  end.

Definition SurgeAudioDriver_BeginIOOperation : OSStatus := kAudioHardwareNoError.

(** The body of the write-mix loop, run [count] times from index [i] of
    the host buffer. *)
Fixpoint WriteMix_loop (count i : nat) (buffer : list Float32)
    (s : SurgeAudioDriverState) : option SurgeAudioDriverState :=
  match count with
  | O => Some s
  | S count' =>
      rb ← ringBuffer s;
      x ← buffer !! i;
      let w := Z.to_nat (ringBufferWritePosition s) in
      if decide (w < length rb)%nat then
        let s := set_ringBuffer (Some (<[w := F32.mul x (outputVolume s)]> rb)) s in
        let s := set_ringBufferWritePosition
                   (UInt32_wrap (ringBufferWritePosition s + 1) mod kRingBufferSize) s in
        WriteMix_loop count' (S i) buffer s
      else None
  end.

(** The body of the read-input loop; the host buffer is threaded along
    with the state. *)
Fixpoint ReadInput_loop (count i : nat) (buffer : list Float32)
    (s : SurgeAudioDriverState) : option (list Float32 * SurgeAudioDriverState) :=
  match count with
  | O => Some (buffer, s)
  | S count' =>
      rb ← ringBuffer s;
      x ← rb !! Z.to_nat (ringBufferReadPosition s);
      if decide (i < length buffer)%nat then
        let buffer := <[i := F32.mul x (inputVolume s)]> buffer in
        let s := set_ringBufferReadPosition
                   (UInt32_wrap (ringBufferReadPosition s + 1) mod kRingBufferSize) s in
        ReadInput_loop count' (S i) buffer s
      else None
  end.

(** [ioMainBuffer] is the host buffer as an array of [Float32]; the result
    carries its contents after the call. [None] is undefined behaviour (an
    access through a null ring-buffer pointer or outside an array). *)
Definition SurgeAudioDriver_DoIOOperation (operationID : IOOperationID)
    (ioBufferFrameSize : Z) (ioMainBuffer : list Float32) (s : SurgeAudioDriverState)
  : option (OSStatus * list Float32 * SurgeAudioDriverState) :=
  let buffer := ioMainBuffer in
  let numSamples := UInt32_wrap (ioBufferFrameSize * kChannelsPerFrame) in
  match operationID with
  | kAudioServerPlugInIOOperationWriteMix =>
      s' ← WriteMix_loop (Z.to_nat numSamples) 0 buffer s;
      Some (kAudioHardwareNoError, buffer, s')
  | kAudioServerPlugInIOOperationReadInput =>
      '(buffer', s') ← ReadInput_loop (Z.to_nat numSamples) 0 buffer s;
      Some (kAudioHardwareNoError, buffer', s')
  | _ => Some (kAudioHardwareNoError, buffer, s)
  end.

Definition SurgeAudioDriver_EndIOOperation : OSStatus := kAudioHardwareNoError.

(** ** The shared-memory variant: audio_driver_properties.c and
    audio_driver_complete.c *)

Module AudioDriver.

Definition DEVICE_UID : string := "GrowhutAudioDriver:VirtualOutput".
Definition DEVICE_NAME : string := "Growhut Audio Driver".
Definition MANUFACTURER_NAME : string := "Growhut".

(** The fields of [AudioDriverState] that the property handlers read. *)
Record AudioDriverState : Set := {
  device_object_id : Z;
  is_device_created : bool;
  is_capture_active : bool;
  nominal_sample_rate : Float64
}.

(** The size query that every case of the getters ends with when it
    stores no datum. *)
Definition size_only (data_size : Z) : GetResult :=
  {| get_status := noErr; get_outDataSize := Some data_size; get_outData := None |}.

(** A case of [GetPlugInPropertyData]: [out_data_size] is the value behind
    the pointer ([None] when null), [out_data] tells whether the data
    pointer is non-null. [None] is a load or store through a null
    pointer. *)
Definition PlugIn_case (data_size : Z) (d : PropertyData)
    (out_data_size : option Z) (out_data : bool) : option GetResult :=
  if out_data then
    capacity ← out_data_size;
    if data_size <=? capacity
    then Some (stored d data_size)
    else Some (failed kAudioHardwareBadPropertySizeError)
  else
    _ ← out_data_size;
    Some (size_only data_size).

(** A case of [GetDevicePropertyData] and of [GetStreamPropertyData]. *)
Definition Device_case (data_size : Z) (d : PropertyData)
    (out_data_size : option Z) (out_data : bool) : option GetResult :=
  if out_data then
    capacity ← out_data_size;
    if data_size <=? capacity
    then Some (stored d data_size)
    else Some (size_only data_size)
  else
    match out_data_size with
    | Some _ => Some (size_only data_size)
    | None => Some {| get_status := noErr; get_outDataSize := None; get_outData := None |}
    end.

Definition GetPlugInPropertyData (in_address : AudioObjectPropertyAddress)
    (out_data_size : option Z) (out_data : bool) : option GetResult :=
  match mSelector in_address with
  | kAudioObjectPropertyBaseClass =>
      PlugIn_case sizeof_AudioClassID (PD_AudioClassID kAudioPlugInClassID)
                  out_data_size out_data
  | kAudioObjectPropertyClass =>
      PlugIn_case sizeof_AudioClassID (PD_AudioClassID kAudioPlugInClassID)
                  out_data_size out_data
  | kAudioObjectPropertyOwner =>
      PlugIn_case sizeof_AudioObjectID (PD_AudioObjectID [kAudioObjectSystemObject])
                  out_data_size out_data
  | kAudioObjectPropertyName =>
      PlugIn_case sizeof_CFStringRef (PD_CFString DEVICE_NAME) out_data_size out_data
  | _ => Some (failed kAudioHardwareUnknownPropertyError)
  end.

Definition GetDevicePropertyData (g : AudioDriverState)
    (in_address : AudioObjectPropertyAddress)
    (out_data_size : option Z) (out_data : bool) : option GetResult :=
  match mSelector in_address with
  | kAudioObjectPropertyBaseClass =>
      Device_case sizeof_AudioClassID (PD_AudioClassID kAudioDeviceClassID)
                  out_data_size out_data
  | kAudioObjectPropertyClass =>
      Device_case sizeof_AudioClassID (PD_AudioClassID kAudioDeviceClassID)
                  out_data_size out_data
  | kAudioDevicePropertyDeviceUID =>
      Device_case sizeof_CFStringRef (PD_CFString DEVICE_UID) out_data_size out_data
  | kAudioDevicePropertyNominalSampleRate =>
      Device_case sizeof_Float64 (PD_Float64 (nominal_sample_rate g))
                  out_data_size out_data
  | kAudioDevicePropertyDeviceIsAlive =>
      Device_case sizeof_UInt32 (PD_UInt32 (if is_device_created g then 1 else 0))
                  out_data_size out_data
  | kAudioDevicePropertyDeviceIsRunning =>
      Device_case sizeof_UInt32 (PD_UInt32 (if is_capture_active g then 1 else 0))
                  out_data_size out_data
  | kAudioDevicePropertyDeviceCanBeDefaultDevice
  | kAudioDevicePropertyDeviceCanBeDefaultSystemDevice =>
      Device_case sizeof_UInt32 (PD_UInt32 1) out_data_size out_data
  | kAudioDevicePropertyLatency
  | kAudioDevicePropertySafetyOffset =>
      Device_case sizeof_UInt32 (PD_UInt32 0) out_data_size out_data
  | _ => Some (failed kAudioHardwareUnknownPropertyError)
  end.

Definition GetStreamPropertyData (in_address : AudioObjectPropertyAddress)
    (out_data_size : option Z) (out_data : bool) : option GetResult :=
  match mSelector in_address with
  | kAudioObjectPropertyBaseClass =>
      Device_case sizeof_AudioClassID (PD_AudioClassID kAudioStreamClassID)
                  out_data_size out_data
  | kAudioStreamPropertyDirection =>
      Device_case sizeof_UInt32 (PD_UInt32 1) out_data_size out_data
  | kAudioStreamPropertyLatency =>
      Device_case sizeof_UInt32 (PD_UInt32 0) out_data_size out_data
  | _ => Some (failed kAudioHardwareUnknownPropertyError)
  end.

(** [in_address] is [None] for a null address pointer; [in_data_size] is
    the capacity the caller announces and [out_data_size] the value behind
    the size pointer on entry. *)
Definition AudioDriver_GetPropertyData (g : AudioDriverState) (in_object_id : Z)
    (in_address : option AudioObjectPropertyAddress) (in_data_size : Z)
    (out_data_size : option Z) (out_data : bool) : option GetResult :=
  match in_address with
  | None => Some (failed kAudioHardwareIllegalOperationError)
  | Some in_address =>
      if in_object_id =? kAudioObjectPlugInObject then
        GetPlugInPropertyData in_address out_data_size out_data
      else if in_object_id =? device_object_id g then
        GetDevicePropertyData g in_address out_data_size out_data
      else
        GetStreamPropertyData in_address out_data_size out_data
  end.

(** audio_driver_complete.c: [static ULONG g_ref_count = 0]. *)
Definition AddRef (g_ref_count : Z) : Z * Z :=
  let g_ref_count := UInt32_wrap (g_ref_count + 1) in
  (g_ref_count, g_ref_count).

Definition Release (g_ref_count : Z) : Z * Z :=
  let g_ref_count :=
    if 0 <? g_ref_count then UInt32_wrap (g_ref_count - 1) else g_ref_count in
  (g_ref_count, g_ref_count).

(** [out_will_do] and [out_will_do_in_place] tell whether the two result
    pointers are non-null; the result carries what is stored through
    them. *)
Definition WillDoIOOperation (in_operation_id : IOOperationID)
    (out_will_do out_will_do_in_place : bool) : Z * option bool * option bool :=
  (0,
   if out_will_do then Some true else None,
   if out_will_do_in_place then Some true else None).

End AudioDriver.

(** ** Vocabulary of the properties *)

(** The ring buffer the specification describes: [ring_store pos xs rb]
    stores the samples [xs] at the successive positions [pos], [pos + 1],
    ... modulo the capacity; [ring_load pos count rb] reads [count]
    samples from the same positions. *)
Fixpoint ring_store (pos : Z) (xs : list Float32) (rb : list Float32) : list Float32 :=
  match xs with
  | [] => rb
  | x :: xs' => ring_store (pos + 1) xs' (<[Z.to_nat (pos mod kRingBufferSize) := x]> rb)
  end.

Fixpoint ring_load (pos : Z) (count : nat) (rb : list Float32) : list Float32 :=
  match count with
  | O => []
  | S count' =>
      default F32.zero (rb !! Z.to_nat (pos mod kRingBufferSize))
        :: ring_load (pos + 1) count' rb
  end.

(** One write-mix call per host buffer of [bufs], each of [K] frames. *)
Fixpoint write_all (K : Z) (bufs : list (list Float32)) (s : SurgeAudioDriverState)
  : option SurgeAudioDriverState :=
  match bufs with
  | [] => Some s
  | b :: bs =>
      '(_, _, s') ← SurgeAudioDriver_DoIOOperation kAudioServerPlugInIOOperationWriteMix K b s;
      write_all K bs s'
  end.

(** One read-input call per host buffer of [hosts], each of [K] frames;
    the result lists the buffers as the calls leave them. *)
Fixpoint read_all (K : Z) (hosts : list (list Float32)) (s : SurgeAudioDriverState)
  : option (list (list Float32) * SurgeAudioDriverState) :=
  match hosts with
  | [] => Some ([], s)
  | h :: hs =>
      '(_, out, s') ← SurgeAudioDriver_DoIOOperation kAudioServerPlugInIOOperationReadInput K h s;
      '(outs, s'') ← read_all K hs s';
      Some (out :: outs, s'')
  end.

(** Calls of the IO lifecycle, with the client that makes them. *)
Inductive IOCall : Set :=
| Call_StartIO (clientID : Z) (now : Z)
| Call_StopIO (clientID : Z).

Definition run_IOCall (c : IOCall) (s : SurgeAudioDriverState)
  : option SurgeAudioDriverState :=
  match c with
  | Call_StartIO _ now => snd <$> SurgeAudioDriver_StartIO now s
  | Call_StopIO _ => Some (snd (SurgeAudioDriver_StopIO s))
  end.

Fixpoint run_IOCalls (cs : list IOCall) (s : SurgeAudioDriverState)
  : option SurgeAudioDriverState :=
  match cs with
  | [] => Some s
  | c :: cs' => s' ← run_IOCall c s; run_IOCalls cs' s'
  end.

(** A call of [SetPropertyData]. *)
Record SetCall : Set := {
  set_objectID : Z;
  set_address : AudioObjectPropertyAddress;
  set_inDataSize : Z;
  set_inData : PropertyData
}.

Fixpoint run_SetCalls (libm : Libm) (timebase : mach_timebase_info_data_t)
    (cs : list SetCall) (s : SurgeAudioDriverState) : option SurgeAudioDriverState :=
  match cs with
  | [] => Some s
  | c :: cs' =>
      '(_, s') ← SurgeAudioDriver_SetPropertyData libm timebase (set_objectID c)
                   (set_address c) (set_inDataSize c) (set_inData c) s;
      run_SetCalls libm timebase cs' s'
  end.

(** [0 <= x <= 1] in [Float32]. *)
Definition F32_in_unit (x : Float32) : bool :=
  F32.leb F32.zero x && F32.leb x F32.one.

Definition is_volume_control (objectID : Z) : bool :=
  (objectID =? kObjectID_Volume_Input_Master) || (objectID =? kObjectID_Volume_Output_Master).

(** The volume scalar a call asks the driver to store, if it is a call on
    a volume control that stores one. *)
Definition requested_volume (libm : Libm) (c : SetCall) : option Float32 :=
  if is_volume_control (set_objectID c) then
    match mSelector (set_address c), set_inData c with
    | kAudioLevelControlPropertyScalarValue, PD_Float32 v => Some v
    | kAudioLevelControlPropertyDecibelValue, PD_Float32 dB =>
        Some (powf libm F32_10 (F32.div dB F32_20))
    | _, _ => None
    end
  else None.

Definition requests_unit_volume (libm : Libm) (c : SetCall) : Prop :=
  match requested_volume libm c with
  | Some v => F32_in_unit v = true
  | None => True
  end.

Definition is_volume_set (c : SetCall) : Prop :=
  is_volume_control (set_objectID c) = true /\ exists v, set_inData c = PD_Float32 v.

Definition address_of (sel : AudioObjectPropertySelector) : AudioObjectPropertyAddress :=
  {| mSelector := sel; mScope := kAudioObjectPropertyScopeGlobal;
     mElement := kAudioObjectPropertyElementMain |}.

(** Concrete surroundings for evaluating the operations: the timebase of
    arm64 hardware, a libm for the operations that never call it, and the
    two drivers as they are after loading. *)
Definition timebase_arm64 : mach_timebase_info_data_t := {| numer := 125; denom := 3 |}.

Definition libm_nan : Libm :=
  {| log10f := fun _ => S754_nan; powf := fun _ _ => S754_nan |}.

Definition gDriverState_loaded : SurgeAudioDriverState :=
  default gDriverState_static (InitializeDriverState timebase_arm64 gDriverState_static).

Definition Driver_loaded : Driver :=
  {| gDriverState := gDriverState_loaded; gDriverRefCount := 1; gLibcCalls := [] |}.

(** [AudioDriver_Initialize] of the variant: the first object id it hands
    out is 100 and the nominal rate is 48000. *)
Definition g_driver_state_initialized : AudioDriver.AudioDriverState :=
  {| AudioDriver.device_object_id := 100;
     AudioDriver.is_device_created := false;
     AudioDriver.is_capture_active := false;
     AudioDriver.nominal_sample_rate := kSampleRate_Default |}.

Definition F32_2 : Float32 := Eval vm_compute in F32.of_Z 2.
Definition F64_22050 : Float64 := Eval vm_compute in F64.of_Z 22050.
Definition F32_half : Float32 := Eval vm_compute in F32.div (F32.of_Z 1) (F32.of_Z 2).
Definition F32_quarter : Float32 := Eval vm_compute in F32.div (F32.of_Z 1) (F32.of_Z 4).

(** [k] calls of [SurgeAudioDriver_AddRef]. *)
Fixpoint AddRef_times (k : nat) (d : Driver) : Driver :=
  match k with
  | O => d
  | S k' => AddRef_times k' (snd (SurgeAudioDriver_AddRef d))
  end.

(** The pairs that [SurgeAudioDriver_HasProperty] advertises and
    [SurgeAudioDriver_GetPropertyData] has no case for. *)
Definition GetPropertyData_misses (objectID : Z) (sel : AudioObjectPropertySelector) : bool :=
  match sel with
  | kAudioDevicePropertyIcon => objectID =? kObjectID_Device
  | kAudioLevelControlPropertyConvertScalarToDecibels
  | kAudioLevelControlPropertyConvertDecibelsToScalar => is_volume_control objectID
  | _ => false
  end.

(** The property is advertised, has the size [size], and the getter
    answers it with the unknown-property error. *)
Definition advertised_sized_unanswered (libm : Libm) (objectID : Z)
    (address : AudioObjectPropertyAddress) (size : Z) (qualifier : option string)
    (inDataSize : Z) (s : SurgeAudioDriverState) : Prop :=
  SurgeAudioDriver_HasProperty objectID address = true
  /\ SurgeAudioDriver_GetPropertyDataSize objectID address
     = (kAudioHardwareNoError, Some size)
  /\ SurgeAudioDriver_GetPropertyData libm objectID address qualifier inDataSize s
     = failed kAudioHardwareUnknownPropertyError.

(** The libc calls one [SurgeAudioDriver_Release] adds when it leaves the
    count at [count'] in a driver whose ring-buffer pointer is [rb]. *)
Definition Release_calls (count' : Z) (rb : option (list Float32)) : list LibcCall :=
  if count' =? 0 then
    match rb with
    | Some _ => [call_free; call_pthread_mutex_destroy]
    | None => [call_pthread_mutex_destroy]
    end
  else [].

(** The datum [x] has exactly the integer value [z]. *)
Definition F64_represents (x : Float64) (z : Z) : Prop :=
  match x with
  | S754_zero _ => z = 0
  | S754_finite s m e =>
      (if s then - Z.pos m else Z.pos m) * 2 ^ Z.max 0 e = z * 2 ^ Z.max 0 (- e)
  | S754_infinity _ | S754_nan => False
  end.

(** The loaded driver in a session that started at host time 1000. *)
Definition gDriverState_running : SurgeAudioDriverState :=
  set_deviceIsRunning true (set_anchorHostTime 1000 gDriverState_loaded).

(** ** Further code of the Surge driver *)

Inductive HRESULT : Set :=
| S_OK
| E_NOINTERFACE
| E_POINTER.

(** The sixteen bytes of the two interface identifiers that
    [SurgeAudioDriver_QueryInterface] builds. *)
Definition audioPlugInInterfaceUUID : list Z :=
  [0x44; 0x3A; 0xBA; 0xB8; 0xE7; 0xB3; 0x49; 0x1A;
   0xB9; 0x85; 0xBE; 0xB9; 0x18; 0x70; 0x30; 0xDB].

Definition iUnknownUUID : list Z :=
  [0x00; 0x00; 0x00; 0x00; 0x00; 0x00; 0x00; 0x00;
   0xC0; 0x00; 0x00; 0x00; 0x00; 0x00; 0x00; 0x46].

(** AudioServerPlugIn.h: the identifier of the driver interface,
    EEA5773D-CC43-49F1-8E00-8F96E7D23B17. The bytes that the function
    names [audioPlugInInterfaceUUID] are those of
    443ABAB8-E7B3-491A-B985-BEB9187030DB, the identifier the factory
    compares the plug-in type with. *)
Definition kAudioServerPlugInDriverInterfaceUUID : list Z :=
  [0xEE; 0xA5; 0x77; 0x3D; 0xCC; 0x43; 0x49; 0xF1;
   0x8E; 0x00; 0x8F; 0x96; 0xE7; 0xD2; 0x3B; 0x17].

(** [uuid] is the sixteen bytes of the requested identifier and
    [interface] tells whether the result pointer is non-null. The result
    is the status, whether the driver (rather than [NULL]) is stored
    through [interface], and the driver after the call; [None] is a store
    through a null pointer. *)
Definition SurgeAudioDriver_QueryInterface (uuid : list Z) (interface : bool) (d : Driver)
  : option (HRESULT * bool * Driver) :=
  if bool_decide (uuid = audioPlugInInterfaceUUID) || bool_decide (uuid = iUnknownUUID)
  then
    let d := snd (SurgeAudioDriver_AddRef d) in
    if interface then Some (S_OK, true, d) else None
  else
    if interface then Some (E_NOINTERFACE, false, d) else None.

(** [k] calls of [SurgeAudioDriver_Release]. *)
Fixpoint Release_times (k : nat) (d : Driver) : Driver :=
  match k with
  | O => d
  | S k' => Release_times k' (snd (SurgeAudioDriver_Release d))
  end.

(** The ring buffer is allocated at its full size and both positions lie
    inside it. *)
Definition ring_ok (s : SurgeAudioDriverState) : Prop :=
  (exists rb, ringBuffer s = Some rb /\ length rb = Z.to_nat kRingBufferSize)
  /\ 0 <= ringBufferWritePosition s < kRingBufferSize
  /\ 0 <= ringBufferReadPosition s < kRingBufferSize.

(** Calls of the IO engine; an IO operation carries the host buffer it is
    given. *)
Inductive EngineCall : Set :=
| Engine_StartIO (now : Z)
| Engine_StopIO
| Engine_DoIO (operationID : IOOperationID) (ioBufferFrameSize : Z)
              (ioMainBuffer : list Float32).

Definition run_EngineCall (c : EngineCall) (s : SurgeAudioDriverState)
  : option (OSStatus * SurgeAudioDriverState) :=
  match c with
  | Engine_StartIO now => SurgeAudioDriver_StartIO now s
  | Engine_StopIO => Some (SurgeAudioDriver_StopIO s)
  | Engine_DoIO op n buffer =>
      '(st, _, s') ← SurgeAudioDriver_DoIOOperation op n buffer s; Some (st, s')
  end.

(** The calls in order; the result lists the statuses returned. *)
Fixpoint run_EngineCalls (cs : list EngineCall) (s : SurgeAudioDriverState)
  : option (list OSStatus * SurgeAudioDriverState) :=
  match cs with
  | [] => Some ([], s)
  | c :: cs' =>
      '(st, s') ← run_EngineCall c s;
      '(sts, s'') ← run_EngineCalls cs' s';
      Some (st :: sts, s'')
  end.

(** The host buffer of an IO operation is large enough for the frames
    asked for. *)
Definition EngineCall_fits (c : EngineCall) : Prop :=
  match c with
  | Engine_DoIO _ n buffer =>
      0 <= n /\ n * kChannelsPerFrame < UInt32_modulus
      /\ (Z.to_nat (n * kChannelsPerFrame) <= length buffer)%nat
  | _ => True
  end.

Definition F32_is_zero (x : Float32) : Prop :=
  match x with S754_zero _ => True | _ => False end.

Definition F32_is_finite (x : Float32) : Prop :=
  match x with S754_zero _ | S754_finite _ _ _ => True | _ => False end.

(** ** Further code of the shared-memory variant: audio_driver.c,
    audio_driver_properties.c and audio_driver_complete.c

    audio_driver.h declares the [ring_buffer] field of [SharedAudioMemory]
    as an embedded structure, while every function uses it as a pointer to
    the mapped region; the embedding follows the functions. *)

Module AudioDriverShm.

Definition RING_BUFFER_FRAMES : Z := 48000 * 2.

Record AudioRingBuffer : Set := {
  write_position : Z;
  read_position : Z;
  active : bool;
  sample_rate : Z;
  channels : Z;
  frame_size : Z;
  buffer : list Float32
}.

Definition set_active (b : bool) (r : AudioRingBuffer) : AudioRingBuffer :=
  {| write_position := write_position r; read_position := read_position r;
     active := b; sample_rate := sample_rate r; channels := channels r;
     frame_size := frame_size r; buffer := buffer r |}.

(** The globals: [g_driver_state] (its [shared_memory] pointer is [None]
    when null, and holds the mapped ring buffer otherwise) and the
    function-local static [s_next_object_id]. *)
Record Globals : Set := {
  g_driver_state : AudioDriver.AudioDriverState;
  shared_memory : option AudioRingBuffer;
  s_next_object_id : Z
}.

Definition set_is_capture_active (b : bool) (g : AudioDriver.AudioDriverState)
  : AudioDriver.AudioDriverState :=
  {| AudioDriver.device_object_id := AudioDriver.device_object_id g;
     AudioDriver.is_device_created := AudioDriver.is_device_created g;
     AudioDriver.is_capture_active := b;
     AudioDriver.nominal_sample_rate := AudioDriver.nominal_sample_rate g |}.

Definition set_is_device_created (b : bool) (g : AudioDriver.AudioDriverState)
  : AudioDriver.AudioDriverState :=
  {| AudioDriver.device_object_id := AudioDriver.device_object_id g;
     AudioDriver.is_device_created := b;
     AudioDriver.is_capture_active := AudioDriver.is_capture_active g;
     AudioDriver.nominal_sample_rate := AudioDriver.nominal_sample_rate g |}.

(** [atomic_store(&shared_memory->ring_buffer->active, b)] behind the
    test that both pointers are non-null. *)
Definition store_active (b : bool) (m : option AudioRingBuffer) : option AudioRingBuffer :=
  match m with
  | Some r => Some (set_active b r)
  | None => None
  end.

(** audio_driver.c. [region] stands for the operating system: [Some buf]
    when [shm_open], [ftruncate] and [mmap] succeed, with [buf] the sample
    array of the mapped region; [None] when one of them fails. [calloc]
    is taken to succeed and [out_memory] to be non-null. *)
Definition AudioDriver_CreateSharedMemory (region : option (list Float32))
  : OSStatus * option AudioRingBuffer :=
  match region with
  | None => (kAudioHardwareUnspecifiedError, None)
  | Some buf =>
      (noErr,
       Some {| write_position := 0; read_position := 0; active := false;
               sample_rate := 48000; channels := 1; frame_size := sizeof_Float32;
               buffer := buf |})
  end.

(** The result tells whether the driver reference (rather than [NULL])
    is returned. *)
Definition AudioDriver_Initialize (region : option (list Float32)) (w : Globals)
  : bool * Globals :=
  let g := {| AudioDriver.device_object_id := s_next_object_id w;
              AudioDriver.is_device_created := false;
              AudioDriver.is_capture_active := false;
              AudioDriver.nominal_sample_rate := kSampleRate_Default |} in
  let next := UInt32_wrap (s_next_object_id w + 1) in
  match AudioDriver_CreateSharedMemory region with
  | (kAudioHardwareNoError, m) =>
      (true, {| g_driver_state := g; shared_memory := m; s_next_object_id := next |})
  | (_, _) =>
      (false, {| g_driver_state := g; shared_memory := None; s_next_object_id := next |})
  end.

(** [out_device_object_id] tells whether the result pointer is non-null;
    the result carries what is stored through it. *)
Definition AudioDriver_AddDevice (out_device_object_id : bool) (w : Globals)
  : OSStatus * option Z * Globals :=
  (noErr,
   if out_device_object_id
   then Some (AudioDriver.device_object_id (g_driver_state w)) else None,
   {| g_driver_state := set_is_device_created true (g_driver_state w);
      shared_memory := shared_memory w; s_next_object_id := s_next_object_id w |}).

Definition AudioDriver_RemoveDevice (w : Globals) : OSStatus * Globals :=
  (noErr,
   {| g_driver_state :=
        set_is_capture_active false (set_is_device_created false (g_driver_state w));
      shared_memory := store_active false (shared_memory w);
      s_next_object_id := s_next_object_id w |}).

(** audio_driver_complete.c *)
Definition StartIO (w : Globals) : OSStatus * Globals :=
  (noErr,
   {| g_driver_state := set_is_capture_active true (g_driver_state w);
      shared_memory := store_active true (shared_memory w);
      s_next_object_id := s_next_object_id w |}).

Definition StopIO (w : Globals) : OSStatus * Globals :=
  (noErr,
   {| g_driver_state := set_is_capture_active false (g_driver_state w);
      shared_memory := store_active false (shared_memory w);
      s_next_object_id := s_next_object_id w |}).

(** [in_iid] is the sixteen bytes of the requested identifier and
    [kIOCFPlugInInterfaceID] those of the platform's constant;
    [out_interface] tells whether the result pointer is non-null. The
    result is the status, what is stored through [out_interface] (whether
    it is the driver rather than [NULL]), and the reference count. *)
Definition QueryInterface (kIOCFPlugInInterfaceID in_iid : list Z)
    (out_interface : bool) (g_ref_count : Z) : HRESULT * option bool * Z :=
  if negb out_interface then (E_POINTER, None, g_ref_count)
  else if bool_decide (in_iid = kIOCFPlugInInterfaceID)
  then (S_OK, Some true, snd (AudioDriver.AddRef g_ref_count))
  else (E_NOINTERFACE, Some false, g_ref_count).

(** audio_driver_properties.c *)
Definition HasPlugInProperty (in_address : AudioObjectPropertyAddress) : bool :=
  match mSelector in_address with
  | kAudioObjectPropertyBaseClass
  | kAudioObjectPropertyClass
  | kAudioObjectPropertyOwner
  | kAudioObjectPropertyName
  | kAudioHardwarePropertyPlugInList => true
  | _ => false
  end.

Definition IsPlugInPropertySettable (in_address : AudioObjectPropertyAddress) : bool :=
  false.

Definition HasDeviceProperty (in_address : AudioObjectPropertyAddress) : bool :=
  match mSelector in_address with
  | kAudioObjectPropertyBaseClass
  | kAudioObjectPropertyClass
  | kAudioObjectPropertyOwner
  | kAudioObjectPropertyName
  | kAudioDevicePropertyDeviceUID
  | kAudioDevicePropertyModelUID
  | kAudioDevicePropertyTransportType
  | kAudioDevicePropertyDeviceIsAlive
  | kAudioDevicePropertyDeviceIsRunning
  | kAudioDevicePropertyDeviceCanBeDefaultDevice
  | kAudioDevicePropertyDeviceCanBeDefaultSystemDevice
  | kAudioDevicePropertyLatency
  | kAudioDevicePropertySafetyOffset
  | kAudioDevicePropertyNominalSampleRate
  | kAudioDevicePropertyAvailableNominalSampleRates
  | kAudioDevicePropertyStreams => true
  | _ => false
  end.

Definition IsDevicePropertySettable (in_address : AudioObjectPropertyAddress) : bool :=
  match mSelector in_address with
  | kAudioDevicePropertyDeviceIsRunning
  | kAudioDevicePropertyNominalSampleRate => true
  | _ => false
  end.

Definition HasStreamProperty (in_address : AudioObjectPropertyAddress) : bool :=
  match mSelector in_address with
  | kAudioObjectPropertyBaseClass
  | kAudioObjectPropertyClass
  | kAudioObjectPropertyOwner
  | kAudioStreamPropertyDirection
  | kAudioStreamPropertyTerminalType
  | kAudioStreamPropertyStartingChannel
  | kAudioStreamPropertyLatency => true
  | _ => false
  end.

Definition IsStreamPropertySettable (in_address : AudioObjectPropertyAddress) : bool :=
  false.

(** [in_address] is [None] for a null address pointer; [out_is_settable]
    tells whether the result pointer is non-null, and the result carries
    what is stored through it. *)
Definition AudioDriver_HasProperty (g : AudioDriver.AudioDriverState) (in_object_id : Z)
    (in_address : option AudioObjectPropertyAddress) (out_is_settable : bool)
  : OSStatus * option bool :=
  match in_address with
  | None => (kAudioHardwareIllegalOperationError, None)
  | Some in_address =>
      let has_property :=
        if in_object_id =? kAudioObjectPlugInObject then HasPlugInProperty in_address
        else if in_object_id =? AudioDriver.device_object_id g
        then HasDeviceProperty in_address
        else HasStreamProperty in_address in
      let stored :=
        if out_is_settable then
          Some (if has_property then
                  if in_object_id =? kAudioObjectPlugInObject
                  then IsPlugInPropertySettable in_address
                  else if in_object_id =? AudioDriver.device_object_id g
                  then IsDevicePropertySettable in_address
                  else IsStreamPropertySettable in_address
                else false)
        else None in
      (if has_property then noErr else kAudioHardwareUnknownPropertyError, stored)
  end.

Definition AudioDriver_IsPropertySettable (g : AudioDriver.AudioDriverState)
    (in_object_id : Z) (in_address : option AudioObjectPropertyAddress)
    (out_is_settable : bool) : OSStatus * option bool :=
  match in_address, out_is_settable with
  | Some in_address, true =>
      (noErr,
       Some (if in_object_id =? kAudioObjectPlugInObject
             then IsPlugInPropertySettable in_address
             else if in_object_id =? AudioDriver.device_object_id g
             then IsDevicePropertySettable in_address
             else IsStreamPropertySettable in_address))
  | _, _ => (kAudioHardwareIllegalOperationError, None)
  end.

(** [out_data_size] is the value behind the size pointer on entry, [None]
    for a null pointer. *)
Definition AudioDriver_GetPropertyDataSize (g : AudioDriver.AudioDriverState)
    (in_object_id : Z) (in_address : option AudioObjectPropertyAddress)
    (out_data_size : option Z) : option GetResult :=
  match in_address, out_data_size with
  | Some in_address, Some _ =>
      if in_object_id =? kAudioObjectPlugInObject then
        AudioDriver.GetPlugInPropertyData in_address out_data_size false
      else if in_object_id =? AudioDriver.device_object_id g then
        AudioDriver.GetDevicePropertyData g in_address out_data_size false
      else
        AudioDriver.GetStreamPropertyData in_address out_data_size false
  | _, _ => Some (failed kAudioHardwareIllegalOperationError)
  end.

(** [in_data] is the datum behind the data pointer. [None] is a datum of
    another kind than the [UInt32] the code reads. *)
Definition AudioDriver_SetPropertyData (in_object_id : Z)
    (in_address : option AudioObjectPropertyAddress) (in_data_size : Z)
    (in_data : PropertyData) (w : Globals) : option (OSStatus * Globals) :=
  match in_address with
  | None => Some (kAudioHardwareIllegalOperationError, w)
  | Some in_address =>
      if in_object_id =? AudioDriver.device_object_id (g_driver_state w) then
        match mSelector in_address with
        | kAudioDevicePropertyDeviceIsRunning =>
            if sizeof_UInt32 <=? in_data_size then
              is_running ← inData_UInt32 in_data;
              Some (noErr,
                    {| g_driver_state :=
                         set_is_capture_active (negb (is_running =? 0)) (g_driver_state w);
                       shared_memory :=
                         store_active (negb (is_running =? 0)) (shared_memory w);
                       s_next_object_id := s_next_object_id w |})
            else Some (kAudioHardwareIllegalOperationError, w)
        | _ => Some (kAudioHardwareIllegalOperationError, w)
        end
      else Some (kAudioHardwareIllegalOperationError, w)
  end.

(** audio_driver.c: audio processing *)
Definition F32_add : Float32 -> Float32 -> Float32 := SFadd F32.prec F32.emax.

(** The body of the downmix loop; the indices [i * 2] and [i * 2 + 1] are
    32-bit products. [None] is an access outside an array. *)
Fixpoint Downmix_loop (count i : nat) (stereo_input mono_output : list Float32)
  : option (list Float32) :=
  match count with
  | O => Some mono_output
  | S count' =>
      in_left ← stereo_input !! Z.to_nat (UInt32_wrap (Z.of_nat i * 2));
      in_right ← stereo_input !! Z.to_nat (UInt32_wrap (Z.of_nat i * 2 + 1));
      if decide (i < length mono_output)%nat then
        Downmix_loop count' (S i) stereo_input
          (<[i := F32.mul (F32_add in_left in_right) F32_half]> mono_output)
      else None
  end.

(** The two arrays are [None] for null pointers; the result carries the
    output array after the call. *)
Definition AudioDriver_DownmixStereoToMono (stereo_input mono_output : option (list Float32))
    (frame_count : Z) : option (OSStatus * option (list Float32)) :=
  match stereo_input, mono_output with
  | Some stereo, Some mono =>
      if frame_count =? 0 then Some (kAudioHardwareBadObjectError, mono_output)
      else
        mono' ← Downmix_loop (Z.to_nat frame_count) 0 stereo mono;
        Some (noErr, Some mono')
  | _, _ => Some (kAudioHardwareBadObjectError, mono_output)
  end.

Record AudioBuffer : Set := {
  mNumberChannels : Z;
  mDataByteSize : Z;
  mData : option (list Float32)
}.

Record AudioBufferList : Set := {
  mNumberBuffers : Z;
  mBuffers : list AudioBuffer
}.

(** The body of the loop that stores the mono frames, in 64-bit
    arithmetic. *)
Fixpoint RingWrite_loop (count i : nat) (write_pos : Z) (mono_buffer : list Float32)
    (buf : list Float32) : option (list Float32) :=
  match count with
  | O => Some buf
  | S count' =>
      let buffer_index := UInt64_wrap (write_pos + Z.of_nat i) mod RING_BUFFER_FRAMES in
      x ← mono_buffer !! i;
      if decide (Z.to_nat buffer_index < length buf)%nat then
        RingWrite_loop count' (S i) write_pos mono_buffer (<[Z.to_nat buffer_index := x]> buf)
      else None
  end.

(** The two arguments are [None] for null pointers. The array that
    [alloca] provides is written in full by the downmix before it is
    read, so its initial contents do not matter. *)
Definition AudioDriver_WriteToRingBuffer (ring_buffer : option AudioRingBuffer)
    (audio_buffer_list : option AudioBufferList)
  : option (OSStatus * option AudioRingBuffer) :=
  match ring_buffer, audio_buffer_list with
  | Some ring, Some abl =>
      if negb (active ring) then Some (noErr, ring_buffer)
      else if mNumberBuffers abl <? 1 then Some (kAudioHardwareBadObjectError, ring_buffer)
      else
        input_buffer ← mBuffers abl !! 0%nat;
        match mData input_buffer with
        | None => Some (noErr, ring_buffer)
        | Some stereo_data =>
            if mDataByteSize input_buffer =? 0 then Some (noErr, ring_buffer)
            else
              let frame_count := mDataByteSize input_buffer / (sizeof_Float32 * 2) in
              let mono_buffer := replicate (Z.to_nat frame_count) F32.zero in
              '(status, mono) ← AudioDriver_DownmixStereoToMono
                                  (Some stereo_data) (Some mono_buffer) frame_count;
              match status, mono with
              | kAudioHardwareNoError, Some mono_buffer =>
                  let write_pos := write_position ring in
                  buf ← RingWrite_loop (Z.to_nat frame_count) 0 write_pos mono_buffer
                          (buffer ring);
                  Some (noErr,
                        Some {| write_position :=
                                  UInt64_wrap (write_pos + frame_count) mod RING_BUFFER_FRAMES;
                                read_position := read_position ring;
                                active := active ring;
                                sample_rate := sample_rate ring;
                                channels := channels ring;
                                frame_size := frame_size ring;
                                buffer := buf |})
              | _, _ => Some (status, ring_buffer)
              end
        end
  | _, _ => Some (kAudioHardwareBadObjectError, ring_buffer)
  end.

(** The mono frames of an interleaved stereo array. *)
Fixpoint downmix (stereo : list Float32) : list Float32 :=
  match stereo with
  | in_left :: in_right :: rest =>
      F32.mul (F32_add in_left in_right) F32_half :: downmix rest
  | _ => []
  end.

(** Storing frames at successive positions modulo [RING_BUFFER_FRAMES]. *)
Fixpoint shm_store (pos : Z) (xs : list Float32) (buf : list Float32) : list Float32 :=
  match xs with
  | [] => buf
  | x :: xs' => shm_store (pos + 1) xs' (<[Z.to_nat (pos mod RING_BUFFER_FRAMES) := x]> buf)
  end.

(** Calls that touch the capture flag. *)
Inductive FlagCall : Set :=
| Flag_StartIO
| Flag_StopIO
| Flag_RemoveDevice
| Flag_AddDevice
| Flag_SetIsRunning (is_running : Z).

Definition run_FlagCall (c : FlagCall) (w : Globals) : Globals :=
  match c with
  | Flag_StartIO => snd (StartIO w)
  | Flag_StopIO => snd (StopIO w)
  | Flag_RemoveDevice => snd (AudioDriver_RemoveDevice w)
  | Flag_AddDevice => snd (AudioDriver_AddDevice true w)
  | Flag_SetIsRunning v =>
      match AudioDriver_SetPropertyData (AudioDriver.device_object_id (g_driver_state w))
              (Some (address_of kAudioDevicePropertyDeviceIsRunning)) sizeof_UInt32
              (PD_UInt32 v) w with
      | Some (_, w') => w'
      | None => w
      end
  end.

(** The calls in order. *)
Fixpoint run_FlagCalls (cs : list FlagCall) (w : Globals) : Globals :=
  match cs with
  | [] => w
  | c :: cs' => run_FlagCalls cs' (run_FlagCall c w)
  end.

(** The shared ring buffer is mapped, its [active] flag equals the
    driver's capture flag, and its samples and positions are those the
    mapping started with. *)
Definition ring_mirrors (buf : list Float32) (w : Globals) : Prop :=
  exists r,
    shared_memory w = Some r
    /\ active r = AudioDriver.is_capture_active (g_driver_state w)
    /\ buffer r = buf /\ write_position r = 0 /\ read_position r = 0.

(** The selectors that the [Has...Property] helper of an object advertises
    and its [Get...PropertyData] helper has no case for. *)
Definition advertised_only (g : AudioDriver.AudioDriverState) (in_object_id : Z)
    (sel : AudioObjectPropertySelector) : bool :=
  if in_object_id =? kAudioObjectPlugInObject then
    match sel with
    | kAudioHardwarePropertyPlugInList => true
    | _ => false
    end
  else if in_object_id =? AudioDriver.device_object_id g then
    match sel with
    | kAudioObjectPropertyOwner
    | kAudioObjectPropertyName
    | kAudioDevicePropertyModelUID
    | kAudioDevicePropertyTransportType
    | kAudioDevicePropertyAvailableNominalSampleRates
    | kAudioDevicePropertyStreams => true
    | _ => false
    end
  else
    match sel with
    | kAudioObjectPropertyClass
    | kAudioObjectPropertyOwner
    | kAudioStreamPropertyTerminalType
    | kAudioStreamPropertyStartingChannel => true
    | _ => false
    end.

(** A valid [Float32] whose double is not above the largest finite
    value. *)
Definition F32_doubles (x : Float32) : Prop :=
  F32.valid x
  /\ match x with S754_finite _ _ e => e < F32.emax - F32.prec | _ => True end.

(** A mono signal laid out as interleaved stereo, the same sample on both
    channels. *)
Fixpoint duplicate (xs : list Float32) : list Float32 :=
  match xs with
  | [] => []
  | x :: xs' => x :: x :: duplicate xs'
  end.

(** audio_driver_complete.c. [now] is the value [mach_absolute_time()]
    returns and [timebase] what [mach_timebase_info] stores;
    [out_sample_time] and [out_host_time] tell whether the result pointers
    are non-null. [None] is a division by zero. *)
Definition GetZeroTimeStamp (timebase : mach_timebase_info_data_t) (now : Z)
    (out_sample_time out_host_time : bool)
  : option (OSStatus * option Float64 * option Z) :=
  let sample_time := if out_sample_time then Some F64.zero else None in
  if out_host_time then
    if denom timebase =? 0 then None
    else Some (noErr, sample_time, Some (UInt64_wrap (now * numer timebase) / denom timebase))
  else Some (noErr, sample_time, None).

(** Concrete surroundings for evaluating the operations: the globals as
    the C initialisers leave them, a mapped region of silence, a ring that
    is capturing, and a buffer list of one stereo frame. *)
Definition Globals_static : Globals :=
  {| g_driver_state :=
       {| AudioDriver.device_object_id := 0;
          AudioDriver.is_device_created := false;
          AudioDriver.is_capture_active := false;
          AudioDriver.nominal_sample_rate := F64.zero |};
     shared_memory := None;
     s_next_object_id := 100 |}.

Definition region_silent : list Float32 :=
  replicate (Z.to_nat (RING_BUFFER_FRAMES * 2)) F32.zero.

Definition ring_capturing : AudioRingBuffer :=
  {| write_position := 0; read_position := 0; active := true;
     sample_rate := 48000; channels := 1; frame_size := sizeof_Float32;
     buffer := region_silent |}.

Definition buffer_list_of (byte_size : Z) (data : list Float32) : AudioBufferList :=
  {| mNumberBuffers := 1;
     mBuffers := [ {| mNumberChannels := 2; mDataByteSize := byte_size;
                      mData := Some data |} ] |}.

End AudioDriverShm.

(** * Properties *)

Lemma kRingBufferSize_eq : kRingBufferSize = 131072.
Proof. reflexivity. Qed.

(** ** Lifecycle: StartIO and StopIO *)

Lemma StartIO_not_running now s rb :
  ringBuffer s = Some rb -> length rb = Z.to_nat kRingBufferSize ->
  deviceIsRunning s = false ->
  SurgeAudioDriver_StartIO now s =
    Some (kAudioHardwareNoError,
          set_ringBufferReadPosition 0
            (set_ringBufferWritePosition 0
               (set_ringBuffer (Some (replicate (Z.to_nat kRingBufferSize) F32.zero))
                  (set_deviceIsRunning true
                     (set_anchorSampleTime F64.zero (set_anchorHostTime now s)))))).
Proof.
  intros Hrb Hlen Hrun. unfold SurgeAudioDriver_StartIO.
  rewrite Hrun. cbn [negb].
  cbn [ringBuffer set_deviceIsRunning set_anchorSampleTime set_anchorHostTime].
  rewrite Hrb. cbn [mbind option_bind].
  destruct (decide _) as [_|Hn]; [|lia].
  rewrite drop_ge by lia. rewrite app_nil_r. reflexivity.
Qed.

Lemma StartIO_running now s :
  deviceIsRunning s = true ->
  SurgeAudioDriver_StartIO now s = Some (kAudioHardwareNoError, s).
Proof. intros Hrun. unfold SurgeAudioDriver_StartIO. now rewrite Hrun. Qed.

(** C3, as the specification states it, fails: two clients start, one
    stops, and the device is no longer running. *)
Lemma C3_counterexample :
  deviceIsRunning <$>
    run_IOCalls [Call_StartIO 1 1000; Call_StartIO 2 2000; Call_StopIO 1]
                gDriverState_loaded
  = Some false.
Proof. vm_compute. reflexivity. Qed.

(** C3, amended: [StartIO] keeps no client count. When the device is not
    running it captures the anchor host time, resets the anchor sample
    time and the ring-buffer positions, zeroes the ring buffer and marks
    the device running; when the device is running it changes nothing.
    [StopIO] marks the device not running whatever clients are left, so
    after StartIO(A), StartIO(B), StopIO(A) the device is stopped. *)
Theorem C3_StartIO_StopIO_by_flag (s : SurgeAudioDriverState) (rb : list Float32) :
  ringBuffer s = Some rb -> length rb = Z.to_nat kRingBufferSize ->
  (forall now, deviceIsRunning s = false ->
     SurgeAudioDriver_StartIO now s =
       Some (kAudioHardwareNoError,
             set_ringBufferReadPosition 0
               (set_ringBufferWritePosition 0
                  (set_ringBuffer (Some (replicate (Z.to_nat kRingBufferSize) F32.zero))
                     (set_deviceIsRunning true
                        (set_anchorSampleTime F64.zero (set_anchorHostTime now s)))))))
  /\ (forall now, deviceIsRunning s = true ->
        SurgeAudioDriver_StartIO now s = Some (kAudioHardwareNoError, s))
  /\ SurgeAudioDriver_StopIO s = (kAudioHardwareNoError, set_deviceIsRunning false s)
  /\ (forall a b tA tB,
        exists s', run_IOCalls [Call_StartIO a tA; Call_StartIO b tB; Call_StopIO a] s = Some s'
                   /\ deviceIsRunning s' = false).
Proof.
  intros Hrb Hlen. repeat split.
  - intros now Hrun. now apply StartIO_not_running with rb.
  - intros now Hrun. now apply StartIO_running.
  - intros a b tA tB. cbn [run_IOCalls run_IOCall].
    destruct (deviceIsRunning s) eqn:Hrun.
    + rewrite (StartIO_running tA s Hrun). cbn.
      rewrite (StartIO_running tB s Hrun). cbn. eauto.
    + rewrite (StartIO_not_running tA s rb Hrb Hlen Hrun). cbn.
      eauto.
Qed.

Lemma C3_StartIO_StopIO_by_flag_witness :
  exists s', run_IOCalls [Call_StartIO 1 1000; Call_StartIO 2 2000; Call_StopIO 1]
                         gDriverState_loaded = Some s'
             /\ deviceIsRunning s' = false.
Proof.
  refine (proj2 (proj2 (proj2
    (C3_StartIO_StopIO_by_flag gDriverState_loaded
       (replicate (Z.to_nat kRingBufferSize) F32.zero) _ _))) 1 2 1000 2000).
  - reflexivity.
  - apply length_replicate.
Defined.

(** ** Nominal sample rate *)

Lemma SetPropertyData_NominalSampleRate libm timebase sz rate s t :
  ticksPerFrame_of timebase rate = Some t ->
  SurgeAudioDriver_SetPropertyData libm timebase kObjectID_Device
    (address_of kAudioDevicePropertyNominalSampleRate) sz (PD_Float64 rate) s
  = Some (kAudioHardwareNoError, set_ticksPerFrame t (set_sampleRate rate s)).
Proof.
  intros Ht. unfold SurgeAudioDriver_SetPropertyData. cbn.
  change (ticksPerFrame_of timebase rate ≫= _) with
    (ticksPerFrame_of timebase rate ≫=
       fun t => Some (kAudioHardwareNoError, set_ticksPerFrame t (set_sampleRate rate s))).
  now rewrite Ht.
Qed.

(** C5, as the specification states it, fails: the rate 22050 is not
    advertised, and setting it succeeds and changes the current rate. *)
Lemma C5_counterexample :
  SurgeAudioDriver_SetPropertyData libm_nan timebase_arm64 kObjectID_Device
    (address_of kAudioDevicePropertyNominalSampleRate) sizeof_Float64
    (PD_Float64 F64_22050) gDriverState_loaded
  = Some (kAudioHardwareNoError,
          set_ticksPerFrame 1088 (set_sampleRate F64_22050 gDriverState_loaded))
  /\ ~ In F64_22050 advertisedSampleRates
  /\ sampleRate gDriverState_loaded <> F64_22050.
Proof.
  split; [|split].
  - now apply SetPropertyData_NominalSampleRate.
  - cbn. intros [H|[H|[H|[H|[]]]]]; discriminate H.
  - vm_compute. discriminate.
Qed.

(** C5, amended: [SetPropertyData] on the device's nominal sample rate
    does not validate the rate. For every supplied rate for which the
    tick computation is defined, the set succeeds and the supplied rate
    becomes the current rate; so after a set the current rate is a member
    of the advertised list exactly when the supplied rate is. *)
Theorem C5_SetPropertyData_rate_unvalidated
    (libm : Libm) (timebase : mach_timebase_info_data_t) (sz : Z)
    (rate : Float64) (s : SurgeAudioDriverState) (t : Z) :
  ticksPerFrame_of timebase rate = Some t ->
  exists s',
    SurgeAudioDriver_SetPropertyData libm timebase kObjectID_Device
      (address_of kAudioDevicePropertyNominalSampleRate) sz (PD_Float64 rate) s
    = Some (kAudioHardwareNoError, s')
    /\ sampleRate s' = rate
    /\ ticksPerFrame s' = t
    /\ (In (sampleRate s') advertisedSampleRates <-> In rate advertisedSampleRates)
    /\ SurgeAudioDriver_GetPropertyData libm kObjectID_Device
         (address_of kAudioDevicePropertyNominalSampleRate) None sizeof_Float64 s'
       = stored (PD_Float64 rate) sizeof_Float64.
Proof.
  intros Ht. exists (set_ticksPerFrame t (set_sampleRate rate s)). split.
  - exact (SetPropertyData_NominalSampleRate libm timebase sz rate s t Ht).
  - repeat split; auto.
Qed.

Lemma C5_SetPropertyData_rate_unvalidated_witness :
  exists s',
    SurgeAudioDriver_SetPropertyData libm_nan timebase_arm64 kObjectID_Device
      (address_of kAudioDevicePropertyNominalSampleRate) sizeof_Float64
      (PD_Float64 F64_22050) gDriverState_loaded
    = Some (kAudioHardwareNoError, s')
    /\ sampleRate s' = F64_22050
    /\ ticksPerFrame s' = 1088
    /\ (In (sampleRate s') advertisedSampleRates <-> In F64_22050 advertisedSampleRates)
    /\ SurgeAudioDriver_GetPropertyData libm_nan kObjectID_Device
         (address_of kAudioDevicePropertyNominalSampleRate) None sizeof_Float64 s'
       = stored (PD_Float64 F64_22050) sizeof_Float64.
Proof.
  apply (C5_SetPropertyData_rate_unvalidated libm_nan timebase_arm64 sizeof_Float64
           F64_22050 gDriverState_loaded 1088).
  vm_compute. reflexivity.
Defined.

(** ** Property getters *)

(** The Surge getter never looks at the capacity of the caller's buffer. *)
Lemma GetPropertyData_ignores_inDataSize libm objectID address qualifier sz sz' s :
  SurgeAudioDriver_GetPropertyData libm objectID address qualifier sz s
  = SurgeAudioDriver_GetPropertyData libm objectID address qualifier sz' s.
Proof. reflexivity. Qed.

(** C6: with a four-byte buffer for the eight-byte nominal sample rate,
    the Surge getter stores the eight bytes and reports success, and the
    variant's device getter reports success (storing the size only); with
    the same buffer the variant's plug-in getter does what the
    specification asks. *)
Theorem C6_GetPropertyData_small_buffer :
  (forall libm qualifier s,
     SurgeAudioDriver_GetPropertyData libm kObjectID_Device
       (address_of kAudioDevicePropertyNominalSampleRate) qualifier 4 s
     = stored (PD_Float64 (sampleRate s)) 8)
  /\ PropertyData_bytes (PD_Float64 (sampleRate gDriverState_loaded)) = 8
  /\ AudioDriver.AudioDriver_GetPropertyData g_driver_state_initialized 100
       (Some (address_of kAudioDevicePropertyNominalSampleRate)) 4 (Some 4) true
     = Some {| get_status := noErr; get_outDataSize := Some 8; get_outData := None |}
  /\ AudioDriver.AudioDriver_GetPropertyData g_driver_state_initialized
       kAudioObjectPlugInObject
       (Some (address_of kAudioObjectPropertyName)) 4 (Some 4) true
     = Some (failed kAudioHardwareBadPropertySizeError).
Proof. repeat split. Qed.

(** Every advertised property has a size; it has data except for the
    pairs of [GetPropertyData_misses]. *)
Lemma HasProperty_size_and_data libm objectID address qualifier sz s :
  SurgeAudioDriver_HasProperty objectID address = true ->
  fst (SurgeAudioDriver_GetPropertyDataSize objectID address) = kAudioHardwareNoError
  /\ is_Some (snd (SurgeAudioDriver_GetPropertyDataSize objectID address))
  /\ get_status (SurgeAudioDriver_GetPropertyData libm objectID address qualifier sz s)
     = (if GetPropertyData_misses objectID (mSelector address)
        then kAudioHardwareUnknownPropertyError
        else kAudioHardwareNoError).
Proof.
  unfold SurgeAudioDriver_HasProperty, SurgeAudioDriver_GetPropertyDataSize,
    SurgeAudioDriver_GetPropertyData, GetPropertyData_misses, is_volume_control.
  destruct address as [sel scope element]. cbn [mSelector mScope].
  destruct (objectID =? kObjectID_PlugIn) eqn:E1.
  { apply Z.eqb_eq in E1. subst objectID.
    destruct sel; intros H; try discriminate H; cbn; eauto.
    destruct qualifier as [q|]; [destruct (String.eqb q kDevice_UID)|]; cbn; eauto. }
  destruct (objectID =? kObjectID_Device) eqn:E2.
  { destruct sel; intros H; try discriminate H; cbn; eauto;
      destruct scope; cbn; eauto. }
  destruct ((objectID =? kObjectID_Stream_Input) || (objectID =? kObjectID_Stream_Output))
    eqn:E3.
  { assert ((objectID =? kObjectID_Volume_Input_Master) = false
            /\ (objectID =? kObjectID_Volume_Output_Master) = false) as [E5 E6].
    { apply orb_true_iff in E3. rewrite !Z.eqb_eq in E3. rewrite !Z.eqb_neq.
      unfold kObjectID_Stream_Input, kObjectID_Stream_Output,
        kObjectID_Volume_Input_Master, kObjectID_Volume_Output_Master in *. lia. }
    rewrite E5, E6.
    destruct sel; intros H; try discriminate H; cbn; eauto;
      destruct (objectID =? kObjectID_Stream_Input); cbn; eauto;
      destruct (inputStreamIsActive s), (outputStreamIsActive s); cbn; eauto. }
  destruct ((objectID =? kObjectID_Volume_Input_Master)
            || (objectID =? kObjectID_Volume_Output_Master)) eqn:E4.
  { destruct sel; intros H; try discriminate H; cbn; eauto. }
  intros H; discriminate H.
Qed.

(** C7: the device icon and the two conversion selectors of the volume
    controls are advertised and have a size, and [GetPropertyData]
    answers them with the unknown-property error. *)
Theorem C7_advertised_without_data :
  forall libm scope element qualifier sz s,
    advertised_sized_unanswered libm kObjectID_Device
      {| mSelector := kAudioDevicePropertyIcon; mScope := scope; mElement := element |}
      sizeof_CFURLRef qualifier sz s
    /\ advertised_sized_unanswered libm kObjectID_Volume_Input_Master
         {| mSelector := kAudioLevelControlPropertyConvertScalarToDecibels;
            mScope := scope; mElement := element |}
         sizeof_Float32 qualifier sz s
    /\ advertised_sized_unanswered libm kObjectID_Volume_Input_Master
         {| mSelector := kAudioLevelControlPropertyConvertDecibelsToScalar;
            mScope := scope; mElement := element |}
         sizeof_Float32 qualifier sz s
    /\ advertised_sized_unanswered libm kObjectID_Volume_Output_Master
         {| mSelector := kAudioLevelControlPropertyConvertScalarToDecibels;
            mScope := scope; mElement := element |}
         sizeof_Float32 qualifier sz s
    /\ advertised_sized_unanswered libm kObjectID_Volume_Output_Master
         {| mSelector := kAudioLevelControlPropertyConvertDecibelsToScalar;
            mScope := scope; mElement := element |}
         sizeof_Float32 qualifier sz s.
Proof. intros. repeat split. Qed.

(** ** Operation capability *)

Lemma SurgeAudioDriver_WillDoIOOperation_exact operationID :
  SurgeAudioDriver_WillDoIOOperation operationID
  = (kAudioHardwareNoError,
     match operationID with
     | kAudioServerPlugInIOOperationReadInput
     | kAudioServerPlugInIOOperationWriteMix => true
     | _ => false
     end,
     true).
Proof. now destruct operationID. Qed.

(** C8: the Surge driver answers as the specification says; the variant
    answers [willDo = true] for every operation, for instance for
    process-output. *)
Theorem C8_WillDoIOOperation_variant_accepts_all :
  (forall operationID,
     SurgeAudioDriver_WillDoIOOperation operationID
     = (kAudioHardwareNoError,
        match operationID with
        | kAudioServerPlugInIOOperationReadInput
        | kAudioServerPlugInIOOperationWriteMix => true
        | _ => false
        end,
        true))
  /\ (forall in_operation_id,
        AudioDriver.WillDoIOOperation in_operation_id true true = (0, Some true, Some true))
  /\ AudioDriver.WillDoIOOperation kAudioServerPlugInIOOperationProcessOutput true true
     = (0, Some true, Some true).
Proof.
  split; [|split].
  - apply SurgeAudioDriver_WillDoIOOperation_exact.
  - reflexivity.
  - reflexivity.
Qed.

(** ** Volume scalars *)

Lemma SetPropertyData_volume libm timebase c s :
  is_volume_set c ->
  exists s',
    SurgeAudioDriver_SetPropertyData libm timebase (set_objectID c) (set_address c)
      (set_inDataSize c) (set_inData c) s = Some
        (match requested_volume libm c with
         | Some _ => kAudioHardwareNoError
         | None => kAudioHardwareUnknownPropertyError
         end, s')
    /\ s' = match requested_volume libm c with
            | Some v =>
                if set_objectID c =? kObjectID_Volume_Input_Master
                then set_inputVolume v s else set_outputVolume v s
            | None => s
            end.
Proof.
  destruct c as [objectID [sel scope element] sz inData].
  unfold is_volume_set, requested_volume, is_volume_control, SurgeAudioDriver_SetPropertyData.
  cbn [set_objectID set_address set_inDataSize set_inData mSelector].
  intros [Hvol [v ->]]. rewrite Hvol.
  apply orb_true_iff in Hvol. rewrite !Z.eqb_eq in Hvol.
  destruct Hvol as [-> | ->]; destruct sel; cbn; eauto.
Qed.

Lemma SetPropertyData_volumes_unit libm timebase c s st s' :
  SurgeAudioDriver_SetPropertyData libm timebase (set_objectID c) (set_address c)
    (set_inDataSize c) (set_inData c) s = Some (st, s') ->
  requests_unit_volume libm c ->
  F32_in_unit (inputVolume s) = true -> F32_in_unit (outputVolume s) = true ->
  F32_in_unit (inputVolume s') = true /\ F32_in_unit (outputVolume s') = true.
Proof.
  destruct c as [objectID [sel scope element] sz inData].
  unfold requests_unit_volume, requested_volume, is_volume_control,
    SurgeAudioDriver_SetPropertyData.
  cbn [set_objectID set_address set_inDataSize set_inData mSelector].
  intros Hset Hreq Hin Hout.
  destruct (objectID =? kObjectID_Device) eqn:E2.
  { apply Z.eqb_eq in E2. subst objectID.
    destruct sel; cbn in Hset; try (injection Hset as <- <-; now split).
    destruct inData; cbn in Hset; try discriminate Hset.
    destruct (ticksPerFrame_of timebase x); cbn in Hset; try discriminate Hset.
    injection Hset as <- <-. now split. }
  destruct (objectID =? kObjectID_Stream_Input) eqn:E3.
  { destruct sel; cbn in Hset; try (injection Hset as <- <-; now split).
    destruct inData; cbn in Hset; try discriminate Hset.
    injection Hset as <- <-. now split. }
  destruct (objectID =? kObjectID_Stream_Output) eqn:E4.
  { destruct sel; cbn in Hset; try (injection Hset as <- <-; now split).
    destruct inData; cbn in Hset; try discriminate Hset.
    injection Hset as <- <-. now split. }
  destruct (objectID =? kObjectID_Volume_Input_Master) eqn:E5.
  { cbn [orb] in Hreq.
    destruct sel; cbn in Hset; try (injection Hset as <- <-; now split);
      destruct inData; cbn in Hset; try discriminate Hset;
      injection Hset as <- <-; now split. }
  destruct (objectID =? kObjectID_Volume_Output_Master) eqn:E6.
  { cbn [orb] in Hreq.
    destruct sel; cbn in Hset; try (injection Hset as <- <-; now split);
      destruct inData; cbn in Hset; try discriminate Hset;
      injection Hset as <- <-; now split. }
  injection Hset as <- <-. now split.
Qed.

(** C9, as the specification states it, fails: the scalar 2.0 set on the
    input volume control is stored as supplied. *)
Lemma C9_counterexample :
  (fun s => (inputVolume s, F32_in_unit (inputVolume s))) <$>
    run_SetCalls libm_nan timebase_arm64
      [ {| set_objectID := kObjectID_Volume_Input_Master;
           set_address := address_of kAudioLevelControlPropertyScalarValue;
           set_inDataSize := sizeof_Float32;
           set_inData := PD_Float32 F32_2 |} ]
      gDriverState_loaded
  = Some (F32_2, false).
Proof. vm_compute. reflexivity. Qed.

(** C9, amended: [SetPropertyData] stores a scalar value as supplied and
    stores [powf(10, dB / 20)] for a decibel value, without clamping, on
    either volume control and in every state. After a sequence of
    property-set operations the stored input and output volume scalars lie
    in [0,1] provided they did before and every volume the sequence asks
    to store lies in [0,1]; and a sequence of sets on the volume controls
    always completes. *)
Theorem C9_volumes_stay_in_unit_when_requested_in_unit
    (libm : Libm) (timebase : mach_timebase_info_data_t)
    (cs : list SetCall) (s : SurgeAudioDriverState) :
  Forall (requests_unit_volume libm) cs ->
  F32_in_unit (inputVolume s) = true -> F32_in_unit (outputVolume s) = true ->
  (forall s', run_SetCalls libm timebase cs s = Some s' ->
     F32_in_unit (inputVolume s') = true /\ F32_in_unit (outputVolume s') = true)
  /\ (Forall is_volume_set cs -> is_Some (run_SetCalls libm timebase cs s))
  /\ (forall objectID address inDataSize v s0,
        is_volume_control objectID = true ->
        mSelector address = kAudioLevelControlPropertyScalarValue ->
        SurgeAudioDriver_SetPropertyData libm timebase objectID address inDataSize
          (PD_Float32 v) s0
        = Some (kAudioHardwareNoError,
                if objectID =? kObjectID_Volume_Input_Master
                then set_inputVolume v s0 else set_outputVolume v s0))
  /\ (forall objectID address inDataSize dB s0,
        is_volume_control objectID = true ->
        mSelector address = kAudioLevelControlPropertyDecibelValue ->
        SurgeAudioDriver_SetPropertyData libm timebase objectID address inDataSize
          (PD_Float32 dB) s0
        = Some (kAudioHardwareNoError,
                if objectID =? kObjectID_Volume_Input_Master
                then set_inputVolume (powf libm F32_10 (F32.div dB F32_20)) s0
                else set_outputVolume (powf libm F32_10 (F32.div dB F32_20)) s0)).
Proof.
  intros Hreq Hin Hout.
  assert (Hinv :
    (forall s', run_SetCalls libm timebase cs s = Some s' ->
       F32_in_unit (inputVolume s') = true /\ F32_in_unit (outputVolume s') = true)
    /\ (Forall is_volume_set cs -> is_Some (run_SetCalls libm timebase cs s))).
  { revert s Hin Hout. induction Hreq as [|c cs Hc Hcs IH]; intros s Hin Hout.
    - split; [|intros _; cbn; eauto].
      cbn. intros s' [= <-]. now split.
    - split.
      + cbn [run_SetCalls]. intros s' Hrun.
        destruct (SurgeAudioDriver_SetPropertyData libm timebase (set_objectID c)
                    (set_address c) (set_inDataSize c) (set_inData c) s)
          as [[st s1]|] eqn:Hset; cbn in Hrun; [|discriminate Hrun].
        destruct (SetPropertyData_volumes_unit _ _ _ _ _ _ Hset Hc Hin Hout) as [Hin1 Hout1].
        now apply (IH s1 Hin1 Hout1).
      + intros Hvol. inversion Hvol as [|? ? Hv Hvs]; subst.
        destruct (SetPropertyData_volume libm timebase c s Hv) as [s1 [Hset _]].
        cbn [run_SetCalls]. rewrite Hset. cbn.
        destruct (SetPropertyData_volumes_unit _ _ _ _ _ _ Hset Hc Hin Hout) as [Hin1 Hout1].
        now apply (IH s1 Hin1 Hout1). }
  destruct Hinv as [Hunit Hdone].
  split; [exact Hunit|]. split; [exact Hdone|].
  split.
  - intros objectID [sel sc el] sz v s0 Hvol Hsel. cbn in Hsel. subst sel.
    unfold is_volume_control in Hvol. apply orb_true_iff in Hvol.
    rewrite !Z.eqb_eq in Hvol. destruct Hvol as [-> | ->]; reflexivity.
  - intros objectID [sel sc el] sz dB s0 Hvol Hsel. cbn in Hsel. subst sel.
    unfold is_volume_control in Hvol. apply orb_true_iff in Hvol.
    rewrite !Z.eqb_eq in Hvol. destruct Hvol as [-> | ->]; reflexivity.
Qed.

Lemma C9_volumes_stay_in_unit_when_requested_in_unit_witness :
  (forall s',
     run_SetCalls libm_nan timebase_arm64
       [ {| set_objectID := kObjectID_Volume_Input_Master;
            set_address := address_of kAudioLevelControlPropertyScalarValue;
            set_inDataSize := sizeof_Float32;
            set_inData := PD_Float32 F32_half |} ]
       gDriverState_loaded = Some s' ->
     F32_in_unit (inputVolume s') = true /\ F32_in_unit (outputVolume s') = true)
  /\ (Forall is_volume_set
        [ {| set_objectID := kObjectID_Volume_Input_Master;
            set_address := address_of kAudioLevelControlPropertyScalarValue;
            set_inDataSize := sizeof_Float32;
            set_inData := PD_Float32 F32_half |} ] ->
      is_Some (run_SetCalls libm_nan timebase_arm64
                 [ {| set_objectID := kObjectID_Volume_Input_Master;
            set_address := address_of kAudioLevelControlPropertyScalarValue;
            set_inDataSize := sizeof_Float32;
            set_inData := PD_Float32 F32_half |} ]
                 gDriverState_loaded))
  /\ (forall objectID address inDataSize v s0,
        is_volume_control objectID = true ->
        mSelector address = kAudioLevelControlPropertyScalarValue ->
        SurgeAudioDriver_SetPropertyData libm_nan timebase_arm64 objectID address inDataSize
          (PD_Float32 v) s0
        = Some (kAudioHardwareNoError,
                if objectID =? kObjectID_Volume_Input_Master
                then set_inputVolume v s0 else set_outputVolume v s0))
  /\ (forall objectID address inDataSize dB s0,
        is_volume_control objectID = true ->
        mSelector address = kAudioLevelControlPropertyDecibelValue ->
        SurgeAudioDriver_SetPropertyData libm_nan timebase_arm64 objectID address inDataSize
          (PD_Float32 dB) s0
        = Some (kAudioHardwareNoError,
                if objectID =? kObjectID_Volume_Input_Master
                then set_inputVolume (powf libm_nan F32_10 (F32.div dB F32_20)) s0
                else set_outputVolume (powf libm_nan F32_10 (F32.div dB F32_20)) s0)).
Proof.
  apply (C9_volumes_stay_in_unit_when_requested_in_unit libm_nan timebase_arm64).
  - repeat constructor.
  - reflexivity.
  - reflexivity.
Defined.

(** ** Reference count *)

Lemma UInt32_wrap_range z : 0 <= UInt32_wrap z < UInt32_modulus.
Proof. unfold UInt32_wrap. apply Z.mod_pos_bound. reflexivity. Qed.

Lemma UInt32_wrap_small z : 0 <= z < UInt32_modulus -> UInt32_wrap z = z.
Proof. intros H. unfold UInt32_wrap. now apply Z.mod_small. Qed.

Lemma Release_spec d :
  0 <= gDriverRefCount d < UInt32_modulus ->
  let count' := Z.max 0 (gDriverRefCount d - 1) in
  fst (SurgeAudioDriver_Release d) = count'
  /\ gDriverRefCount (snd (SurgeAudioDriver_Release d)) = count'
  /\ gLibcCalls (snd (SurgeAudioDriver_Release d))
     = gLibcCalls d ++ Release_calls count' (ringBuffer (gDriverState d))
  /\ ringBuffer (gDriverState (snd (SurgeAudioDriver_Release d)))
     = (if count' =? 0 then None else ringBuffer (gDriverState d)).
Proof.
  intros Hc count'. unfold SurgeAudioDriver_Release, Release_calls.
  destruct d as [s c calls]. cbn [gDriverRefCount gDriverState gLibcCalls] in *.
  destruct (0 <? c) eqn:Hpos.
  - apply Z.ltb_lt in Hpos.
    assert (count' = c - 1) as -> by (unfold count'; lia).
    cbn [gDriverRefCount set_gDriverRefCount].
    rewrite UInt32_wrap_small by lia.
    destruct (c - 1 =? 0) eqn:Hz.
    + apply Z.eqb_eq in Hz. unfold CleanupDriverState.
      cbn [gDriverState set_gDriverRefCount].
      destruct (ringBuffer s) as [rb|] eqn:Hrb; cbn; rewrite <- ?app_assoc, ?Hrb; auto.
    + cbn. now rewrite app_nil_r.
  - apply Z.ltb_ge in Hpos.
    assert (c = 0) as -> by lia.
    assert (count' = 0) as -> by (unfold count'; lia).
    cbn [Z.eqb gDriverRefCount]. unfold CleanupDriverState. cbn [gDriverState].
    destruct (ringBuffer s) as [rb|] eqn:Hrb; cbn; rewrite <- ?app_assoc, ?Hrb; auto.
Qed.

Lemma AddRef_times_count_range k d :
  0 <= gDriverRefCount d < UInt32_modulus ->
  0 <= gDriverRefCount (AddRef_times k d) < UInt32_modulus.
Proof.
  revert d. induction k as [|k IH]; intros d Hd; cbn [AddRef_times]; [exact Hd|].
  apply IH. cbn. apply UInt32_wrap_range.
Qed.

(** C10, as the specification states it, fails: after the release that
    takes the count from one to zero, a further release runs
    [CleanupDriverState] again. *)
Lemma C10_counterexample :
  gDriverRefCount (snd (SurgeAudioDriver_Release Driver_loaded)) = 0
  /\ gLibcCalls (snd (SurgeAudioDriver_Release Driver_loaded))
     = [call_free; call_pthread_mutex_destroy]
  /\ gLibcCalls (snd (SurgeAudioDriver_Release (snd (SurgeAudioDriver_Release Driver_loaded))))
     = [call_free; call_pthread_mutex_destroy; call_pthread_mutex_destroy].
Proof. repeat split. Qed.

(** C10, amended: [Release] at count zero returns zero and leaves the
    count at zero, and a [Release] after any number of [AddRef] calls
    never takes the count below zero. Every [Release] that leaves the
    count at zero runs [CleanupDriverState], on the transition to zero
    and on later calls alike; the cleanup frees the ring buffer only when
    the pointer is not null and then nulls it, so the buffer is freed at
    most once. The variant's [Release] has the same count and no
    cleanup. *)
Theorem C10_Release_never_underflows (d : Driver) :
  0 <= gDriverRefCount d < UInt32_modulus ->
  (gDriverRefCount d = 0 ->
     fst (SurgeAudioDriver_Release d) = 0
     /\ gDriverRefCount (snd (SurgeAudioDriver_Release d)) = 0)
  /\ (forall k, 0 <= fst (SurgeAudioDriver_Release (AddRef_times k d))
                /\ 0 <= gDriverRefCount (snd (SurgeAudioDriver_Release (AddRef_times k d))))
  /\ gLibcCalls (snd (SurgeAudioDriver_Release d))
     = gLibcCalls d
       ++ Release_calls (Z.max 0 (gDriverRefCount d - 1)) (ringBuffer (gDriverState d))
  /\ (ringBuffer (gDriverState d) = None ->
      ~ In call_free (Release_calls (Z.max 0 (gDriverRefCount d - 1))
                                    (ringBuffer (gDriverState d))))
  /\ (fst (SurgeAudioDriver_Release d) = 0 ->
      ringBuffer (gDriverState (snd (SurgeAudioDriver_Release d))) = None)
  /\ AudioDriver.Release (gDriverRefCount d)
     = (Z.max 0 (gDriverRefCount d - 1), Z.max 0 (gDriverRefCount d - 1)).
Proof.
  intros Hc. destruct (Release_spec d Hc) as (Hret & Hcount & Hcalls & Hrb).
  split; [|split; [|split; [|split; [|split]]]].
  - intros Hz. rewrite Hret, Hcount, Hz. now split.
  - intros k.
    destruct (Release_spec _ (AddRef_times_count_range k d Hc)) as (Hr & Hn & _).
    rewrite Hr, Hn. lia.
  - exact Hcalls.
  - intros ->. unfold Release_calls.
    destruct (_ =? 0); cbn; intros H; [destruct H as [H|[]]; discriminate H | exact H].
  - intros Hz. rewrite Hrb. rewrite Hret in Hz. now rewrite Hz.
  - unfold AudioDriver.Release. destruct (0 <? gDriverRefCount d) eqn:Hpos.
    + apply Z.ltb_lt in Hpos. rewrite UInt32_wrap_small by lia.
      now replace (Z.max 0 (gDriverRefCount d - 1)) with (gDriverRefCount d - 1) by lia.
    + apply Z.ltb_ge in Hpos.
      now replace (Z.max 0 (gDriverRefCount d - 1)) with (gDriverRefCount d) by lia.
Qed.

Lemma C10_Release_never_underflows_witness :
  fst (SurgeAudioDriver_Release (snd (SurgeAudioDriver_Release Driver_loaded))) = 0
  /\ gDriverRefCount
       (snd (SurgeAudioDriver_Release (snd (SurgeAudioDriver_Release Driver_loaded)))) = 0.
Proof.
  refine (proj1 (C10_Release_never_underflows
                   (snd (SurgeAudioDriver_Release Driver_loaded)) _) _).
  - vm_compute. split; [discriminate | reflexivity].
  - reflexivity.
Defined.

(** ** Ring buffer *)

Lemma set_write_twice p1 rb1 p2 rb2 s :
  set_ringBufferWritePosition p2 (set_ringBuffer rb2
    (set_ringBufferWritePosition p1 (set_ringBuffer rb1 s)))
  = set_ringBufferWritePosition p2 (set_ringBuffer rb2 s).
Proof. reflexivity. Qed.

Lemma set_write_same s rb :
  ringBuffer s = Some rb ->
  set_ringBufferWritePosition (ringBufferWritePosition s) (set_ringBuffer (Some rb) s) = s.
Proof. destruct s; cbn. now intros ->. Qed.

Lemma set_read_twice p1 p2 s :
  set_ringBufferReadPosition p2 (set_ringBufferReadPosition p1 s)
  = set_ringBufferReadPosition p2 s.
Proof. reflexivity. Qed.

Lemma set_read_same s :
  set_ringBufferReadPosition (ringBufferReadPosition s) s = s.
Proof. now destruct s. Qed.

Lemma ring_store_congr xs : forall p q rb,
  p mod kRingBufferSize = q mod kRingBufferSize ->
  ring_store p xs rb = ring_store q xs rb.
Proof.
  induction xs as [|x xs IH]; intros p q rb Hpq; cbn [ring_store]; [reflexivity|].
  rewrite Hpq. apply IH.
  rewrite (Z.add_mod p), (Z.add_mod q), Hpq by (rewrite kRingBufferSize_eq; lia).
  reflexivity.
Qed.

Lemma ring_load_congr count : forall p q rb,
  p mod kRingBufferSize = q mod kRingBufferSize ->
  ring_load p count rb = ring_load q count rb.
Proof.
  induction count as [|count IH]; intros p q rb Hpq; cbn [ring_load]; [reflexivity|].
  rewrite Hpq. f_equal. apply IH.
  rewrite (Z.add_mod p), (Z.add_mod q), Hpq by (rewrite kRingBufferSize_eq; lia).
  reflexivity.
Qed.

Lemma ring_store_length xs : forall p rb, length (ring_store p xs rb) = length rb.
Proof.
  induction xs as [|x xs IH]; intros p rb; cbn [ring_store]; [reflexivity|].
  now rewrite IH, length_insert.
Qed.

Lemma WriteMix_loop_spec count : forall i buffer s rb,
  ringBuffer s = Some rb -> length rb = Z.to_nat kRingBufferSize ->
  0 <= ringBufferWritePosition s < kRingBufferSize ->
  (i + count <= length buffer)%nat ->
  WriteMix_loop count i buffer s
  = Some (set_ringBufferWritePosition
            ((ringBufferWritePosition s + Z.of_nat count) mod kRingBufferSize)
            (set_ringBuffer
               (Some (ring_store (ringBufferWritePosition s)
                        (map (fun x => F32.mul x (outputVolume s))
                             (take count (drop i buffer)))
                        rb))
               s)).
Proof.
  induction count as [|count IH]; intros i buffer s rb Hrb Hlen Hwp Hbuf.
  - cbn [WriteMix_loop take map ring_store]. rewrite Z.add_0_r, Z.mod_small by lia.
    now rewrite set_write_same.
  - cbn [WriteMix_loop]. rewrite Hrb. cbn [mbind option_bind].
    destruct (lookup_lt_is_Some_2 buffer i ltac:(lia)) as [x Hx].
    rewrite Hx. cbn [mbind option_bind].
    destruct (decide _) as [_|Hn]; [|lia].
    cbn [ringBufferWritePosition set_ringBuffer].
    rewrite (UInt32_wrap_small (ringBufferWritePosition s + 1))
      by (rewrite kRingBufferSize_eq in Hwp; unfold UInt32_modulus; lia).
    rewrite (IH (S i) buffer _ (<[Z.to_nat (ringBufferWritePosition s) :=
                                    F32.mul x (outputVolume s)]> rb)); cbn;
      [ | reflexivity | now rewrite length_insert
        | apply Z.mod_pos_bound; rewrite kRingBufferSize_eq; lia | lia ].
    rewrite set_write_twice. f_equal. f_equal; [|f_equal; f_equal].
    + rewrite Z.add_mod_idemp_l by (rewrite kRingBufferSize_eq; lia). f_equal. lia.
    + rewrite (drop_S _ _ _ Hx). cbn [take map ring_store].
      rewrite (Z.mod_small (ringBufferWritePosition s)) by lia.
      apply ring_store_congr. now rewrite Z.mod_mod by (rewrite kRingBufferSize_eq; lia).
Qed.

Lemma ReadInput_loop_spec count : forall i buffer s rb,
  ringBuffer s = Some rb -> length rb = Z.to_nat kRingBufferSize ->
  0 <= ringBufferReadPosition s < kRingBufferSize ->
  (i + count <= length buffer)%nat ->
  ReadInput_loop count i buffer s
  = Some (take i buffer
            ++ map (fun x => F32.mul x (inputVolume s))
                   (ring_load (ringBufferReadPosition s) count rb)
            ++ drop (i + count) buffer,
          set_ringBufferReadPosition
            ((ringBufferReadPosition s + Z.of_nat count) mod kRingBufferSize) s).
Proof.
  induction count as [|count IH]; intros i buffer s rb Hrb Hlen Hrp Hbuf.
  - cbn [ReadInput_loop ring_load map app]. rewrite Z.add_0_r, Z.mod_small by lia.
    rewrite set_read_same, Nat.add_0_r. now rewrite take_drop.
  - cbn [ReadInput_loop]. rewrite Hrb. cbn [mbind option_bind].
    destruct (lookup_lt_is_Some_2 rb (Z.to_nat (ringBufferReadPosition s)) ltac:(lia))
      as [x Hx].
    rewrite Hx. cbn [mbind option_bind].
    destruct (decide _) as [_|Hn]; [|lia].
    rewrite (UInt32_wrap_small (ringBufferReadPosition s + 1))
      by (rewrite kRingBufferSize_eq in Hrp; unfold UInt32_modulus; lia).
    rewrite (IH (S i) _ _ rb); cbn;
      [ | exact Hrb | exact Hlen
        | apply Z.mod_pos_bound; rewrite kRingBufferSize_eq; lia
        | rewrite length_insert; lia ].
    rewrite set_read_twice. f_equal. f_equal.
    + rewrite (take_S_r _ _ (F32.mul x (inputVolume s)))
        by (apply list_lookup_insert_eq; lia).
      rewrite take_insert_ge by lia. rewrite <- app_assoc. f_equal.
      cbn [app]. rewrite (Z.mod_small (ringBufferReadPosition s)) by lia.
      rewrite Hx. cbn [default]. f_equal.
      rewrite drop_insert_lt by lia.
      f_equal; [|f_equal; lia].
      f_equal. apply ring_load_congr.
      now rewrite Z.mod_mod by (rewrite kRingBufferSize_eq; lia).
    + rewrite Z.add_mod_idemp_l by (rewrite kRingBufferSize_eq; lia). do 2 f_equal. lia.
Qed.

Lemma digits2_pos_xO p : Z.pos (digits2_pos p~0) = Z.pos (digits2_pos p) + 1.
Proof. cbn [digits2_pos]. lia. Qed.

Lemma F32_mul_one_r x : F32.valid x -> F32.mul x F32.one = x.
Proof.
  unfold F32.valid, F32.mul, F32.one.
  destruct x as [sx|sx| |sx m e]; cbn [SFmul valid_binary]; intros Hv;
    rewrite ?xorb_false_r; try reflexivity.
  unfold bounded, canonical_mantissa in Hv.
  apply andb_prop in Hv. destruct Hv as [Hc He].
  apply Z.eqb_eq in Hc.
  assert (Hd : Z.pos (digits2_pos (m * 8388608)) = Z.pos (digits2_pos m) + 23).
  { rewrite Pos.mul_comm. cbv [Pos.mul]. rewrite !digits2_pos_xO. lia. }
  assert (Hs : SpecFloat.iter_pos shr_1 23
                 {| shr_m := Z.pos (m * 8388608); shr_r := false; shr_s := false |}
               = {| shr_m := Z.pos m; shr_r := false; shr_s := false |}).
  { rewrite Pos.mul_comm. reflexivity. }
  unfold binary_round_aux, shr_fexp. cbn [Zdigits2]. rewrite Hd.
  replace (Z.pos (digits2_pos m) + 23 + (e + -23)) with (Z.pos (digits2_pos m) + e) by lia.
  rewrite Hc. replace (e - (e + -23)) with 23 by lia.
  cbn [shr shr_record_of_loc]. rewrite Hs.
  cbn [shr_m loc_of_shr_record round_nearest_even Zdigits2 shr_record_of_loc].
  replace (e + -23 + 23) with e by lia.
  rewrite Hc, Z.sub_diag. cbn [shr shr_m].
  now rewrite He.
Qed.

Lemma map_F32_mul_one xs :
  Forall F32.valid xs -> map (fun x => F32.mul x F32.one) xs = xs.
Proof.
  induction 1 as [|x xs Hx _ IH]; cbn [map]; [reflexivity|].
  now rewrite F32_mul_one_r, IH.
Qed.

Lemma ring_store_app xs ys : forall p rb,
  ring_store p (xs ++ ys) rb = ring_store (p + Z.of_nat (length xs)) ys (ring_store p xs rb).
Proof.
  induction xs as [|x xs IH]; intros p rb; cbn [app ring_store length].
  - now rewrite Z.add_0_r.
  - rewrite IH. f_equal. lia.
Qed.

Lemma ring_store_lookup_other xs : forall p rb q,
  (forall j, 0 <= j < Z.of_nat (length xs) -> Z.to_nat ((p + j) mod kRingBufferSize) <> q) ->
  ring_store p xs rb !! q = rb !! q.
Proof.
  induction xs as [|x xs IH]; intros p rb q Hq; cbn [ring_store]; [reflexivity|].
  rewrite IH.
  - apply list_lookup_insert_ne. specialize (Hq 0). rewrite Z.add_0_r in Hq.
    apply Hq. cbn [length]. lia.
  - intros j Hj. replace (p + 1 + j) with (p + (1 + j)) by lia. apply Hq.
    cbn [length]. lia.
Qed.

Lemma ring_store_lookup xs : forall p rb i x,
  length rb = Z.to_nat kRingBufferSize ->
  Z.of_nat (length xs) <= kRingBufferSize ->
  xs !! i = Some x ->
  ring_store p xs rb !! Z.to_nat ((p + Z.of_nat i) mod kRingBufferSize) = Some x.
Proof.
  induction xs as [|y xs IH]; intros p rb i x Hlen Hxs Hi; [discriminate Hi|].
  cbn [ring_store]. cbn [length] in Hxs. destruct i as [|i].
  - injection Hi as ->. rewrite Z.add_0_r. rewrite ring_store_lookup_other.
    + apply list_lookup_insert_eq. rewrite Hlen.
      pose proof (Z.mod_pos_bound p kRingBufferSize). rewrite kRingBufferSize_eq in *. lia.
    + intros j Hj. rewrite kRingBufferSize_eq in *.
      pose proof (Z.mod_pos_bound p 131072). pose proof (Z.mod_pos_bound (p + 1 + j) 131072).
      intros Heq. apply Z2Nat.inj in Heq; [|lia|lia]. Z.div_mod_to_equations. lia.
  - cbn [lookup list_lookup] in Hi.
    replace (p + Z.of_nat (S i)) with (p + 1 + Z.of_nat i) by lia.
    apply IH; [now rewrite length_insert | lia | exact Hi].
Qed.

Lemma ring_load_length count : forall p rb, length (ring_load p count rb) = count.
Proof.
  induction count as [|count IH]; intros p rb; cbn [ring_load length]; [reflexivity|].
  now rewrite IH.
Qed.

Lemma ring_load_lookup count : forall p rb i,
  (i < count)%nat ->
  ring_load p count rb !! i
  = Some (default F32.zero (rb !! Z.to_nat ((p + Z.of_nat i) mod kRingBufferSize))).
Proof.
  induction count as [|count IH]; intros p rb i Hi; [lia|].
  cbn [ring_load]. destruct i as [|i].
  - now rewrite Z.add_0_r.
  - cbn [lookup list_lookup]. rewrite IH by lia. do 5 f_equal. lia.
Qed.

(** Reading back a stretch of what was stored, when the stored samples do
    not lap the ring. *)
Lemma ring_load_store pre ys post p rb :
  length rb = Z.to_nat kRingBufferSize ->
  Z.of_nat (length (pre ++ ys ++ post)) <= kRingBufferSize ->
  ring_load (p + Z.of_nat (length pre)) (length ys) (ring_store p (pre ++ ys ++ post) rb) = ys.
Proof.
  intros Hlen Htot. apply list_eq. intros i.
  destruct (decide (i < length ys)%nat) as [Hi|Hi].
  - rewrite ring_load_lookup by exact Hi.
    destruct (lookup_lt_is_Some_2 ys i Hi) as [y Hy]. rewrite Hy.
    replace (p + Z.of_nat (length pre) + Z.of_nat i)
      with (p + Z.of_nat (length pre + i)) by lia.
    rewrite (ring_store_lookup _ _ _ _ y Hlen Htot); [reflexivity|].
    rewrite lookup_app_r by lia.
    replace (length pre + i - length pre)%nat with i by lia.
    now rewrite lookup_app_l by lia.
  - rewrite !lookup_ge_None_2; [reflexivity | lia | rewrite ring_load_length; lia].
Qed.

Lemma DoIOOperation_WriteMix s rb n buffer :
  ringBuffer s = Some rb -> length rb = Z.to_nat kRingBufferSize ->
  0 <= ringBufferWritePosition s < kRingBufferSize ->
  0 <= n -> n * kChannelsPerFrame < UInt32_modulus ->
  (Z.to_nat (n * kChannelsPerFrame) <= length buffer)%nat ->
  SurgeAudioDriver_DoIOOperation kAudioServerPlugInIOOperationWriteMix n buffer s
  = Some (kAudioHardwareNoError, buffer,
          set_ringBufferWritePosition
            ((ringBufferWritePosition s + n * kChannelsPerFrame) mod kRingBufferSize)
            (set_ringBuffer
               (Some (ring_store (ringBufferWritePosition s)
                        (map (fun x => F32.mul x (outputVolume s))
                             (take (Z.to_nat (n * kChannelsPerFrame)) buffer))
                        rb))
               s)).
Proof.
  intros Hrb Hlen Hwp Hn Hfit Hbuf. unfold SurgeAudioDriver_DoIOOperation.
  assert (0 <= n * kChannelsPerFrame) by (unfold kChannelsPerFrame; lia).
  rewrite UInt32_wrap_small by lia.
  rewrite (WriteMix_loop_spec _ 0 buffer s rb Hrb Hlen Hwp) by lia.
  cbn [mbind option_bind drop]. now rewrite Z2Nat.id by lia.
Qed.

Lemma DoIOOperation_ReadInput s rb n buffer :
  ringBuffer s = Some rb -> length rb = Z.to_nat kRingBufferSize ->
  0 <= ringBufferReadPosition s < kRingBufferSize ->
  0 <= n -> n * kChannelsPerFrame < UInt32_modulus ->
  (Z.to_nat (n * kChannelsPerFrame) <= length buffer)%nat ->
  SurgeAudioDriver_DoIOOperation kAudioServerPlugInIOOperationReadInput n buffer s
  = Some (kAudioHardwareNoError,
          map (fun x => F32.mul x (inputVolume s))
              (ring_load (ringBufferReadPosition s) (Z.to_nat (n * kChannelsPerFrame)) rb)
            ++ drop (Z.to_nat (n * kChannelsPerFrame)) buffer,
          set_ringBufferReadPosition
            ((ringBufferReadPosition s + n * kChannelsPerFrame) mod kRingBufferSize) s).
Proof.
  intros Hrb Hlen Hrp Hn Hfit Hbuf. unfold SurgeAudioDriver_DoIOOperation.
  assert (0 <= n * kChannelsPerFrame) by (unfold kChannelsPerFrame; lia).
  rewrite UInt32_wrap_small by lia.
  rewrite (ReadInput_loop_spec _ 0 buffer s rb Hrb Hlen Hrp) by lia.
  cbn [mbind option_bind take app Nat.add]. now rewrite Z2Nat.id by lia.
Qed.

Lemma write_all_scaled K bufs : forall s rb,
  ringBuffer s = Some rb -> length rb = Z.to_nat kRingBufferSize ->
  0 <= ringBufferWritePosition s < kRingBufferSize ->
  0 <= K -> K * kChannelsPerFrame < UInt32_modulus ->
  Forall (fun b => length b = Z.to_nat (K * kChannelsPerFrame)) bufs ->
  write_all K bufs s
  = Some (set_ringBufferWritePosition
            ((ringBufferWritePosition s + Z.of_nat (length (concat bufs)))
               mod kRingBufferSize)
            (set_ringBuffer
               (Some (ring_store (ringBufferWritePosition s)
                        (concat (map (map (fun x => F32.mul x (outputVolume s))) bufs))
                        rb)) s)).
Proof.
  induction bufs as [|b bufs IH]; intros s rb Hrb Hlen Hwp HK Hfit Hbufs.
  - cbn [write_all concat length ring_store map]. rewrite Z.add_0_r, Z.mod_small by lia.
    now rewrite set_write_same.
  - inversion Hbufs as [|? ? Hb Hrest]; subst.
    cbn [write_all]. rewrite (DoIOOperation_WriteMix s rb K b Hrb Hlen Hwp HK Hfit) by lia.
    cbn [mbind option_bind].
    rewrite <- Hb, firstn_all.
    rewrite (IH _ (ring_store (ringBufferWritePosition s)
                     (map (fun x => F32.mul x (outputVolume s)) b) rb)); cbn;
      [ | reflexivity | now rewrite ring_store_length
        | apply Z.mod_pos_bound; rewrite kRingBufferSize_eq; lia
        | exact HK | exact Hfit | exact Hrest ].
    rewrite set_write_twice. f_equal. f_equal; [|f_equal; f_equal].
    + rewrite Z.add_mod_idemp_l by (rewrite kRingBufferSize_eq; lia).
      rewrite length_app. f_equal. change kChannelsPerFrame with 2 in *. lia.
    + rewrite ring_store_app. apply ring_store_congr.
      rewrite Z.mod_mod by (rewrite kRingBufferSize_eq; lia). f_equal.
      rewrite length_map. change kChannelsPerFrame with 2 in *. lia.
Qed.

Lemma read_all_scaled K stored : forall hosts s rb0 p pre post,
  ringBuffer s = Some (ring_store p (pre ++ concat stored ++ post) rb0) ->
  length rb0 = Z.to_nat kRingBufferSize ->
  ringBufferReadPosition s = (p + Z.of_nat (length pre)) mod kRingBufferSize ->
  Z.of_nat (length (pre ++ concat stored ++ post)) <= kRingBufferSize ->
  0 <= K -> K * kChannelsPerFrame < UInt32_modulus ->
  Forall (fun b => length b = Z.to_nat (K * kChannelsPerFrame)) stored ->
  Forall (fun h => length h = Z.to_nat (K * kChannelsPerFrame)) hosts ->
  length hosts = length stored ->
  read_all K hosts s
  = Some (map (map (fun x => F32.mul x (inputVolume s))) stored,
          set_ringBufferReadPosition
            ((p + Z.of_nat (length pre) + Z.of_nat (length (concat stored)))
               mod kRingBufferSize) s).
Proof.
  induction stored as [|b stored IH];
    intros hosts s rb0 p pre post Hrb Hlen Hrp Htot HK Hfit Hbufs Hhosts Hsame.
  - destruct hosts; [|discriminate Hsame].
    cbn [read_all concat length map]. rewrite Z.add_0_r, <- Hrp. now rewrite set_read_same.
  - destruct hosts as [|h hosts]; [discriminate Hsame|].
    inversion Hbufs as [|? ? Hb Hrest]; subst.
    inversion Hhosts as [|? ? Hh Hhrest]; subst.
    cbn [read_all concat] in *.
    rewrite <- (app_assoc b) in Hrb, Htot.
    assert (Hpos : 0 <= ringBufferReadPosition s < kRingBufferSize).
    { rewrite Hrp. apply Z.mod_pos_bound. rewrite kRingBufferSize_eq. lia. }
    rewrite (DoIOOperation_ReadInput s _ K h Hrb) by
      (try rewrite ring_store_length; auto; lia).
    cbn [mbind option_bind].
    rewrite (IH hosts _ rb0 p (pre ++ b) post); cbn;
      [ | rewrite <- app_assoc; exact Hrb | exact Hlen
        | rewrite Hrp, Z.add_mod_idemp_l by (rewrite kRingBufferSize_eq; lia);
          rewrite length_app; f_equal; change kChannelsPerFrame with 2 in *; lia
        | rewrite <- !app_assoc; exact Htot
        | exact HK | exact Hfit | exact Hrest | exact Hhrest
        | now injection Hsame ].
    rewrite set_read_twice. f_equal. f_equal.
    + f_equal. rewrite <- Hh at 2. rewrite drop_all, app_nil_r.
      rewrite <- Hb, Hrp.
      rewrite (ring_load_congr _ _ (p + Z.of_nat (length pre)))
        by (now rewrite Z.mod_mod by (rewrite kRingBufferSize_eq; lia)).
      now rewrite (ring_load_store pre b (concat stored ++ post) p rb0 Hlen Htot).
    + rewrite !length_app. do 2 f_equal. change kChannelsPerFrame with 2 in *. lia.
Qed.

Lemma map_map_F32_mul_one bufs :
  Forall (Forall F32.valid) bufs ->
  map (map (fun x => F32.mul (F32.mul x F32.one) F32.one)) bufs = bufs.
Proof.
  induction 1 as [|b bufs Hb _ IH]; [reflexivity|].
  cbn [map]. rewrite IH. f_equal.
  induction Hb as [|x b Hx _ IHb]; [reflexivity|].
  cbn [map]. rewrite IHb, (F32_mul_one_r x Hx), (F32_mul_one_r x Hx). reflexivity.
Qed.

(** C2: a write-mix call of [n] frames multiplies each of the
    [n * channels] floats of the host buffer by the output volume and
    stores them in the ring buffer from the write position on, which
    advances by [n * channels] modulo the capacity; a read-input call
    multiplies the [n * channels] floats of the ring buffer from the read
    position on by the input volume, stores them in the host buffer, and
    advances the read position likewise. Nothing else changes. *)
Theorem C2_DoIOOperation_moves_scaled_samples
    (s : SurgeAudioDriverState) (rb : list Float32) (n : Z) (buffer : list Float32) :
  ringBuffer s = Some rb -> length rb = Z.to_nat kRingBufferSize ->
  0 <= ringBufferWritePosition s < kRingBufferSize ->
  0 <= ringBufferReadPosition s < kRingBufferSize ->
  0 <= n -> n * kChannelsPerFrame < UInt32_modulus ->
  (Z.to_nat (n * kChannelsPerFrame) <= length buffer)%nat ->
  SurgeAudioDriver_DoIOOperation kAudioServerPlugInIOOperationWriteMix n buffer s
  = Some (kAudioHardwareNoError, buffer,
          set_ringBufferWritePosition
            ((ringBufferWritePosition s + n * kChannelsPerFrame) mod kRingBufferSize)
            (set_ringBuffer
               (Some (ring_store (ringBufferWritePosition s)
                        (map (fun x => F32.mul x (outputVolume s))
                             (take (Z.to_nat (n * kChannelsPerFrame)) buffer))
                        rb))
               s))
  /\ SurgeAudioDriver_DoIOOperation kAudioServerPlugInIOOperationReadInput n buffer s
     = Some (kAudioHardwareNoError,
             map (fun x => F32.mul x (inputVolume s))
                 (ring_load (ringBufferReadPosition s) (Z.to_nat (n * kChannelsPerFrame)) rb)
               ++ drop (Z.to_nat (n * kChannelsPerFrame)) buffer,
             set_ringBufferReadPosition
               ((ringBufferReadPosition s + n * kChannelsPerFrame) mod kRingBufferSize) s)
  /\ (forall i x,
        n * kChannelsPerFrame <= kRingBufferSize ->
        take (Z.to_nat (n * kChannelsPerFrame)) buffer !! i = Some x ->
        ring_store (ringBufferWritePosition s)
          (map (fun x => F32.mul x (outputVolume s))
               (take (Z.to_nat (n * kChannelsPerFrame)) buffer)) rb
        !! Z.to_nat ((ringBufferWritePosition s + Z.of_nat i) mod kRingBufferSize)
        = Some (F32.mul x (outputVolume s)))
  /\ (forall i,
        (i < Z.to_nat (n * kChannelsPerFrame))%nat ->
        exists x,
          rb !! Z.to_nat ((ringBufferReadPosition s + Z.of_nat i) mod kRingBufferSize)
          = Some x
          /\ ring_load (ringBufferReadPosition s) (Z.to_nat (n * kChannelsPerFrame)) rb !! i
             = Some x).
Proof.
  intros Hrb Hlen Hwp Hrp Hn Hfit Hbuf. split; [|split; [|split]].
  - now apply DoIOOperation_WriteMix.
  - now apply DoIOOperation_ReadInput.
  - intros i x Hcap Hi. apply ring_store_lookup; [exact Hlen | |].
    + rewrite length_map, length_take. lia.
    + now rewrite list_lookup_fmap, Hi.
  - intros i Hi.
    destruct (lookup_lt_is_Some_2 rb
                (Z.to_nat ((ringBufferReadPosition s + Z.of_nat i) mod kRingBufferSize)))
      as [x Hx].
    { rewrite Hlen.
      pose proof (Z.mod_pos_bound (ringBufferReadPosition s + Z.of_nat i) kRingBufferSize).
      rewrite kRingBufferSize_eq in *. lia. }
    exists x. split; [exact Hx|]. rewrite ring_load_lookup by exact Hi. now rewrite Hx.
Qed.

Lemma C2_DoIOOperation_moves_scaled_samples_witness :
  SurgeAudioDriver_DoIOOperation kAudioServerPlugInIOOperationWriteMix 1
    [F32_half; F32_half] gDriverState_loaded
  = Some (kAudioHardwareNoError, [F32_half; F32_half],
          set_ringBufferWritePosition 2
            (set_ringBuffer
               (Some (ring_store 0 [F32_half; F32_half]
                        (replicate (Z.to_nat kRingBufferSize) F32.zero)))
               gDriverState_loaded)).
Proof.
  refine (proj1 (C2_DoIOOperation_moves_scaled_samples gDriverState_loaded
                   (replicate (Z.to_nat kRingBufferSize) F32.zero) 1
                   [F32_half; F32_half] _ _ _ _ _ _ _)).
  - reflexivity.
  - apply length_replicate.
  - vm_compute. split; [discriminate | reflexivity].
  - vm_compute. split; [discriminate | reflexivity].
  - discriminate.
  - reflexivity.
  - vm_compute. lia.
Defined.

(** The loopback scenario of the specification, with four frames per
    call: what is written at volume 1.0 is read back unchanged, and read
    back halved once the input volume is 0.5. *)
Example loopback_scenario :
  (s1 ← snd <$> SurgeAudioDriver_StartIO 1000 gDriverState_loaded;
   '(_, _, s2) ← SurgeAudioDriver_DoIOOperation kAudioServerPlugInIOOperationWriteMix 4
                   (replicate 8 F32_half) s1;
   '(_, out1, s3) ← SurgeAudioDriver_DoIOOperation kAudioServerPlugInIOOperationReadInput 4
                      (replicate 8 F32.zero) s2;
   '(_, s4) ← SurgeAudioDriver_SetPropertyData libm_nan timebase_arm64
                kObjectID_Volume_Input_Master
                (address_of kAudioLevelControlPropertyScalarValue)
                sizeof_Float32 (PD_Float32 F32_half) s3;
   '(_, _, s5) ← SurgeAudioDriver_DoIOOperation kAudioServerPlugInIOOperationWriteMix 4
                   (replicate 8 F32_half) s4;
   '(_, out2, _) ← SurgeAudioDriver_DoIOOperation kAudioServerPlugInIOOperationReadInput 4
                     (replicate 8 F32.zero) s5;
   Some (out1, out2))
  = Some (replicate 8 F32_half, replicate 8 F32_quarter).
Proof. vm_compute. reflexivity. Qed.

(** C1, as the specification states it, fails: after one write and one
    read of one frame the two indices are 2, not [1 * 1 mod capacity]. *)
Lemma C1_counterexample :
  (fun r => (ringBufferWritePosition (snd r), ringBufferReadPosition (snd r))) <$>
    (write_all 1 [[F32_half; F32_half]] gDriverState_loaded
       ≫= read_all 1 [[F32.zero; F32.zero]])
  = Some (2, 2)
  /\ (1 * 1) mod kRingBufferSize = 1.
Proof. split; vm_compute; reflexivity. Qed.

(** C1, amended: the indices count samples, not frames. Starting with
    write and read positions equal to [p] and with [N * K * channels] not
    above the capacity, [N] write-mix calls of [K] frames followed by [N]
    read-input calls of [K] frames leave both indices at
    [(p + N * K * channels) mod capacity], whatever the two volumes are.
    Each sample the reads return is the sample the writes supplied,
    multiplied by the output volume and then by the input volume; with
    both volumes 1.0 the buffers the reads return are the buffers the
    writes supplied. *)
Theorem C1_ring_roundtrip
    (s : SurgeAudioDriverState) (rb : list Float32) (K : Z)
    (bufs hosts : list (list Float32)) :
  ringBuffer s = Some rb -> length rb = Z.to_nat kRingBufferSize ->
  ringBufferWritePosition s = ringBufferReadPosition s ->
  0 <= ringBufferReadPosition s < kRingBufferSize ->
  0 <= K ->
  Z.of_nat (length bufs) * K * kChannelsPerFrame <= kRingBufferSize ->
  Forall (fun b => length b = Z.to_nat (K * kChannelsPerFrame)) bufs ->
  Forall (fun h => length h = Z.to_nat (K * kChannelsPerFrame)) hosts ->
  length hosts = length bufs ->
  exists s1 s2 outs,
    write_all K bufs s = Some s1
    /\ read_all K hosts s1 = Some (outs, s2)
    /\ ringBufferWritePosition s2
       = (ringBufferWritePosition s + Z.of_nat (length bufs) * K * kChannelsPerFrame)
           mod kRingBufferSize
    /\ ringBufferReadPosition s2
       = (ringBufferReadPosition s + Z.of_nat (length bufs) * K * kChannelsPerFrame)
           mod kRingBufferSize
    /\ outs = map (map (fun x => F32.mul (F32.mul x (outputVolume s)) (inputVolume s))) bufs
    /\ (outputVolume s = F32.one -> inputVolume s = F32.one ->
        Forall (Forall F32.valid) bufs -> outs = bufs).
Proof.
  intros Hrb Hlen Heq Hrp HK Htot Hbufs Hhosts Hsame.
  destruct bufs as [|b0 bufs0] eqn:Hshape.
  { destruct hosts; [|discriminate Hsame].
    exists s, s, []. cbn. rewrite !Z.add_0_r, !Z.mod_small by lia. auto 10. }
  rewrite <- Hshape in *.
  assert (Hfit : K * kChannelsPerFrame < UInt32_modulus).
  { rewrite Hshape in Htot. cbn [length] in Htot.
    rewrite kRingBufferSize_eq in Htot. unfold UInt32_modulus.
    change kChannelsPerFrame with 2 in *. nia. }
  assert (Hcat : Z.of_nat (length (concat bufs))
                 = Z.of_nat (length bufs) * K * kChannelsPerFrame).
  { clear -Hbufs HK. induction Hbufs as [|b bufs Hb _ IH]; [reflexivity|].
    cbn [concat length]. rewrite length_app, Nat2Z.inj_add, IH, Hb.
    change kChannelsPerFrame with 2 in *. lia. }
  set (stored := map (map (fun x => F32.mul x (outputVolume s))) bufs).
  assert (Hstored : Forall (fun b => length b = Z.to_nat (K * kChannelsPerFrame)) stored).
  { unfold stored. apply Forall_fmap. eapply Forall_impl; [exact Hbufs|].
    intros b Hb. cbn. now rewrite length_map. }
  assert (Hscat : length (concat stored) = length (concat bufs)).
  { unfold stored. clear. induction bufs as [|b bufs IH]; [reflexivity|].
    cbn [map concat]. rewrite !length_app, length_map, IH. reflexivity. }
  rewrite Heq in *.
  pose proof (write_all_scaled K bufs s rb Hrb Hlen ltac:(lia) HK Hfit Hbufs) as Hw.
  rewrite Heq in Hw. fold stored in Hw.
  eexists. eexists. eexists. split; [exact Hw|]. split.
  - apply (read_all_scaled K stored hosts _ rb (ringBufferReadPosition s) [] []);
      cbn [ringBuffer ringBufferReadPosition set_ringBufferWritePosition
           set_ringBuffer app length]; auto.
    + now rewrite app_nil_r.
    + rewrite Z.add_0_r, Z.mod_small by lia. reflexivity.
    + rewrite app_nil_r, Hscat. lia.
    + unfold stored. now rewrite !length_map.
  - cbn [ringBufferWritePosition ringBufferReadPosition set_ringBufferReadPosition
         set_ringBufferWritePosition set_ringBuffer inputVolume length].
    rewrite Z.add_0_r, Hscat, Hcat.
    split; [reflexivity|]. split; [reflexivity|].
    assert (Hout : map (map (fun x => F32.mul x (inputVolume s))) stored
                   = map (map (fun x => F32.mul (F32.mul x (outputVolume s)) (inputVolume s)))
                       bufs).
    { unfold stored. rewrite map_map. apply map_ext. intros b. now rewrite map_map. }
    split; [exact Hout|].
    intros Hvo Hvi Hvalid. rewrite Hout, Hvo, Hvi. now apply map_map_F32_mul_one.
Qed.

Lemma C1_ring_roundtrip_witness :
  exists s1 s2 outs,
    write_all 1 [[F32_half; F32_half]] gDriverState_loaded = Some s1
    /\ read_all 1 [[F32.zero; F32.zero]] s1 = Some (outs, s2)
    /\ ringBufferWritePosition s2
       = (ringBufferWritePosition gDriverState_loaded
          + Z.of_nat (length [[F32_half; F32_half]]) * 1 * kChannelsPerFrame)
           mod kRingBufferSize
    /\ ringBufferReadPosition s2
       = (ringBufferReadPosition gDriverState_loaded
          + Z.of_nat (length [[F32_half; F32_half]]) * 1 * kChannelsPerFrame)
           mod kRingBufferSize
    /\ outs = map (map (fun x => F32.mul (F32.mul x (outputVolume gDriverState_loaded))
                                         (inputVolume gDriverState_loaded)))
                 [[F32_half; F32_half]]
    /\ (outputVolume gDriverState_loaded = F32.one ->
        inputVolume gDriverState_loaded = F32.one ->
        Forall (Forall F32.valid) [[F32_half; F32_half]] ->
        outs = [[F32_half; F32_half]]).
Proof.
  apply (C1_ring_roundtrip gDriverState_loaded
           (replicate (Z.to_nat kRingBufferSize) F32.zero) 1).
  - reflexivity.
  - apply length_replicate.
  - reflexivity.
  - vm_compute. split; [discriminate | reflexivity].
  - discriminate.
  - discriminate.
  - repeat constructor.
  - repeat constructor.
  - reflexivity.
Defined.

(** ** Float64 arithmetic on integers below 2^53 *)

Lemma digits2_pos_bounds p :
  2 ^ (Z.pos (digits2_pos p) - 1) <= Z.pos p < 2 ^ Z.pos (digits2_pos p).
Proof.
  induction p as [p IH|p IH|]; cbn [digits2_pos]; [| |cbn; lia].
  - rewrite Pos2Z.inj_succ. replace (Z.succ (Z.pos (digits2_pos p)) - 1)
      with (Z.succ (Z.pos (digits2_pos p) - 1)) by lia.
    rewrite !Z.pow_succ_r by lia. lia.
  - rewrite Pos2Z.inj_succ. replace (Z.succ (Z.pos (digits2_pos p)) - 1)
      with (Z.succ (Z.pos (digits2_pos p) - 1)) by lia.
    rewrite !Z.pow_succ_r by lia. lia.
Qed.

Lemma digits2_pos_unique p d :
  2 ^ (d - 1) <= Z.pos p < 2 ^ d -> Z.pos (digits2_pos p) = d.
Proof.
  intros [Hlo Hhi]. pose proof (digits2_pos_bounds p) as [Blo Bhi].
  assert (0 < d).
  { destruct (Z_lt_le_dec 0 d) as [|Hd]; [assumption|].
    assert (2 ^ d <= 2 ^ 0) by (destruct (Z.eq_dec d 0) as [->|]; [lia|];
      rewrite Z.pow_neg_r by lia; cbn; lia).
    cbn in *. lia. }
  destruct (Z.lt_trichotomy (Z.pos (digits2_pos p)) d) as [Hlt|[Heq|Hgt]]; [|exact Heq|].
  - assert (2 ^ Z.pos (digits2_pos p) <= 2 ^ (d - 1)) by (apply Z.pow_le_mono_r; lia). lia.
  - assert (2 ^ d <= 2 ^ (Z.pos (digits2_pos p) - 1)) by (apply Z.pow_le_mono_r; lia). lia.
Qed.

Lemma Pos_iter_xO p k : Z.pos (Pos.iter xO p k) = Z.pos p * 2 ^ Z.pos k.
Proof.
  induction k as [|k IH] using Pos.peano_ind.
  - cbn. lia.
  - rewrite Pos.iter_succ, Pos2Z.inj_succ, Z.pow_succ_r by lia.
    rewrite Pos2Z.inj_xO, IH. lia.
Qed.

Lemma F64_round_aux_exact sx m e :
  2 ^ 52 <= Z.pos m < 2 ^ 53 -> -1074 <= e <= 971 ->
  binary_round_aux F64.prec F64.emax sx (Z.pos m) e loc_Exact = S754_finite sx m e.
Proof.
  intros Hm He. pose proof (digits2_pos_unique m 53 Hm) as Hd.
  unfold binary_round_aux, shr_fexp. cbn [Zdigits2 shr_record_of_loc]. rewrite Hd.
  replace (fexp F64.prec F64.emax (53 + e) - e) with 0
    by (unfold fexp, emin, F64.prec, F64.emax; lia).
  cbn [shr shr_m loc_of_shr_record round_nearest_even Zdigits2]. rewrite Hd.
  replace (fexp F64.prec F64.emax (53 + e) - e) with 0
    by (unfold fexp, emin, F64.prec, F64.emax; lia).
  cbn [shr shr_m].
  replace (e <=? F64.emax - F64.prec) with true
    by (symmetry; apply Z.leb_le; unfold F64.prec, F64.emax; lia).
  reflexivity.
Qed.

Lemma F64_of_Z_pos z :
  0 < z < 2 ^ 53 ->
  exists m e, F64.of_Z z = S754_finite false m e
              /\ 2 ^ 52 <= Z.pos m < 2 ^ 53 /\ -52 <= e <= 0
              /\ Z.pos m = z * 2 ^ (- e).
Proof.
  intros Hz. destruct z as [|p|p]; try lia.
  pose proof (digits2_pos_bounds p) as Hb.
  set (d := Z.pos (digits2_pos p)) in *.
  assert (Hd : 1 <= d <= 53).
  { split; [unfold d; lia|].
    destruct (Z_le_gt_dec d 53) as [|Hgt]; [assumption|].
    assert (2 ^ 53 <= 2 ^ (d - 1)) by (apply Z.pow_le_mono_r; lia). lia. }
  unfold F64.of_Z, binary_normalize, binary_round.
  replace (fexp F64.prec F64.emax (Z.pos (digits2_pos p) + 0)) with (d - 53)
    by (unfold fexp, emin, F64.prec, F64.emax; fold d; lia).
  unfold shl_align. rewrite Z.sub_0_r.
  destruct (d - 53) as [|k|k] eqn:Hk; try lia.
  - exists p, 0. rewrite F64_round_aux_exact by (replace 53 with d by lia;
      replace 52 with (d - 1) by lia; lia || exact Hb). 
    repeat split; try lia; replace 53 with d by lia; replace 52 with (d - 1) by lia; lia.
  - assert (Hpow : 2 ^ (d - 1) * 2 ^ Z.pos k = 2 ^ 52 /\ 2 ^ d * 2 ^ Z.pos k = 2 ^ 53).
    { rewrite <- !Z.pow_add_r by lia. split; f_equal; lia. }
    assert (Hm : 2 ^ 52 <= Z.pos (Pos.iter xO p k) < 2 ^ 53).
    { rewrite Pos_iter_xO. destruct Hpow as [<- <-]. 
      assert (0 < 2 ^ Z.pos k) by (apply Z.pow_pos_nonneg; lia). nia. }
    exists (Pos.iter xO p k), (Z.neg k).
    rewrite F64_round_aux_exact by (exact Hm || lia).
    repeat split; try lia. rewrite Pos_iter_xO. reflexivity.
Qed.

(** The second half of [binary_round_aux]: renormalising a rounded
    mantissa that may have reached [2 ^ 53]. *)
Lemma F64_round_aux_finish pm e :
  2 ^ 52 <= Z.pos pm <= 2 ^ 53 -> -1074 <= e <= 970 ->
  exists mz ez,
    (let '(mrs'', e'') := shr_fexp F64.prec F64.emax (Z.pos pm) e loc_Exact in
     match shr_m mrs'' with
     | Z0 => S754_zero false
     | Z.pos m =>
         if e'' <=? F64.emax - F64.prec then S754_finite false m e''
         else S754_infinity false
     | Z.neg _ => S754_nan
     end) = S754_finite false mz ez
    /\ 2 ^ 52 <= Z.pos mz < 2 ^ 53 /\ e <= ez <= e + 1
    /\ Z.pos mz * 2 ^ (ez - e) = Z.pos pm.
Proof.
  intros Hm He. destruct (Pos.eq_dec pm 9007199254740992%positive) as [->|Hne].
  - exists 4503599627370496%positive, (e + 1).
    unfold shr_fexp. cbn [Zdigits2 shr_record_of_loc].
    replace (fexp F64.prec F64.emax (Z.pos (digits2_pos 9007199254740992) + e) - e)
      with 1 by (cbn [digits2_pos Pos.succ];
                 unfold fexp, emin, F64.prec, F64.emax; lia).
    cbn [shr SpecFloat.iter_pos shr_1 shr_m orb].
    replace (e + 1 <=? F64.emax - F64.prec) with true
      by (symmetry; apply Z.leb_le; unfold F64.prec, F64.emax; lia).
    repeat split; try lia. replace (e + 1 - e) with 1 by lia. reflexivity.
  - assert (Hm' : 2 ^ 52 <= Z.pos pm < 2 ^ 53).
    { assert (Z.pos pm <> 9007199254740992) by (intros [= ->]; now apply Hne). lia. }
    exists pm, e. pose proof (digits2_pos_unique pm 53 Hm') as Hd.
    unfold shr_fexp. cbn [Zdigits2 shr_record_of_loc]. rewrite Hd.
    replace (fexp F64.prec F64.emax (53 + e) - e) with 0
      by (unfold fexp, emin, F64.prec, F64.emax; lia).
    cbn [shr shr_m].
    replace (e <=? F64.emax - F64.prec) with true
      by (symmetry; apply Z.leb_le; unfold F64.prec, F64.emax; lia).
    repeat split; try lia. rewrite Z.sub_diag. lia.
Qed.

(** Rounding a quotient of 53 or 54 bits: the result is the quotient, its
    successor, or (for an odd quotient of 54 bits) its predecessor, in
    units of the input exponent. *)
Lemma F64_round_aux_near pq e loc :
  2 ^ 52 <= Z.pos pq < 2 ^ 54 -> -1074 <= e <= 969 ->
  exists mz ez,
    binary_round_aux F64.prec F64.emax false (Z.pos pq) e loc = S754_finite false mz ez
    /\ 2 ^ 52 <= Z.pos mz < 2 ^ 53 /\ e <= ez <= e + 2
    /\ (Z.pos mz * 2 ^ (ez - e) = Z.pos pq
        \/ Z.pos mz * 2 ^ (ez - e) = Z.pos pq + 1
        \/ (Z.pos mz * 2 ^ (ez - e) = Z.pos pq - 1 /\ Z.odd (Z.pos pq) = true)).
Proof.
  intros Hq He. unfold binary_round_aux.
  destruct (Z_lt_le_dec (Z.pos pq) (2 ^ 53)) as [Hlt|Hge].
  - (* 53 bits: no shift before rounding *)
    assert (Hd : Z.pos (digits2_pos pq) = 53) by (apply digits2_pos_unique; lia).
    unfold shr_fexp at 1. cbn [Zdigits2]. rewrite Hd.
    replace (fexp F64.prec F64.emax (53 + e) - e) with 0
      by (unfold fexp, emin, F64.prec, F64.emax; lia).
    cbn [shr].
    assert (Hcase : forall pm, 2 ^ 52 <= Z.pos pm <= 2 ^ 53 ->
              Z.pos pm = Z.pos pq \/ Z.pos pm = Z.pos pq + 1 ->
              exists mz ez,
                (let '(mrs'', e'') := shr_fexp F64.prec F64.emax (Z.pos pm) e loc_Exact in
                 match shr_m mrs'' with
                 | Z0 => S754_zero false
                 | Z.pos m =>
                     if e'' <=? F64.emax - F64.prec then S754_finite false m e''
                     else S754_infinity false
                 | Z.neg _ => S754_nan
                 end) = S754_finite false mz ez
                /\ 2 ^ 52 <= Z.pos mz < 2 ^ 53 /\ e <= ez <= e + 2
                /\ (Z.pos mz * 2 ^ (ez - e) = Z.pos pq
                    \/ Z.pos mz * 2 ^ (ez - e) = Z.pos pq + 1
                    \/ (Z.pos mz * 2 ^ (ez - e) = Z.pos pq - 1
                        /\ Z.odd (Z.pos pq) = true))).
    { intros pm Hpm Hw.
      destruct (F64_round_aux_finish pm e Hpm ltac:(lia)) as (mz & ez & Hr & Hmz & Hez & Hv).
      exists mz, ez. split; [exact Hr|]. split; [exact Hmz|]. split; [lia|].
      rewrite Hv. destruct Hw as [->| ->]; auto. }
    destruct loc as [|[| |]];
      cbn [shr_record_of_loc shr_m loc_of_shr_record round_nearest_even];
      try (apply Hcase; lia).
    destruct (Z.even (Z.pos pq)); [apply Hcase; lia|].
    change (Z.pos pq + 1) with (Z.pos (pq + 1)). apply Hcase; lia.
  - (* 54 bits: one shift before rounding *)
    assert (Hd : Z.pos (digits2_pos pq) = 54) by (apply digits2_pos_unique; lia).
    unfold shr_fexp at 1. cbn [Zdigits2]. rewrite Hd.
    replace (fexp F64.prec F64.emax (54 + e) - e) with 1
      by (unfold fexp, emin, F64.prec, F64.emax; lia).
    cbn [shr SpecFloat.iter_pos].
    assert (Hcase : forall pm, 2 ^ 52 <= Z.pos pm <= 2 ^ 53 ->
              2 * Z.pos pm = Z.pos pq \/ 2 * Z.pos pm = Z.pos pq + 1
              \/ (2 * Z.pos pm = Z.pos pq - 1 /\ Z.odd (Z.pos pq) = true) ->
              exists mz ez,
                (let '(mrs'', e'') :=
                   shr_fexp F64.prec F64.emax (Z.pos pm) (e + 1) loc_Exact in
                 match shr_m mrs'' with
                 | Z0 => S754_zero false
                 | Z.pos m =>
                     if e'' <=? F64.emax - F64.prec then S754_finite false m e''
                     else S754_infinity false
                 | Z.neg _ => S754_nan
                 end) = S754_finite false mz ez
                /\ 2 ^ 52 <= Z.pos mz < 2 ^ 53 /\ e <= ez <= e + 2
                /\ (Z.pos mz * 2 ^ (ez - e) = Z.pos pq
                    \/ Z.pos mz * 2 ^ (ez - e) = Z.pos pq + 1
                    \/ (Z.pos mz * 2 ^ (ez - e) = Z.pos pq - 1
                        /\ Z.odd (Z.pos pq) = true))).
    { intros pm Hpm Hw.
      destruct (F64_round_aux_finish pm (e + 1) Hpm ltac:(lia))
        as (mz & ez & Hr & Hmz & Hez & Hv).
      exists mz, ez. split; [exact Hr|]. split; [exact Hmz|]. split; [lia|].
      replace (ez - e) with (1 + (ez - (e + 1))) by lia.
      rewrite Z.pow_add_r by lia. change (2 ^ 1) with 2.
      replace (Z.pos mz * (2 * 2 ^ (ez - (e + 1))))
        with (2 * (Z.pos mz * 2 ^ (ez - (e + 1)))) by lia.
      rewrite Hv. exact Hw. }
    destruct pq as [p'|p'|]; [| |cbn in Hge; lia].
    + (* odd quotient *)
      assert (Hp' : 2 ^ 52 <= Z.pos p' < 2 ^ 53) by lia.
      destruct loc as [|[| |]];
        cbn [shr_record_of_loc shr_1 orb shr_m loc_of_shr_record round_nearest_even].
      * destruct (Z.even (Z.pos p')).
        -- apply Hcase; [lia|]. right. right. split; [lia|reflexivity].
        -- change (Z.pos p' + 1) with (Z.pos (p' + 1)). apply Hcase; lia.
      * change (Z.pos p' + 1) with (Z.pos (p' + 1)). apply Hcase; lia.
      * change (Z.pos p' + 1) with (Z.pos (p' + 1)). apply Hcase; lia.
      * change (Z.pos p' + 1) with (Z.pos (p' + 1)). apply Hcase; lia.
    + (* even quotient *)
      assert (Hp' : 2 ^ 52 <= Z.pos p' < 2 ^ 53) by lia.
      destruct loc as [|[| |]];
        cbn [shr_record_of_loc shr_1 orb shr_m loc_of_shr_record round_nearest_even];
        apply Hcase; lia.
Qed.

Lemma Z_div_pred_not_multiple x U :
  0 < U -> x mod U <> 0 -> (x - 1) / U = x / U.
Proof.
  intros HU Hx. pose proof (Z.mod_pos_bound x U HU) as Hr.
  symmetry. apply (Z.div_unique (x - 1) U (x / U) (x mod U - 1)); [lia|].
  pose proof (Z.div_mod x U ltac:(lia)). lia.
Qed.

(** The arithmetic behind the period count: rounding the quotient of two
    integers below [2 ^ 53] never reaches the next multiple of 512. *)
Lemma periods_arith a t sa st A T q r mz ez :
  0 < a -> 0 < t -> 0 <= sa -> 0 <= st <= 52 ->
  A = a * 2 ^ sa -> T = t * 2 ^ st ->
  2 ^ 52 <= A < 2 ^ 53 -> 2 ^ 52 <= T < 2 ^ 53 ->
  q = (A * 2 ^ 53) / T -> r = (A * 2 ^ 53) mod T ->
  st - sa - 53 <= ez ->
  (mz * 2 ^ (ez - (st - sa - 53)) = q
   \/ mz * 2 ^ (ez - (st - sa - 53)) = q + 1
   \/ (mz * 2 ^ (ez - (st - sa - 53)) = q - 1 /\ Z.odd q = true)) ->
  ez <= 8 ->
  mz / 2 ^ (9 - ez) = a / t / 512.
Proof.
  intros Ha Ht Hsa Hst HA HT HAr HTr Hq Hr Hez Hw Hez9.
  set (e' := st - sa - 53) in *.
  set (U := 2 ^ (9 - e')).
  set (P := 2 ^ (53 + sa)).
  assert (HP : 2 ^ 53 <= P).
  { unfold P. apply Z.pow_le_mono_r; lia. }
  assert (HU : 0 < U) by (apply Z.pow_pos_nonneg; unfold e'; lia).
  assert (HUeven : U = 2 * 2 ^ (8 - e')).
  { unfold U. replace (9 - e') with (Z.succ (8 - e')) by lia.
    rewrite Z.pow_succ_r by (unfold e'; lia). reflexivity. }
  assert (HTU : T * U = 512 * t * P).
  { subst T. unfold U, P, e'. change 512 with (2 ^ 9).
    replace (t * 2 ^ st * 2 ^ (9 - (st - sa - 53)))
      with (t * (2 ^ st * 2 ^ (9 - (st - sa - 53)))) by lia.
    rewrite <- Z.pow_add_r by lia.
    replace (2 ^ 9 * t * 2 ^ (53 + sa)) with (t * (2 ^ 9 * 2 ^ (53 + sa))) by lia.
    rewrite <- Z.pow_add_r by lia. do 2 f_equal. lia. }
  assert (HN : A * 2 ^ 53 = a * P).
  { subst A. unfold P. rewrite (Z.add_comm 53), Z.pow_add_r by lia. lia. }
  assert (HqU : q / U = a / t / 512).
  { rewrite Hq, Z.div_div by lia. rewrite HTU, HN.
    rewrite Z.div_mul_cancel_r by lia. rewrite Z.div_div by lia.
    f_equal. lia. }
  assert (Hdm : A * 2 ^ 53 = T * q + r /\ 0 <= r < T).
  { subst q r. split; [apply Z.div_mod; lia | apply Z.mod_pos_bound; lia]. }
  assert (Hsucc : (q + 1) mod U <> 0).
  { intros Hz. pose proof (Z.div_mod (q + 1) U ltac:(lia)) as Hk.
    rewrite Hz, Z.add_0_r in Hk. set (k := (q + 1) / U) in *.
    assert (Hgap : T - r = (512 * k * t - a) * P).
    { assert (T * (q + 1) = 512 * k * t * P).
      { rewrite Hk. replace (T * (U * k)) with (T * U * k) by lia. rewrite HTU. lia. }
      lia. }
    assert (Hgp : 0 < T - r < P) by lia.
    rewrite Hgap in Hgp. clear -Hgp HP.
    set (x := 512 * k * t - a) in *.
    assert (0 < P) by lia.
    assert (0 < x) by (apply (Z.mul_pos_cancel_r x P); lia).
    assert (1 * P <= x * P) by (apply Z.mul_le_mono_nonneg_r; lia).
    lia. }
  assert (Hstep : mz / 2 ^ (9 - ez) = (mz * 2 ^ (ez - e')) / U).
  { unfold U. replace (9 - e') with ((9 - ez) + (ez - e')) by lia.
    rewrite Z.pow_add_r by lia.
    rewrite Z.div_mul_cancel_r; [reflexivity | |];
      apply Z.pow_nonzero; lia. }
  rewrite Hstep, <- HqU.
  destruct Hw as [-> | [-> | [-> Hodd]]]; [reflexivity | |].
  - replace q with (q + 1 - 1) at 2 by lia. symmetry.
    now apply Z_div_pred_not_multiple.
  - apply Z_div_pred_not_multiple; [exact HU|].
    intros Hz. pose proof (Z.div_mod q U ltac:(lia)) as Hk.
    rewrite Hz, Z.add_0_r, HUeven in Hk.
    rewrite Hk in Hodd.
    replace (2 * 2 ^ (8 - e') * (q / (2 * 2 ^ (8 - e'))))
      with (2 * (2 ^ (8 - e') * (q / (2 * 2 ^ (8 - e'))))) in Hodd by lia.
    rewrite Z.odd_mul in Hodd. discriminate Hodd.
Qed.

Lemma F64_div_canonical A ea T et :
  2 ^ 52 <= Z.pos A < 2 ^ 53 -> 2 ^ 52 <= Z.pos T < 2 ^ 53 ->
  -52 <= ea <= 0 -> -52 <= et <= 0 ->
  exists pq,
    (Z.pos A * 2 ^ 53) / Z.pos T = Z.pos pq
    /\ 2 ^ 52 <= Z.pos pq < 2 ^ 54
    /\ F64.div (S754_finite false A ea) (S754_finite false T et)
       = binary_round_aux F64.prec F64.emax false (Z.pos pq) (ea - et - 53)
           (new_location (Z.pos T) ((Z.pos A * 2 ^ 53) mod Z.pos T)).
Proof.
  intros HA HT Hea Het.
  assert (Hq : 2 ^ 52 <= (Z.pos A * 2 ^ 53) / Z.pos T < 2 ^ 54).
  { split.
    - apply Z.div_le_lower_bound; [lia|]. nia.
    - apply Z.div_lt_upper_bound; [lia|]. nia. }
  destruct ((Z.pos A * 2 ^ 53) / Z.pos T) as [|pq|pq] eqn:Hdiv; try lia.
  exists pq. split; [reflexivity|]. split; [exact Hq|].
  unfold F64.div, SFdiv, SFdiv_core_binary. cbn [Zdigits2 xorb].
  rewrite (digits2_pos_unique A 53 HA), (digits2_pos_unique T 53 HT).
  replace (Z.min (fexp F64.prec F64.emax (53 + ea - (53 + et))) (ea - et))
    with (ea - et - 53) by (unfold fexp, emin, F64.prec, F64.emax; lia).
  replace (ea - et - (ea - et - 53)) with 53 by lia.
  cbv iota beta. rewrite Z.shiftl_mul_pow2 by lia.
  pose proof (Z.div_eucl_eq (Z.pos A * 2 ^ 53) (Z.pos T) ltac:(lia)) as Heucl.
  unfold Z.div in Hdiv. unfold Z.modulo.
  destruct (Z.div_eucl (Z.pos A * 2 ^ 53) (Z.pos T)) as [q r].
  cbn [fst snd] in *. now subst q.
Qed.

Lemma F64_of_Z_512 : F64.of_Z 512 = S754_finite false 4503599627370496 (-43).
Proof. reflexivity. Qed.

Lemma F64_div_512 mz ez :
  2 ^ 52 <= Z.pos mz < 2 ^ 53 -> -1000 <= ez <= 900 ->
  F64.div (S754_finite false mz ez) (F64.of_Z 512) = S754_finite false mz (ez - 9).
Proof.
  intros Hm He. rewrite F64_of_Z_512.
  unfold F64.div, SFdiv, SFdiv_core_binary. cbn [Zdigits2 xorb].
  rewrite (digits2_pos_unique mz 53 Hm).
  change (Z.pos (digits2_pos 4503599627370496)) with 53.
  replace (Z.min (fexp F64.prec F64.emax (53 + ez - (53 + -43))) (ez - -43))
    with (ez - 10) by (unfold fexp, emin, F64.prec, F64.emax; lia).
  replace (ez - -43 - (ez - 10)) with 53 by lia.
  cbv iota beta. rewrite Z.shiftl_mul_pow2 by lia.
  assert (Hdm : Z.div_eucl (Z.pos mz * 2 ^ 53) 4503599627370496 = (Z.pos mz~0, 0)).
  { pose proof (Z.div_eucl_eq (Z.pos mz * 2 ^ 53) 4503599627370496 ltac:(lia)) as Heq.
    pose proof (Z.mod_pos_bound (Z.pos mz * 2 ^ 53) 4503599627370496 ltac:(lia)) as Hb.
    unfold Z.modulo in Hb.
    destruct (Z.div_eucl (Z.pos mz * 2 ^ 53) 4503599627370496) as [q r].
    cbn [fst snd] in *. f_equal; lia. }
  rewrite Hdm. cbn [new_location Z.even new_location_even Z.eqb].
  unfold binary_round_aux, shr_fexp. cbn [Zdigits2 digits2_pos shr_record_of_loc].
  rewrite Pos2Z.inj_succ, (digits2_pos_unique mz 53 Hm).
  replace (fexp F64.prec F64.emax (Z.succ 53 + (ez - 10)) - (ez - 10)) with 1
    by (unfold fexp, emin, F64.prec, F64.emax; lia).
  cbn [shr SpecFloat.iter_pos shr_1 orb shr_m loc_of_shr_record round_nearest_even
       Zdigits2].
  rewrite (digits2_pos_unique mz 53 Hm).
  replace (fexp F64.prec F64.emax (53 + (ez - 10 + 1)) - (ez - 10 + 1)) with 0
    by (unfold fexp, emin, F64.prec, F64.emax; lia).
  cbn [shr shr_m].
  replace (ez - 10 + 1 <=? F64.emax - F64.prec) with true
    by (symmetry; apply Z.leb_le; unfold F64.prec, F64.emax; lia).
  f_equal. lia.
Qed.

(** The period count [(UInt64)((Float64)a / (Float64)t / 512)] is the
    integer quotient when [a] and [t] are below [2 ^ 53]. *)
Lemma F64_periods a t :
  0 <= a < 2 ^ 53 -> 0 < t < 2 ^ 53 ->
  F64.to_UInt64 (F64.div (F64.div (F64.of_Z a) (F64.of_Z t)) (F64.of_Z 512))
  = Some (a / t / 512).
Proof.
  intros Ha Ht.
  destruct (F64_of_Z_pos t Ht) as (T & et & HT & HTr & Het & HTv).
  destruct (Z.eq_dec a 0) as [->|Hnz].
  { rewrite HT. cbn. reflexivity. }
  destruct (F64_of_Z_pos a ltac:(lia)) as (A & ea & HA & HAr & Hea & HAv).
  rewrite HA, HT.
  destruct (F64_div_canonical A ea T et HAr HTr Hea Het) as (pq & Hq & Hqr & ->).
  destruct (F64_round_aux_near pq (ea - et - 53)
              (new_location (Z.pos T) ((Z.pos A * 2 ^ 53) mod Z.pos T)) Hqr ltac:(lia))
    as (mz & ez & -> & Hmz & Hez & Hw).
  rewrite F64_div_512 by (exact Hmz || lia).
  assert (Hval : Z.pos mz / 2 ^ (9 - ez) = a / t / 512).
  { apply (periods_arith a t (- ea) (- et) (Z.pos A) (Z.pos T) (Z.pos pq)
             ((Z.pos A * 2 ^ 53) mod Z.pos T)); try lia; auto.
    - replace (- et - - ea - 53) with (ea - et - 53) by lia. exact Hw. }
  assert (Hrange : 0 <= a / t / 512 < UInt64_modulus).
  { split; [apply Z.div_pos; [apply Z.div_pos|]; lia|].
    apply Z.div_lt_upper_bound; [lia|]. apply Z.div_lt_upper_bound; [lia|].
    unfold UInt64_modulus. nia. }
  unfold F64.to_UInt64, F64.trunc.
  destruct (ez - 9) as [|p|p] eqn:Hp; try lia.
  replace (Z.pos p) with (9 - ez) by lia. rewrite Hval.
  destruct Hrange as [Hlo Hhi].
  apply Z.leb_le in Hlo. apply Z.ltb_lt in Hhi. now rewrite Hlo, Hhi.
Qed.

Lemma F64_of_Z_represents z : 0 <= z < 2 ^ 53 -> F64_represents (F64.of_Z z) z.
Proof.
  intros Hz. destruct (Z.eq_dec z 0) as [->|Hnz]; [reflexivity|].
  destruct (F64_of_Z_pos z ltac:(lia)) as (m & e & -> & Hm & He & Hv).
  cbn [F64_represents]. rewrite Hv.
  replace (Z.max 0 e) with 0 by lia. replace (Z.max 0 (- e)) with (- e) by lia.
  cbn. lia.
Qed.

Lemma F64_of_Z_leb x y :
  0 <= x <= y -> y < 2 ^ 53 -> F64.leb (F64.of_Z x) (F64.of_Z y) = true.
Proof.
  intros Hxy Hy. unfold F64.leb, SFleb.
  destruct (Z.eq_dec y 0) as [->|Hy0].
  { assert (x = 0) as -> by lia. reflexivity. }
  destruct (F64_of_Z_pos y ltac:(lia)) as (my & ey & -> & Hmy & Hey & Hvy).
  destruct (Z.eq_dec x 0) as [->|Hx0]; [reflexivity|].
  destruct (F64_of_Z_pos x ltac:(lia)) as (mx & ex & -> & Hmx & Hex & Hvx).
  cbn [SFcompare].
  destruct (Z.compare_spec ex ey) as [Heq|Hlt|Hgt]; [| reflexivity |].
  - subst ey. rewrite Pos.compare_cont_spec. cbn [Pos.switch_Eq].
    assert (Z.pos mx <= Z.pos my).
    { rewrite Hvx, Hvy. apply Z.mul_le_mono_nonneg_r; [|lia].
      apply Z.pow_nonneg. lia. }
    destruct (Pos.compare_spec mx my) as [| |Hc]; try reflexivity. lia.
  - exfalso.
    assert (H2 : 2 ^ (- ey) = 2 ^ (- ex) * 2 ^ (ex - ey)).
    { rewrite <- Z.pow_add_r by lia. f_equal. lia. }
    assert (2 <= 2 ^ (ex - ey)).
    { change 2 with (2 ^ 1) at 1. apply Z.pow_le_mono_r; lia. }
    assert (0 < 2 ^ (- ex)) by (apply Z.pow_pos_nonneg; lia).
    rewrite H2 in Hvy. nia.
Qed.

(** ** Zero-timestamp clock *)

Lemma UInt64_wrap_small z : 0 <= z < UInt64_modulus -> UInt64_wrap z = z.
Proof. intros H. unfold UInt64_wrap. now apply Z.mod_small. Qed.

Lemma GetZeroTimeStamp_spec now s :
  0 < ticksPerFrame s < 2 ^ 53 ->
  0 <= anchorHostTime s <= now -> now < UInt64_modulus ->
  now - anchorHostTime s < 2 ^ 53 ->
  let periods := (now - anchorHostTime s) / ticksPerFrame s / kLatency_Frame_Size in
  SurgeAudioDriver_GetZeroTimeStamp now s
  = Some (kAudioHardwareNoError,
          {| outSampleTime := F64.of_Z (periods * kLatency_Frame_Size);
             outHostTime :=
               anchorHostTime s + periods * kLatency_Frame_Size * ticksPerFrame s;
             outSeed := 1 |})
  /\ 0 <= periods
  /\ periods * kLatency_Frame_Size * ticksPerFrame s <= now - anchorHostTime s.
Proof.
  intros Ht Hanchor Hnow Hsession periods.
  assert (Hp : 0 <= periods).
  { unfold periods, kLatency_Frame_Size. apply Z.div_pos; [apply Z.div_pos|]; lia. }
  assert (Hle : periods * kLatency_Frame_Size * ticksPerFrame s <= now - anchorHostTime s).
  { unfold periods, kLatency_Frame_Size.
    pose proof (Z.mul_div_le ((now - anchorHostTime s) / ticksPerFrame s) 512 ltac:(lia)).
    pose proof (Z.mul_div_le (now - anchorHostTime s) (ticksPerFrame s) ltac:(lia)).
    nia. }
  split; [|split; [exact Hp | exact Hle]].
  unfold SurgeAudioDriver_GetZeroTimeStamp.
  rewrite (UInt64_wrap_small (now - anchorHostTime s)) by (unfold UInt64_modulus in *; lia).
  change (F64.of_Z kLatency_Frame_Size) with (F64.of_Z 512).
  rewrite F64_periods by lia. cbn [mbind option_bind].
  unfold kLatency_Frame_Size in *. fold periods.
  assert (Hs : 0 <= periods * 512 <= now - anchorHostTime s) by nia.
  rewrite (UInt64_wrap_small (periods * 512)) by (unfold UInt64_modulus in *; lia).
  rewrite (UInt64_wrap_small (periods * 512 * ticksPerFrame s))
    by (unfold UInt64_modulus in *; lia).
  rewrite UInt64_wrap_small by (unfold UInt64_modulus in *; lia).
  reflexivity.
Qed.

(** C4: within one running session (host clock readings at or after the
    anchor, less than [2 ^ 53] ticks after it, a positive tick count per
    frame), two zero-timestamps taken at non-decreasing clock readings
    have non-decreasing sample times and host times, and each sample time
    is exactly a whole number of periods of 512 frames. *)
Theorem C4_zero_timestamps_monotone_aligned
    (s : SurgeAudioDriverState) (now1 now2 : Z) :
  0 < ticksPerFrame s < 2 ^ 53 ->
  0 <= anchorHostTime s <= now1 -> now1 <= now2 -> now2 < UInt64_modulus ->
  now2 - anchorHostTime s < 2 ^ 53 ->
  exists k1 k2 z1 z2,
    SurgeAudioDriver_GetZeroTimeStamp now1 s = Some (kAudioHardwareNoError, z1)
    /\ SurgeAudioDriver_GetZeroTimeStamp now2 s = Some (kAudioHardwareNoError, z2)
    /\ F64_represents (outSampleTime z1) (k1 * kLatency_Frame_Size)
    /\ F64_represents (outSampleTime z2) (k2 * kLatency_Frame_Size)
    /\ 0 <= k1 <= k2
    /\ F64.leb (outSampleTime z1) (outSampleTime z2) = true
    /\ outHostTime z1 <= outHostTime z2
    /\ outHostTime z1 = anchorHostTime s + k1 * kLatency_Frame_Size * ticksPerFrame s
    /\ outHostTime z2 = anchorHostTime s + k2 * kLatency_Frame_Size * ticksPerFrame s
    /\ outHostTime z1 <= now1 /\ outHostTime z2 <= now2.
Proof.
  intros Ht Hanchor H12 Hnow Hsession.
  destruct (GetZeroTimeStamp_spec now1 s Ht Hanchor ltac:(lia) ltac:(lia))
    as (Hz1 & Hk1 & Hle1).
  destruct (GetZeroTimeStamp_spec now2 s Ht ltac:(lia) Hnow Hsession)
    as (Hz2 & Hk2 & Hle2).
  set (k1 := (now1 - anchorHostTime s) / ticksPerFrame s / kLatency_Frame_Size) in *.
  set (k2 := (now2 - anchorHostTime s) / ticksPerFrame s / kLatency_Frame_Size) in *.
  assert (Hk : k1 <= k2).
  { unfold k1, k2, kLatency_Frame_Size.
    apply Z.div_le_mono; [lia|]. apply Z.div_le_mono; lia. }
  assert (Hb1 : 0 <= k1 * kLatency_Frame_Size <= now1 - anchorHostTime s)
    by (unfold kLatency_Frame_Size in *; nia).
  assert (Hb2 : 0 <= k2 * kLatency_Frame_Size <= now2 - anchorHostTime s)
    by (unfold kLatency_Frame_Size in *; nia).
  exists k1, k2. eexists. eexists.
  split; [exact Hz1|]. split; [exact Hz2|]. cbn [outSampleTime outHostTime].
  split; [apply F64_of_Z_represents; lia|].
  split; [apply F64_of_Z_represents; lia|].
  split; [lia|].
  split; [apply F64_of_Z_leb; unfold kLatency_Frame_Size in *; lia|].
  unfold kLatency_Frame_Size in *. repeat split; try lia; nia.
Qed.

Lemma C4_zero_timestamps_monotone_aligned_witness :
  exists k1 k2 z1 z2,
    SurgeAudioDriver_GetZeroTimeStamp 257000 gDriverState_running
      = Some (kAudioHardwareNoError, z1)
    /\ SurgeAudioDriver_GetZeroTimeStamp 768999 gDriverState_running
       = Some (kAudioHardwareNoError, z2)
    /\ F64_represents (outSampleTime z1) (k1 * kLatency_Frame_Size)
    /\ F64_represents (outSampleTime z2) (k2 * kLatency_Frame_Size)
    /\ 0 <= k1 <= k2
    /\ F64.leb (outSampleTime z1) (outSampleTime z2) = true
    /\ outHostTime z1 <= outHostTime z2
    /\ outHostTime z1
       = anchorHostTime gDriverState_running
         + k1 * kLatency_Frame_Size * ticksPerFrame gDriverState_running
    /\ outHostTime z2
       = anchorHostTime gDriverState_running
         + k2 * kLatency_Frame_Size * ticksPerFrame gDriverState_running
    /\ outHostTime z1 <= 257000 /\ outHostTime z2 <= 768999.
Proof.
  apply (C4_zero_timestamps_monotone_aligned gDriverState_running 257000 768999).
  - vm_compute. split; reflexivity.
  - vm_compute. split; discriminate.
  - discriminate.
  - reflexivity.
  - reflexivity.
Defined.

(** * Further properties of the Surge driver *)

(** Case analysis on the object ids the property functions switch on. *)
Lemma objectID_cases (P : Z -> Prop) :
  P kObjectID_PlugIn -> P kObjectID_Device ->
  P kObjectID_Stream_Input -> P kObjectID_Stream_Output ->
  P kObjectID_Volume_Input_Master -> P kObjectID_Volume_Output_Master ->
  (forall o, (o =? kObjectID_PlugIn) = false -> (o =? kObjectID_Device) = false ->
             (o =? kObjectID_Stream_Input) = false -> (o =? kObjectID_Stream_Output) = false ->
             (o =? kObjectID_Volume_Input_Master) = false ->
             (o =? kObjectID_Volume_Output_Master) = false -> P o) ->
  forall o, P o.
Proof.
  intros H1 H2 H3 H4 H5 H6 H o.
  destruct (o =? kObjectID_PlugIn) eqn:E1; [apply Z.eqb_eq in E1; now subst|].
  destruct (o =? kObjectID_Device) eqn:E2; [apply Z.eqb_eq in E2; now subst|].
  destruct (o =? kObjectID_Stream_Input) eqn:E3; [apply Z.eqb_eq in E3; now subst|].
  destruct (o =? kObjectID_Stream_Output) eqn:E4; [apply Z.eqb_eq in E4; now subst|].
  destruct (o =? kObjectID_Volume_Input_Master) eqn:E5; [apply Z.eqb_eq in E5; now subst|].
  destruct (o =? kObjectID_Volume_Output_Master) eqn:E6; [apply Z.eqb_eq in E6; now subst|].
  now apply H.
Qed.

Ltac by_objectID o :=
  pattern o; apply objectID_cases; clear o;
  [ | | | | | | intros o ?E ?E ?E ?E ?E ?E ].

Ltac ring_ok_loaded :=
  split;
  [ exists (replicate (Z.to_nat kRingBufferSize) F32.zero);
    split; [reflexivity | apply length_replicate]
  | split; vm_compute; (split; [discriminate | reflexivity]) ].

(** ** Property tables *)

(** X1: every property that [SurgeAudioDriver_IsPropertySettable] reports
    as settable is a property that [SurgeAudioDriver_HasProperty]
    advertises. *)
Theorem X1_settable_implies_advertised objectID address :
  (SurgeAudioDriver_IsPropertySettable objectID address).2 = true ->
  SurgeAudioDriver_HasProperty objectID address = true.
Proof.
  destruct address as [sel sc el].
  by_objectID objectID.
  1-6: destruct sel; vm_compute; intros; congruence.
  unfold SurgeAudioDriver_IsPropertySettable, SurgeAudioDriver_HasProperty.
  cbn [snd mSelector]. rewrite ?E, ?E0, ?E1, ?E2, ?E3, ?E4. cbn. discriminate.
Qed.

Lemma X1_settable_implies_advertised_witness :
  SurgeAudioDriver_HasProperty kObjectID_Device
    (address_of kAudioDevicePropertyNominalSampleRate) = true.
Proof.
  apply (X1_settable_implies_advertised kObjectID_Device
           (address_of kAudioDevicePropertyNominalSampleRate)).
  reflexivity.
Defined.

(** X2: a defined [SurgeAudioDriver_SetPropertyData] returns success
    exactly for the properties reported settable other than the two stream
    formats, which are reported settable and rejected; a call that
    fails leaves the driver state as it was. *)
Theorem X2_SetPropertyData_succeeds_iff_settable libm timebase objectID address
    inDataSize inData s st s' :
  SurgeAudioDriver_SetPropertyData libm timebase objectID address inDataSize inData s
    = Some (st, s') ->
  (st = noErr <->
     (SurgeAudioDriver_IsPropertySettable objectID address).2 = true
     /\ mSelector address <> kAudioStreamPropertyVirtualFormat
     /\ mSelector address <> kAudioStreamPropertyPhysicalFormat)
  /\ (st <> noErr -> s' = s).
Proof.
  destruct address as [sel sc el].
  by_objectID objectID.
  1-6: destruct sel; cbn; intros H; simplify_option_eq;
       (split; [split; [intros; repeat split; congruence
                       | intros (? & ? & ?); congruence] | congruence]).
  unfold SurgeAudioDriver_SetPropertyData, SurgeAudioDriver_IsPropertySettable.
  cbn [snd mSelector]. rewrite ?E, ?E0, ?E1, ?E2, ?E3, ?E4. cbn.
  intros [= <- <-].
  split; [split; [discriminate | intros (? & _); discriminate] | reflexivity].
Qed.

Lemma X2_SetPropertyData_succeeds_iff_settable_witness :
  (noErr = noErr <->
     (SurgeAudioDriver_IsPropertySettable kObjectID_Volume_Input_Master
        (address_of kAudioLevelControlPropertyScalarValue)).2 = true
     /\ mSelector (address_of kAudioLevelControlPropertyScalarValue)
        <> kAudioStreamPropertyVirtualFormat
     /\ mSelector (address_of kAudioLevelControlPropertyScalarValue)
        <> kAudioStreamPropertyPhysicalFormat)
  /\ (noErr <> noErr -> set_inputVolume F32_half gDriverState_static = gDriverState_static).
Proof.
  apply (X2_SetPropertyData_succeeds_iff_settable libm_nan timebase_arm64
           kObjectID_Volume_Input_Master
           (address_of kAudioLevelControlPropertyScalarValue) sizeof_Float32
           (PD_Float32 F32_half) gDriverState_static).
  reflexivity.
Defined.

(** X3: [SurgeAudioDriver_SetPropertyData] never touches the IO engine:
    the ring buffer, its two positions, the running flag, the anchors and
    the mute flags are what they were. *)
Theorem X3_SetPropertyData_keeps_engine_state libm timebase objectID address
    inDataSize inData s st s' :
  SurgeAudioDriver_SetPropertyData libm timebase objectID address inDataSize inData s
    = Some (st, s') ->
  ringBuffer s' = ringBuffer s
  /\ ringBufferWritePosition s' = ringBufferWritePosition s
  /\ ringBufferReadPosition s' = ringBufferReadPosition s
  /\ deviceIsRunning s' = deviceIsRunning s
  /\ anchorHostTime s' = anchorHostTime s
  /\ anchorSampleTime s' = anchorSampleTime s
  /\ inputMute s' = inputMute s
  /\ outputMute s' = outputMute s.
Proof.
  destruct address as [sel sc el].
  by_objectID objectID.
  1-6: destruct sel; cbn; intros H; simplify_option_eq; repeat split; reflexivity.
  unfold SurgeAudioDriver_SetPropertyData.
  cbn [snd mSelector]. rewrite ?E, ?E0, ?E1, ?E2, ?E3, ?E4. cbn.
  intros [= <- <-]. repeat split; reflexivity.
Qed.

Lemma X3_SetPropertyData_keeps_engine_state_witness :
  let s' := set_ticksPerFrame 1088 (set_sampleRate F64_22050 gDriverState_static) in
  ringBuffer s' = ringBuffer gDriverState_static
  /\ ringBufferWritePosition s' = ringBufferWritePosition gDriverState_static
  /\ ringBufferReadPosition s' = ringBufferReadPosition gDriverState_static
  /\ deviceIsRunning s' = deviceIsRunning gDriverState_static
  /\ anchorHostTime s' = anchorHostTime gDriverState_static
  /\ anchorSampleTime s' = anchorSampleTime gDriverState_static
  /\ inputMute s' = inputMute gDriverState_static
  /\ outputMute s' = outputMute gDriverState_static.
Proof.
  apply (X3_SetPropertyData_keeps_engine_state libm_nan timebase_arm64 kObjectID_Device
           (address_of kAudioDevicePropertyNominalSampleRate) sizeof_Float64
           (PD_Float64 F64_22050) gDriverState_static noErr).
  vm_compute. reflexivity.
Defined.

(** X4: whenever [SurgeAudioDriver_GetPropertyData] stores a datum it
    returns success and reports as size the number of bytes of that
    datum. *)
Theorem X4_GetPropertyData_size_is_datum_size libm objectID address qualifier
    inDataSize s d :
  get_outData (SurgeAudioDriver_GetPropertyData libm objectID address qualifier inDataSize s)
    = Some d ->
  get_status (SurgeAudioDriver_GetPropertyData libm objectID address qualifier inDataSize s)
    = noErr
  /\ get_outDataSize
       (SurgeAudioDriver_GetPropertyData libm objectID address qualifier inDataSize s)
     = Some (PropertyData_bytes d).
Proof.
  destruct address as [sel sc el].
  by_objectID objectID.
  1-6: destruct sel; cbn; try discriminate; try (intros [= <-]; split; reflexivity).
  all: try (destruct qualifier as [uid|]; [destruct (String.eqb uid kDevice_UID)|]; cbn;
            intros [= <-]; split; reflexivity).
  all: try (destruct sc; cbn; intros [= <-]; split; reflexivity).
  unfold SurgeAudioDriver_GetPropertyData.
  rewrite ?E, ?E0, ?E1, ?E2, ?E3, ?E4. cbn. discriminate.
Qed.

Lemma X4_GetPropertyData_size_is_datum_size_witness :
  get_status (SurgeAudioDriver_GetPropertyData libm_nan kObjectID_Device
                (address_of kAudioObjectPropertyControlList) None 0 gDriverState_static)
    = noErr
  /\ get_outDataSize
       (SurgeAudioDriver_GetPropertyData libm_nan kObjectID_Device
          (address_of kAudioObjectPropertyControlList) None 0 gDriverState_static)
     = Some (PropertyData_bytes
               (PD_AudioObjectID
                  [kObjectID_Volume_Input_Master; kObjectID_Volume_Output_Master;
                   kObjectID_Mute_Input_Master; kObjectID_Mute_Output_Master])).
Proof.
  apply (X4_GetPropertyData_size_is_datum_size libm_nan kObjectID_Device
           (address_of kAudioObjectPropertyControlList) None 0 gDriverState_static).
  reflexivity.
Defined.

(** X5: for every property that [SurgeAudioDriver_GetPropertyData]
    answers, [SurgeAudioDriver_GetPropertyDataSize] answers too, with
    exactly the size the getter reports, whatever the qualifier and the
    driver state. *)
Theorem X5_answered_property_has_its_size libm objectID address qualifier inDataSize s :
  get_status (SurgeAudioDriver_GetPropertyData libm objectID address qualifier inDataSize s)
    = noErr ->
  SurgeAudioDriver_GetPropertyDataSize objectID address
  = (noErr,
     get_outDataSize
       (SurgeAudioDriver_GetPropertyData libm objectID address qualifier inDataSize s)).
Proof.
  destruct address as [sel sc el].
  by_objectID objectID.
  1-6: destruct sel; cbn; try discriminate; try reflexivity.
  all: try (destruct qualifier as [uid|]; [destruct (String.eqb uid kDevice_UID)|]; cbn;
            reflexivity).
  all: try (destruct sc; cbn; reflexivity).
  unfold SurgeAudioDriver_GetPropertyData, SurgeAudioDriver_GetPropertyDataSize.
  rewrite ?E, ?E0, ?E1, ?E2, ?E3, ?E4. cbn. discriminate.
Qed.

Lemma X5_answered_property_has_its_size_witness :
  SurgeAudioDriver_GetPropertyDataSize kObjectID_Device
    {| mSelector := kAudioDevicePropertyStreams;
       mScope := kAudioObjectPropertyScopeInput;
       mElement := kAudioObjectPropertyElementMain |}
  = (noErr,
     get_outDataSize
       (SurgeAudioDriver_GetPropertyData libm_nan kObjectID_Device
          {| mSelector := kAudioDevicePropertyStreams;
             mScope := kAudioObjectPropertyScopeInput;
             mElement := kAudioObjectPropertyElementMain |}
          None 0 gDriverState_static)).
Proof.
  apply (X5_answered_property_has_its_size libm_nan kObjectID_Device
           {| mSelector := kAudioDevicePropertyStreams;
              mScope := kAudioObjectPropertyScopeInput;
              mElement := kAudioObjectPropertyElementMain |}
           None 0 gDriverState_static).
  reflexivity.
Defined.

(** ** Setting a property and reading it back *)

(** X6: a volume scalar stored through [SurgeAudioDriver_SetPropertyData]
    on one volume control is what [SurgeAudioDriver_GetPropertyData]
    returns for that control, and what the other control returns is
    unchanged. *)
Theorem X6_volume_scalar_roundtrip libm timebase objectID other address v
    inDataSize qualifier inDataSize' s :
  is_volume_control objectID = true ->
  is_volume_control other = true ->
  other <> objectID ->
  mSelector address = kAudioLevelControlPropertyScalarValue ->
  exists s',
    SurgeAudioDriver_SetPropertyData libm timebase objectID address inDataSize
      (PD_Float32 v) s = Some (noErr, s')
    /\ SurgeAudioDriver_GetPropertyData libm objectID address qualifier inDataSize' s'
       = stored (PD_Float32 v) sizeof_Float32
    /\ SurgeAudioDriver_GetPropertyData libm other address qualifier inDataSize' s'
       = SurgeAudioDriver_GetPropertyData libm other address qualifier inDataSize' s.
Proof.
  unfold is_volume_control. intros Ho Hother Hne Hsel.
  destruct address as [sel sc el]. cbn in Hsel. subst sel.
  apply orb_true_iff in Ho as [Ho|Ho]; apply Z.eqb_eq in Ho; subst objectID;
  apply orb_true_iff in Hother as [Hother|Hother]; apply Z.eqb_eq in Hother; subst other;
  try congruence; eexists; (split; [reflexivity|split; reflexivity]).
Qed.

Lemma X6_volume_scalar_roundtrip_witness :
  exists s',
    SurgeAudioDriver_SetPropertyData libm_nan timebase_arm64 kObjectID_Volume_Input_Master
      (address_of kAudioLevelControlPropertyScalarValue) sizeof_Float32
      (PD_Float32 F32_half) gDriverState_static = Some (noErr, s')
    /\ SurgeAudioDriver_GetPropertyData libm_nan kObjectID_Volume_Input_Master
         (address_of kAudioLevelControlPropertyScalarValue) None sizeof_Float32 s'
       = stored (PD_Float32 F32_half) sizeof_Float32
    /\ SurgeAudioDriver_GetPropertyData libm_nan kObjectID_Volume_Output_Master
         (address_of kAudioLevelControlPropertyScalarValue) None sizeof_Float32 s'
       = SurgeAudioDriver_GetPropertyData libm_nan kObjectID_Volume_Output_Master
           (address_of kAudioLevelControlPropertyScalarValue) None sizeof_Float32
           gDriverState_static.
Proof.
  apply (X6_volume_scalar_roundtrip libm_nan timebase_arm64 kObjectID_Volume_Input_Master
           kObjectID_Volume_Output_Master
           (address_of kAudioLevelControlPropertyScalarValue)).
  - reflexivity.
  - reflexivity.
  - discriminate.
  - reflexivity.
Defined.

(** X7: the active flag stored through [SurgeAudioDriver_SetPropertyData]
    on one stream is read back as 1 for every non-zero value and as 0 for
    zero, and what the other stream returns is unchanged. *)
Theorem X7_stream_active_roundtrip libm timebase objectID other address v
    inDataSize qualifier inDataSize' s :
  objectID = kObjectID_Stream_Input \/ objectID = kObjectID_Stream_Output ->
  other = kObjectID_Stream_Input \/ other = kObjectID_Stream_Output ->
  other <> objectID ->
  mSelector address = kAudioStreamPropertyIsActive ->
  exists s',
    SurgeAudioDriver_SetPropertyData libm timebase objectID address inDataSize
      (PD_UInt32 v) s = Some (noErr, s')
    /\ SurgeAudioDriver_GetPropertyData libm objectID address qualifier inDataSize' s'
       = stored (PD_UInt32 (if v =? 0 then 0 else 1)) sizeof_UInt32
    /\ SurgeAudioDriver_GetPropertyData libm other address qualifier inDataSize' s'
       = SurgeAudioDriver_GetPropertyData libm other address qualifier inDataSize' s.
Proof.
  intros Ho Hother Hne Hsel.
  destruct address as [sel sc el]. cbn in Hsel. subst sel.
  destruct Ho; subst objectID; destruct Hother; subst other; try congruence;
    eexists; (split; [reflexivity|]); cbn; destruct (v =? 0); split; reflexivity.
Qed.

Lemma X7_stream_active_roundtrip_witness :
  exists s',
    SurgeAudioDriver_SetPropertyData libm_nan timebase_arm64 kObjectID_Stream_Input
      (address_of kAudioStreamPropertyIsActive) sizeof_UInt32
      (PD_UInt32 7) gDriverState_static = Some (noErr, s')
    /\ SurgeAudioDriver_GetPropertyData libm_nan kObjectID_Stream_Input
         (address_of kAudioStreamPropertyIsActive) None sizeof_UInt32 s'
       = stored (PD_UInt32 (if 7 =? 0 then 0 else 1)) sizeof_UInt32
    /\ SurgeAudioDriver_GetPropertyData libm_nan kObjectID_Stream_Output
         (address_of kAudioStreamPropertyIsActive) None sizeof_UInt32 s'
       = SurgeAudioDriver_GetPropertyData libm_nan kObjectID_Stream_Output
           (address_of kAudioStreamPropertyIsActive) None sizeof_UInt32
           gDriverState_static.
Proof.
  apply (X7_stream_active_roundtrip libm_nan timebase_arm64 kObjectID_Stream_Input
           kObjectID_Stream_Output (address_of kAudioStreamPropertyIsActive)).
  - left. reflexivity.
  - right. reflexivity.
  - discriminate.
  - reflexivity.
Defined.

(** X8: a nominal sample rate stored on the device is the rate the device
    returns and the sample rate of the virtual and the physical format
    that both streams return. *)
Theorem X8_sample_rate_reaches_stream_formats libm timebase address fmt rate t
    inDataSize qualifier inDataSize' s streamID :
  mSelector address = kAudioDevicePropertyNominalSampleRate ->
  ticksPerFrame_of timebase rate = Some t ->
  streamID = kObjectID_Stream_Input \/ streamID = kObjectID_Stream_Output ->
  mSelector fmt = kAudioStreamPropertyVirtualFormat
  \/ mSelector fmt = kAudioStreamPropertyPhysicalFormat ->
  exists s',
    SurgeAudioDriver_SetPropertyData libm timebase kObjectID_Device address inDataSize
      (PD_Float64 rate) s = Some (noErr, s')
    /\ SurgeAudioDriver_GetPropertyData libm kObjectID_Device address qualifier inDataSize' s'
       = stored (PD_Float64 rate) sizeof_Float64
    /\ SurgeAudioDriver_GetPropertyData libm streamID fmt qualifier inDataSize' s'
       = stored (PD_Format (streamFormat rate)) sizeof_AudioStreamBasicDescription
    /\ mSampleRate (streamFormat rate) = rate.
Proof.
  intros Hsel Ht Hs Hf.
  destruct address as [sel sc el]. cbn in Hsel. subst sel.
  destruct fmt as [fsel fsc fel]. cbn in Hf.
  exists (set_ticksPerFrame t (set_sampleRate rate s)).
  split.
  { unfold SurgeAudioDriver_SetPropertyData. cbn. rewrite Ht. reflexivity. }
  split; [reflexivity|].
  split; [|reflexivity].
  destruct Hs; subst streamID; destruct Hf; subst fsel; reflexivity.
Qed.

Lemma X8_sample_rate_reaches_stream_formats_witness :
  exists s',
    SurgeAudioDriver_SetPropertyData libm_nan timebase_arm64 kObjectID_Device
      (address_of kAudioDevicePropertyNominalSampleRate) sizeof_Float64
      (PD_Float64 F64_22050) gDriverState_static = Some (noErr, s')
    /\ SurgeAudioDriver_GetPropertyData libm_nan kObjectID_Device
         (address_of kAudioDevicePropertyNominalSampleRate) None sizeof_Float64 s'
       = stored (PD_Float64 F64_22050) sizeof_Float64
    /\ SurgeAudioDriver_GetPropertyData libm_nan kObjectID_Stream_Input
         (address_of kAudioStreamPropertyVirtualFormat) None sizeof_Float64 s'
       = stored (PD_Format (streamFormat F64_22050)) sizeof_AudioStreamBasicDescription
    /\ mSampleRate (streamFormat F64_22050) = F64_22050.
Proof.
  apply (X8_sample_rate_reaches_stream_formats libm_nan timebase_arm64
           (address_of kAudioDevicePropertyNominalSampleRate)
           (address_of kAudioStreamPropertyVirtualFormat) F64_22050 1088).
  - reflexivity.
  - vm_compute. reflexivity.
  - left. reflexivity.
  - left. reflexivity.
Defined.

(** ** The IO engine *)

Lemma kRingBufferSize_pos : 0 < kRingBufferSize.
Proof. rewrite kRingBufferSize_eq. lia. Qed.

Lemma ring_ok_StartIO now s :
  ring_ok s ->
  exists s', SurgeAudioDriver_StartIO now s = Some (noErr, s') /\ ring_ok s'.
Proof.
  intros Hok. pose proof Hok as ((rb & Hrb & Hlen) & Hw & Hr).
  destruct (deviceIsRunning s) eqn:Hrun.
  - exists s. split; [now apply StartIO_running | exact Hok].
  - eexists. split; [exact (StartIO_not_running now s rb Hrb Hlen Hrun)|].
    pose proof kRingBufferSize_pos.
    repeat split; cbn; try lia.
    eexists; split; [reflexivity|]. now rewrite length_replicate.
Qed.

Lemma ring_ok_DoIOOperation op n buffer s :
  ring_ok s ->
  0 <= n -> n * kChannelsPerFrame < UInt32_modulus ->
  (Z.to_nat (n * kChannelsPerFrame) <= length buffer)%nat ->
  exists out s',
    SurgeAudioDriver_DoIOOperation op n buffer s = Some (noErr, out, s')
    /\ ring_ok s' /\ length out = length buffer.
Proof.
  intros Hok Hn Hlt Hlen. pose proof Hok as ((rb & Hrb & Hrlen) & Hw & Hr).
  pose proof kRingBufferSize_pos as Hpos.
  destruct op;
    try (do 2 eexists; split; [reflexivity|]; split; [exact Hok|reflexivity]).
  - do 2 eexists.
    split; [exact (DoIOOperation_ReadInput s rb n buffer Hrb Hrlen Hr Hn Hlt Hlen)|].
    split.
    + repeat split; cbn; try lia; try (apply Z.mod_pos_bound; lia).
      eexists; split; [exact Hrb|exact Hrlen].
    + rewrite length_app, length_map, ring_load_length, length_drop. lia.
  - do 2 eexists.
    split; [exact (DoIOOperation_WriteMix s rb n buffer Hrb Hrlen Hw Hn Hlt Hlen)|].
    split; [|reflexivity].
    repeat split; cbn; try lia; try (apply Z.mod_pos_bound; lia).
    eexists; split; [reflexivity|]. now rewrite ring_store_length.
Qed.

(** X9: from a state whose ring buffer is allocated at full size with both
    positions inside it, every sequence of [StartIO], [StopIO] and
    [DoIOOperation] calls whose host buffers hold the frames asked for is
    defined, returns success at every call, and ends in such a state. *)
Theorem X9_engine_calls_keep_ring cs : forall s,
  ring_ok s -> Forall EngineCall_fits cs ->
  exists sts s',
    run_EngineCalls cs s = Some (sts, s')
    /\ Forall (eq noErr) sts /\ length sts = length cs /\ ring_ok s'.
Proof.
  induction cs as [|c cs IH]; intros s Hok Hfits.
  - exists [], s. split; [reflexivity|]. split; [apply Forall_nil_2|].
    split; [reflexivity|exact Hok].
  - apply Forall_cons in Hfits as [Hc Hcs].
    assert (exists s1, run_EngineCall c s = Some (noErr, s1) /\ ring_ok s1)
      as (s1 & Hrun & Hok1).
    { destruct c as [now| |op n buffer]; cbn.
      - apply ring_ok_StartIO, Hok.
      - exists (SurgeAudioDriver_StopIO s).2. split; [reflexivity|exact Hok].
      - destruct Hc as (Hn & Hlt & Hlen).
        destruct (ring_ok_DoIOOperation op n buffer s Hok Hn Hlt Hlen)
          as (out & s1 & -> & Hok1 & _).
        exists s1. split; [reflexivity|exact Hok1]. }
    destruct (IH s1 Hok1 Hcs) as (sts & s' & Hrest & Hall & Hlen & Hok').
    exists (noErr :: sts), s'. cbn [run_EngineCalls]. rewrite Hrun. cbn. rewrite Hrest. cbn.
    split; [reflexivity|]. split; [apply Forall_cons_2; [reflexivity|exact Hall]|].
    split; [cbn; lia|exact Hok'].
Qed.

Lemma X9_engine_calls_keep_ring_witness :
  let cs := [Engine_StartIO 1000;
             Engine_DoIO kAudioServerPlugInIOOperationWriteMix 1 [F32_half; F32_half];
             Engine_DoIO kAudioServerPlugInIOOperationReadInput 1 [F32.zero; F32.zero];
             Engine_StopIO] in
  exists sts s',
    run_EngineCalls cs gDriverState_loaded = Some (sts, s')
    /\ Forall (eq noErr) sts /\ length sts = length cs /\ ring_ok s'.
Proof.
  apply (X9_engine_calls_keep_ring
           [Engine_StartIO 1000;
            Engine_DoIO kAudioServerPlugInIOOperationWriteMix 1 [F32_half; F32_half];
            Engine_DoIO kAudioServerPlugInIOOperationReadInput 1 [F32.zero; F32.zero];
            Engine_StopIO] gDriverState_loaded).
  - ring_ok_loaded.
  - apply Forall_cons_2; [exact I|].
    apply Forall_cons_2; [vm_compute; repeat split; try discriminate; lia|].
    apply Forall_cons_2; [vm_compute; repeat split; try discriminate; lia|].
    apply Forall_cons_2; [exact I|]. apply Forall_nil_2.
Defined.

(** X10: after a write-mix of [n] frames, each of the last
    [kRingBufferSize] samples of the host buffer sits in the ring at its
    position after the old write position, scaled by the output volume; a
    write longer than the ring keeps the newest samples. *)
Theorem X10_WriteMix_newest_samples_win s n buffer (i : nat) x :
  ring_ok s ->
  0 <= n -> n * kChannelsPerFrame < UInt32_modulus ->
  (Z.to_nat (n * kChannelsPerFrame) <= length buffer)%nat ->
  n * kChannelsPerFrame - kRingBufferSize <= Z.of_nat i < n * kChannelsPerFrame ->
  buffer !! i = Some x ->
  exists s' rb',
    SurgeAudioDriver_DoIOOperation kAudioServerPlugInIOOperationWriteMix n buffer s
      = Some (noErr, buffer, s')
    /\ ringBuffer s' = Some rb'
    /\ rb' !! Z.to_nat ((ringBufferWritePosition s + Z.of_nat i) mod kRingBufferSize)
       = Some (F32.mul x (outputVolume s)).
Proof.
  intros ((rb & Hrb & Hrlen) & Hw & Hr) Hn Hlt Hlen Hi Hx.
  pose proof kRingBufferSize_pos as Hpos.
  do 2 eexists.
  split; [exact (DoIOOperation_WriteMix s rb n buffer Hrb Hrlen Hw Hn Hlt Hlen)|].
  split; [reflexivity|].
  set (N := Z.to_nat (n * kChannelsPerFrame)) in *.
  set (xs := map (fun x => F32.mul x (outputVolume s)) (take N buffer)).
  assert (Hxs : length xs = N).
  { unfold xs. rewrite length_map, length_take. lia. }
  assert (Hxi : xs !! i = Some (F32.mul x (outputVolume s))).
  { unfold xs. rewrite list_lookup_fmap, lookup_take_lt by lia. now rewrite Hx. }
  set (a := (N - Z.to_nat kRingBufferSize)%nat).
  rewrite <- (take_drop a xs), ring_store_app.
  assert (Ha : (a <= i)%nat) by lia.
  rewrite length_take, Hxs.
  replace (Z.of_nat (a `min` N)) with (Z.of_nat a) by lia.
  replace (ringBufferWritePosition s + Z.of_nat i)
    with (ringBufferWritePosition s + Z.of_nat a + Z.of_nat (i - a)) by lia.
  apply ring_store_lookup.
  - now rewrite ring_store_length.
  - rewrite length_drop, Hxs. lia.
  - rewrite lookup_drop. replace (a + (i - a))%nat with i by lia. exact Hxi.
Qed.

Lemma X10_WriteMix_newest_samples_win_witness :
  exists s' rb',
    SurgeAudioDriver_DoIOOperation kAudioServerPlugInIOOperationWriteMix 1
      [F32_half; F32_quarter] gDriverState_loaded
      = Some (noErr, [F32_half; F32_quarter], s')
    /\ ringBuffer s' = Some rb'
    /\ rb' !! Z.to_nat ((ringBufferWritePosition gDriverState_loaded + Z.of_nat 1)
                          mod kRingBufferSize)
       = Some (F32.mul F32_quarter (outputVolume gDriverState_loaded)).
Proof.
  apply (X10_WriteMix_newest_samples_win gDriverState_loaded 1 [F32_half; F32_quarter]
           1%nat F32_quarter).
  - ring_ok_loaded.
  - discriminate.
  - reflexivity.
  - vm_compute. lia.
  - vm_compute. split; [discriminate | reflexivity].
  - reflexivity.
Defined.

Lemma F32_mul_zero_l y :
  F32_is_finite y -> F32_is_zero (F32.mul F32.zero y).
Proof.
  destruct y; cbn; try contradiction; intros _; exact I.
Qed.

Lemma ring_load_replicate_zero count : forall p n,
  ring_load p count (replicate n F32.zero) = replicate count F32.zero.
Proof.
  induction count as [|count IH]; intros p n; cbn [ring_load replicate]; [reflexivity|].
  rewrite IH. f_equal.
  destruct (replicate n F32.zero !! Z.to_nat (p mod kRingBufferSize)) eqn:E; [|reflexivity].
  apply lookup_replicate in E as [-> _]. reflexivity.
Qed.

(** X11: [StartIO] on a stopped device discards what the ring held: with a
    finite input volume, every sample a following read-input returns is
    zero, whatever was written before the start. *)
Theorem X11_StartIO_discards_ring now s n host :
  ring_ok s ->
  deviceIsRunning s = false ->
  F32_is_finite (inputVolume s) ->
  0 <= n -> n * kChannelsPerFrame < UInt32_modulus ->
  (Z.to_nat (n * kChannelsPerFrame) <= length host)%nat ->
  exists s1 out s2,
    SurgeAudioDriver_StartIO now s = Some (noErr, s1)
    /\ SurgeAudioDriver_DoIOOperation kAudioServerPlugInIOOperationReadInput n host s1
       = Some (noErr, out, s2)
    /\ length out = length host
    /\ Forall F32_is_zero (take (Z.to_nat (n * kChannelsPerFrame)) out).
Proof.
  intros ((rb & Hrb & Hrlen) & Hw & Hr) Hrun Hfin Hn Hlt Hlen.
  pose proof kRingBufferSize_pos as Hpos.
  set (zeros := replicate (Z.to_nat kRingBufferSize) F32.zero).
  set (s1 := set_ringBufferReadPosition 0
               (set_ringBufferWritePosition 0
                  (set_ringBuffer (Some zeros)
                     (set_deviceIsRunning true
                        (set_anchorSampleTime F64.zero (set_anchorHostTime now s)))))).
  assert (Hrb1 : ringBuffer s1 = Some zeros) by reflexivity.
  assert (Hr1 : ringBufferReadPosition s1 = 0) by reflexivity.
  assert (Hv1 : inputVolume s1 = inputVolume s) by reflexivity.
  assert (Hz : length zeros = Z.to_nat kRingBufferSize) by apply length_replicate.
  assert (Hr1' : 0 <= ringBufferReadPosition s1 < kRingBufferSize) by (rewrite Hr1; lia).
  pose proof (DoIOOperation_ReadInput s1 zeros n host Hrb1 Hz Hr1' Hn Hlt Hlen) as Hread.
  exists s1. eexists. eexists.
  split; [exact (StartIO_not_running now s rb Hrb Hrlen Hrun)|].
  split; [exact Hread|].
  rewrite Hv1, Hr1. unfold zeros. rewrite ring_load_replicate_zero.
  split.
  { rewrite length_app, length_map, length_replicate, length_drop. lia. }
  rewrite take_app_le by (rewrite length_map, length_replicate; lia).
  rewrite take_ge by (rewrite length_map, length_replicate; lia).
  apply Forall_fmap, Forall_replicate. now apply F32_mul_zero_l.
Qed.

Lemma X11_StartIO_discards_ring_witness :
  exists s1 out s2,
    SurgeAudioDriver_StartIO 1000 gDriverState_loaded = Some (noErr, s1)
    /\ SurgeAudioDriver_DoIOOperation kAudioServerPlugInIOOperationReadInput 1
         [F32_half; F32_half] s1 = Some (noErr, out, s2)
    /\ length out = length [F32_half; F32_half]
    /\ Forall F32_is_zero (take (Z.to_nat (1 * kChannelsPerFrame)) out).
Proof.
  apply (X11_StartIO_discards_ring 1000 gDriverState_loaded 1 [F32_half; F32_half]).
  - ring_ok_loaded.
  - vm_compute. reflexivity.
  - vm_compute. exact I.
  - discriminate.
  - reflexivity.
  - vm_compute. lia.
Defined.

(** ** Reference counting and lifecycle *)

Lemma Release_AddRef d :
  0 < gDriverRefCount d -> gDriverRefCount d + 1 < UInt32_modulus ->
  (SurgeAudioDriver_Release (SurgeAudioDriver_AddRef d).2).2 = d.
Proof.
  intros Hlo Hhi. destruct d as [s c log]. cbn in *.
  unfold SurgeAudioDriver_Release, SurgeAudioDriver_AddRef. cbn.
  rewrite (UInt32_wrap_small (c + 1)) by lia.
  destruct (0 <? c + 1) eqn:E; [|apply Z.ltb_ge in E; lia].
  cbn. replace (c + 1 - 1) with c by lia.
  rewrite UInt32_wrap_small by lia.
  destruct (c =? 0) eqn:E0; [apply Z.eqb_eq in E0; lia|]. reflexivity.
Qed.

Lemma AddRef_times_count k : forall d,
  0 <= gDriverRefCount d -> gDriverRefCount d + Z.of_nat k < UInt32_modulus ->
  gDriverRefCount (AddRef_times k d) = gDriverRefCount d + Z.of_nat k.
Proof.
  induction k as [|k IH]; intros d Hlo Hhi; cbn [AddRef_times]; [lia|].
  rewrite IH; destruct d as [s c log]; cbn in *; rewrite UInt32_wrap_small by lia; lia.
Qed.

Lemma AddRef_times_S k : forall d,
  AddRef_times (S k) d = (SurgeAudioDriver_AddRef (AddRef_times k d)).2.
Proof.
  induction k as [|k IH]; intros d; [reflexivity|].
  change (AddRef_times (S (S k)) d) with (AddRef_times (S k) (SurgeAudioDriver_AddRef d).2).
  rewrite IH. reflexivity.
Qed.

(** X12: on a driver that is referenced, [k] calls of [AddRef] followed by
    [k] calls of [Release] give back the driver as it was: count, state and
    allocations, with no cleanup on the way, as long as the count stays
    below [2^32]. *)
Theorem X12_Release_undoes_AddRef k : forall d,
  0 < gDriverRefCount d -> gDriverRefCount d + Z.of_nat k < UInt32_modulus ->
  Release_times k (AddRef_times k d) = d.
Proof.
  induction k as [|k IH]; intros d Hlo Hhi; [reflexivity|].
  rewrite AddRef_times_S. cbn [Release_times].
  rewrite Release_AddRef.
  - apply IH; lia.
  - rewrite AddRef_times_count; lia.
  - rewrite AddRef_times_count; lia.
Qed.

Lemma X12_Release_undoes_AddRef_witness :
  Release_times 3 (AddRef_times 3 Driver_loaded) = Driver_loaded.
Proof.
  apply (X12_Release_undoes_AddRef 3 Driver_loaded).
  - reflexivity.
  - reflexivity.
Defined.

(** X13: [SurgeAudioDriver_QueryInterface] answers [S_OK] exactly for two
    identifiers: the sixteen bytes of 443ABAB8-E7B3-491A-B985-BEB9187030DB,
    which it names [audioPlugInInterfaceUUID] and which are the identifier
    the factory compares the plug-in type with, and those of [IUnknown]. It
    then hands out the driver and adds one reference, which one [Release]
    gives back. For every other identifier it stores [NULL] and leaves the
    driver as it was; the identifier of the driver interface,
    EEA5773D-CC43-49F1-8E00-8F96E7D23B17, is among those. *)
Theorem X13_QueryInterface_then_Release uuid d hr isDriver d' :
  0 < gDriverRefCount d -> gDriverRefCount d + 1 < UInt32_modulus ->
  SurgeAudioDriver_QueryInterface uuid true d = Some (hr, isDriver, d') ->
  (hr = S_OK <-> uuid = audioPlugInInterfaceUUID \/ uuid = iUnknownUUID)
  /\ (hr = S_OK ->
      isDriver = true /\ gDriverRefCount d' = gDriverRefCount d + 1
      /\ (SurgeAudioDriver_Release d').2 = d)
  /\ (hr <> S_OK -> hr = E_NOINTERFACE /\ isDriver = false /\ d' = d)
  /\ SurgeAudioDriver_QueryInterface kAudioServerPlugInDriverInterfaceUUID true d
     = Some (E_NOINTERFACE, false, d).
Proof.
  intros Hlo Hhi Hq.
  assert (Hmain :
    (hr = S_OK <-> uuid = audioPlugInInterfaceUUID \/ uuid = iUnknownUUID)
    /\ (hr = S_OK ->
        isDriver = true /\ gDriverRefCount d' = gDriverRefCount d + 1
        /\ (SurgeAudioDriver_Release d').2 = d)
    /\ (hr <> S_OK -> hr = E_NOINTERFACE /\ isDriver = false /\ d' = d)).
  { revert Hq. unfold SurgeAudioDriver_QueryInterface.
    destruct (bool_decide (uuid = audioPlugInInterfaceUUID)) eqn:E1;
      [|destruct (bool_decide (uuid = iUnknownUUID)) eqn:E2]; cbn [orb];
      intros [= <- <- <-].
    - apply bool_decide_eq_true in E1.
      repeat split; auto; try congruence.
      + destruct d as [s c log]; cbn in *. apply UInt32_wrap_small; lia.
      + now apply Release_AddRef.
    - apply bool_decide_eq_true in E2.
      repeat split; auto; try congruence.
      + destruct d as [s c log]; cbn in *. apply UInt32_wrap_small; lia.
      + now apply Release_AddRef.
    - apply bool_decide_eq_false in E1, E2.
      repeat split; try congruence. intros [?|?]; contradiction. }
  destruct Hmain as (H1 & H2 & H3).
  split; [exact H1|]. split; [exact H2|]. split; [exact H3|]. reflexivity.
Qed.

Lemma X13_QueryInterface_then_Release_witness :
  let d := {| gDriverState := gDriverState_static; gDriverRefCount := 1; gLibcCalls := [] |} in
  let d' := {| gDriverState := gDriverState_static; gDriverRefCount := 2; gLibcCalls := [] |} in
  (S_OK = S_OK <-> iUnknownUUID = audioPlugInInterfaceUUID \/ iUnknownUUID = iUnknownUUID)
  /\ (S_OK = S_OK ->
      true = true /\ gDriverRefCount d' = gDriverRefCount d + 1
      /\ (SurgeAudioDriver_Release d').2 = d)
  /\ (S_OK <> S_OK -> S_OK = E_NOINTERFACE /\ true = false /\ d' = d)
  /\ SurgeAudioDriver_QueryInterface kAudioServerPlugInDriverInterfaceUUID true d
     = Some (E_NOINTERFACE, false, d).
Proof.
  apply (X13_QueryInterface_then_Release iUnknownUUID
           {| gDriverState := gDriverState_static; gDriverRefCount := 1; gLibcCalls := [] |}
           S_OK true
           {| gDriverState := gDriverState_static; gDriverRefCount := 2; gLibcCalls := [] |}).
  - reflexivity.
  - reflexivity.
  - vm_compute. reflexivity.
Defined.

Lemma InitializeDriverState_ring_ok timebase s t :
  ticksPerFrame_of timebase kSampleRate_Default = Some t ->
  exists s',
    InitializeDriverState timebase s = Some s'
    /\ ring_ok s'
    /\ deviceIsRunning s' = false
    /\ inputVolume s' = F32.one /\ outputVolume s' = F32.one
    /\ ticksPerFrame s' = t.
Proof.
  intros Ht. unfold InitializeDriverState.
  set (zeros := replicate (Z.to_nat kRingBufferSize) F32.zero).
  assert (Hz : length zeros = Z.to_nat kRingBufferSize) by apply length_replicate.
  clearbody zeros.
  cbn. rewrite Ht. cbn.
  eexists. split; [reflexivity|].
  pose proof kRingBufferSize_pos.
  repeat split; cbn; try lia.
  eexists. split; [reflexivity|exact Hz].
Qed.

(** X15: the factory, asked for the plug-in type, leaves one reference and
    a stopped device whose ring buffer is allocated; the one [Release] that
    follows brings the count to zero, frees the ring exactly once and
    destroys the mutex, and a [StartIO] after it has no defined result
    (it clears the ring through the null pointer). *)
Theorem X15_Factory_then_Release timebase d t :
  ticksPerFrame_of timebase kSampleRate_Default = Some t ->
  exists d1,
    SurgeAudioDriverPlugInFactory true timebase d = Some (true, d1)
    /\ gDriverRefCount d1 = 1
    /\ ring_ok (gDriverState d1)
    /\ deviceIsRunning (gDriverState d1) = false
    /\ gDriverRefCount (SurgeAudioDriver_Release d1).2 = 0
    /\ ringBuffer (gDriverState (SurgeAudioDriver_Release d1).2) = None
    /\ gLibcCalls (SurgeAudioDriver_Release d1).2
       = gLibcCalls d ++ [call_free; call_pthread_mutex_destroy]
    /\ forall now,
         SurgeAudioDriver_StartIO now (gDriverState (SurgeAudioDriver_Release d1).2) = None.
Proof.
  intros Ht.
  destruct (InitializeDriverState_ring_ok timebase (gDriverState d) t Ht)
    as (s' & Hinit & Hok & Hrun & _).
  unfold SurgeAudioDriverPlugInFactory. rewrite Hinit. cbn [mbind option_bind].
  eexists. split; [reflexivity|].
  destruct Hok as ((rb & Hrb & Hrlen) & Hw & Hr).
  destruct d as [s c log].
  cbn [gDriverState gDriverRefCount gLibcCalls set_gDriverRefCount set_gDriverState].
  split; [reflexivity|].
  split; [repeat split; try lia; eexists; split; [exact Hrb|exact Hrlen]|].
  split; [exact Hrun|].
  unfold SurgeAudioDriver_Release, CleanupDriverState. cbn. rewrite Hrb.
  change (UInt32_wrap (1 - 1)) with 0. cbn.
  split; [reflexivity|]. split; [reflexivity|].
  split; [now rewrite <- app_assoc|].
  intros now. unfold SurgeAudioDriver_StartIO. cbn. rewrite Hrun. reflexivity.
Qed.

Lemma X15_Factory_then_Release_witness :
  exists d1,
    SurgeAudioDriverPlugInFactory true timebase_arm64 Driver_static = Some (true, d1)
    /\ gDriverRefCount d1 = 1
    /\ ring_ok (gDriverState d1)
    /\ deviceIsRunning (gDriverState d1) = false
    /\ gDriverRefCount (SurgeAudioDriver_Release d1).2 = 0
    /\ ringBuffer (gDriverState (SurgeAudioDriver_Release d1).2) = None
    /\ gLibcCalls (SurgeAudioDriver_Release d1).2
       = gLibcCalls Driver_static ++ [call_free; call_pthread_mutex_destroy]
    /\ forall now,
         SurgeAudioDriver_StartIO now (gDriverState (SurgeAudioDriver_Release d1).2) = None.
Proof.
  apply (X15_Factory_then_Release timebase_arm64 Driver_static 500).
  vm_compute. reflexivity.
Defined.

(** ** Zero time stamps *)



(** * Further properties of the shared-memory variant *)

Import AudioDriverShm.

(** ** Property tables *)

(** X16: [AudioDriver_HasProperty] answers success exactly for the
    properties [AudioDriver_GetPropertyData] has a case for together with
    the selectors of [advertised_only]; for those selectors the getter
    answers with the unknown-property error and stores nothing. *)
Theorem X16_answered_iff_advertised g in_object_id in_address in_data_size cap
    out_data settable r :
  AudioDriver.AudioDriver_GetPropertyData g in_object_id (Some in_address) in_data_size
    (Some cap) out_data = Some r ->
  ((AudioDriver_HasProperty g in_object_id (Some in_address) settable).1 = noErr
   <-> get_status r <> kAudioHardwareUnknownPropertyError
       \/ advertised_only g in_object_id (mSelector in_address) = true)
  /\ (advertised_only g in_object_id (mSelector in_address) = true ->
      r = failed kAudioHardwareUnknownPropertyError).
Proof.
  unfold AudioDriver.AudioDriver_GetPropertyData, AudioDriver_HasProperty, advertised_only.
  destruct in_address as [sel sc el]. cbn [mSelector fst].
  destruct (in_object_id =? kAudioObjectPlugInObject);
    [|destruct (in_object_id =? AudioDriver.device_object_id g)].
  - unfold AudioDriver.GetPlugInPropertyData, HasPlugInProperty, AudioDriver.PlugIn_case.
    cbn [mSelector].
    destruct sel; destruct out_data; cbn; try destruct (_ <=? cap); intros [= <-]; cbn;
      (split; [split; [intros; try (left; discriminate); try (right; reflexivity);
                       try discriminate
                      | intros [?|?]; congruence]
              | intros; congruence]).
  - unfold AudioDriver.GetDevicePropertyData, HasDeviceProperty, AudioDriver.Device_case.
    cbn [mSelector].
    destruct sel; destruct out_data; cbn; try destruct (_ <=? cap); intros [= <-]; cbn;
      (split; [split; [intros; try (left; discriminate); try (right; reflexivity);
                       try discriminate
                      | intros [?|?]; congruence]
              | intros; congruence]).
  - unfold AudioDriver.GetStreamPropertyData, HasStreamProperty, AudioDriver.Device_case.
    cbn [mSelector].
    destruct sel; destruct out_data; cbn; try destruct (_ <=? cap); intros [= <-]; cbn;
      (split; [split; [intros; try (left; discriminate); try (right; reflexivity);
                       try discriminate
                      | intros [?|?]; congruence]
              | intros; congruence]).
Qed.

Lemma X16_answered_iff_advertised_witness :
  ((AudioDriver_HasProperty g_driver_state_initialized 100
      (Some (address_of kAudioDevicePropertyStreams)) true).1 = noErr
   <-> get_status (failed kAudioHardwareUnknownPropertyError)
       <> kAudioHardwareUnknownPropertyError
       \/ advertised_only g_driver_state_initialized 100
            (mSelector (address_of kAudioDevicePropertyStreams)) = true)
  /\ (advertised_only g_driver_state_initialized 100
        (mSelector (address_of kAudioDevicePropertyStreams)) = true ->
      failed kAudioHardwareUnknownPropertyError
      = failed kAudioHardwareUnknownPropertyError).
Proof.
  apply (X16_answered_iff_advertised g_driver_state_initialized 100
           (address_of kAudioDevicePropertyStreams) 8 8 true true).
  reflexivity.
Defined.

(** X17: when the size query of a property answers [n], the getter given a
    buffer of at least [n] bytes stores a datum of exactly [n] bytes and
    reports [n]; given less, it stores nothing, and reports the
    bad-property-size error on the plug-in object but success with the
    size on the device and on a stream. *)
Theorem X17_size_query_then_get g in_object_id in_address cap0 n in_data_size cap :
  AudioDriver_GetPropertyDataSize g in_object_id (Some in_address) (Some cap0)
    = Some (AudioDriver.size_only n) ->
  (n <= cap ->
   exists d,
     AudioDriver.AudioDriver_GetPropertyData g in_object_id (Some in_address) in_data_size
       (Some cap) true = Some (stored d n)
     /\ PropertyData_bytes d = n)
  /\ (cap < n ->
      AudioDriver.AudioDriver_GetPropertyData g in_object_id (Some in_address) in_data_size
        (Some cap) true
      = Some (if in_object_id =? kAudioObjectPlugInObject
              then failed kAudioHardwareBadPropertySizeError
              else AudioDriver.size_only n)).
Proof.
  unfold AudioDriver.AudioDriver_GetPropertyData, AudioDriver_GetPropertyDataSize.
  destruct in_address as [sel sc el].
  destruct (in_object_id =? kAudioObjectPlugInObject);
    [|destruct (in_object_id =? AudioDriver.device_object_id g)].
  - unfold AudioDriver.GetPlugInPropertyData, AudioDriver.PlugIn_case. cbn [mSelector].
    destruct sel; cbn; try discriminate; intros [= <-];
      (split; intros H;
       [ eexists; rewrite (proj2 (Z.leb_le _ _) H); split; reflexivity
       | rewrite (proj2 (Z.leb_gt _ _) H); reflexivity ]).
  - unfold AudioDriver.GetDevicePropertyData, AudioDriver.Device_case. cbn [mSelector].
    destruct sel; cbn; try discriminate; intros [= <-];
      (split; intros H;
       [ eexists; rewrite (proj2 (Z.leb_le _ _) H); split; reflexivity
       | rewrite (proj2 (Z.leb_gt _ _) H); reflexivity ]).
  - unfold AudioDriver.GetStreamPropertyData, AudioDriver.Device_case. cbn [mSelector].
    destruct sel; cbn; try discriminate; intros [= <-];
      (split; intros H;
       [ eexists; rewrite (proj2 (Z.leb_le _ _) H); split; reflexivity
       | rewrite (proj2 (Z.leb_gt _ _) H); reflexivity ]).
Qed.

Lemma X17_size_query_then_get_witness :
  (8 <= 8 ->
   exists d,
     AudioDriver.AudioDriver_GetPropertyData g_driver_state_initialized 100
       (Some (address_of kAudioDevicePropertyNominalSampleRate)) 8 (Some 8) true
     = Some (stored d 8)
     /\ PropertyData_bytes d = 8)
  /\ (8 < 8 ->
      AudioDriver.AudioDriver_GetPropertyData g_driver_state_initialized 100
        (Some (address_of kAudioDevicePropertyNominalSampleRate)) 8 (Some 8) true
      = Some (if 100 =? kAudioObjectPlugInObject
              then failed kAudioHardwareBadPropertySizeError
              else AudioDriver.size_only 8)).
Proof.
  apply (X17_size_query_then_get g_driver_state_initialized 100
           (address_of kAudioDevicePropertyNominalSampleRate) 0 8 8 8).
  reflexivity.
Defined.

(** X18: [AudioDriver_SetPropertyData] given a [UInt32] succeeds exactly
    for the running flag of the device with at least four bytes of data;
    it then sets the capture flag and the ring's active flag to whether the
    value is non-zero and nothing else; every other call returns the
    illegal-operation error and changes nothing. *)
Theorem X18_SetPropertyData_only_IsRunning in_object_id in_address in_data_size v w :
  exists st w',
    AudioDriver_SetPropertyData in_object_id (Some in_address) in_data_size (PD_UInt32 v) w
      = Some (st, w')
    /\ (st = noErr <->
        in_object_id = AudioDriver.device_object_id (g_driver_state w)
        /\ mSelector in_address = kAudioDevicePropertyDeviceIsRunning
        /\ sizeof_UInt32 <= in_data_size)
    /\ (st <> noErr -> st = kAudioHardwareIllegalOperationError /\ w' = w)
    /\ (st = noErr ->
        AudioDriver.is_capture_active (g_driver_state w') = negb (v =? 0)
        /\ shared_memory w' = store_active (negb (v =? 0)) (shared_memory w)
        /\ AudioDriver.device_object_id (g_driver_state w')
           = AudioDriver.device_object_id (g_driver_state w)
        /\ AudioDriver.nominal_sample_rate (g_driver_state w')
           = AudioDriver.nominal_sample_rate (g_driver_state w)
        /\ AudioDriver.is_device_created (g_driver_state w')
           = AudioDriver.is_device_created (g_driver_state w)).
Proof.
  unfold AudioDriver_SetPropertyData.
  destruct in_address as [sel sc el]. cbn [mSelector].
  destruct (in_object_id =? _) eqn:E.
  - apply Z.eqb_eq in E.
    destruct sel;
      try (do 2 eexists; split; [reflexivity|];
           split; [split; [discriminate | intros (_ & ? & _); discriminate]|];
           split; [intros _; split; reflexivity | discriminate]).
    destruct (sizeof_UInt32 <=? in_data_size) eqn:Es.
    + apply Z.leb_le in Es. do 2 eexists. split; [reflexivity|].
      split; [split; [intros _; repeat split; auto | reflexivity]|].
      split; [congruence|]. intros _. repeat split.
    + apply Z.leb_gt in Es. do 2 eexists. split; [reflexivity|].
      split; [split; [discriminate | intros (_ & _ & ?); lia]|].
      split; [intros _; split; reflexivity | discriminate].
  - apply Z.eqb_neq in E. do 2 eexists. split; [reflexivity|].
    split; [split; [discriminate | intros (? & _); contradiction]|].
    split; [intros _; split; reflexivity | discriminate].
Qed.

(** X19: the one property that [AudioDriver_IsPropertySettable] reports
    settable besides the running flag is the nominal sample rate of the
    device; [AudioDriver_HasProperty] reports it settable as well, yet
    [AudioDriver_SetPropertyData] rejects it with the illegal-operation
    error, whatever the data, and changes nothing. *)
Theorem X19_settable_but_rejected in_object_id in_address in_data_size in_data w :
  (AudioDriver_IsPropertySettable (g_driver_state w) in_object_id (Some in_address) true).2
    = Some true ->
  mSelector in_address <> kAudioDevicePropertyDeviceIsRunning ->
  mSelector in_address = kAudioDevicePropertyNominalSampleRate
  /\ in_object_id = AudioDriver.device_object_id (g_driver_state w)
  /\ AudioDriver_HasProperty (g_driver_state w) in_object_id (Some in_address) true
     = (noErr, Some true)
  /\ AudioDriver_SetPropertyData in_object_id (Some in_address) in_data_size in_data w
     = Some (kAudioHardwareIllegalOperationError, w).
Proof.
  unfold AudioDriver_IsPropertySettable, AudioDriver_HasProperty, AudioDriver_SetPropertyData.
  destruct in_address as [sel sc el]. cbn [mSelector snd].
  destruct (in_object_id =? kAudioObjectPlugInObject); [discriminate|].
  destruct (in_object_id =? _) eqn:E; [|discriminate].
  apply Z.eqb_eq in E.
  destruct sel; cbn; try discriminate; try congruence.
  intros _ _. repeat split. exact E.
Qed.

Lemma X19_settable_but_rejected_witness :
  mSelector (address_of kAudioDevicePropertyNominalSampleRate)
    = kAudioDevicePropertyNominalSampleRate
  /\ 0 = AudioDriver.device_object_id (g_driver_state Globals_static)
  /\ AudioDriver_HasProperty (g_driver_state Globals_static) 0
       (Some (address_of kAudioDevicePropertyNominalSampleRate)) true
     = (noErr, Some true)
  /\ AudioDriver_SetPropertyData 0
       (Some (address_of kAudioDevicePropertyNominalSampleRate)) sizeof_Float64
       (PD_Float64 F64_22050) Globals_static
     = Some (kAudioHardwareIllegalOperationError, Globals_static).
Proof.
  apply (X19_settable_but_rejected 0 (address_of kAudioDevicePropertyNominalSampleRate)
           sizeof_Float64 (PD_Float64 F64_22050) Globals_static).
  - reflexivity.
  - discriminate.
Defined.

(** ** The capture flag *)

Lemma run_FlagCall_ring_mirrors buf c w :
  ring_mirrors buf w -> ring_mirrors buf (run_FlagCall c w).
Proof.
  intros (r & Hm & Ha & Hb & Hw & Hr).
  destruct c as [| | | |v]; cbn; rewrite ?Z.eqb_refl; cbn; rewrite ?Hm; cbn;
    try (eexists; split; [reflexivity|]; cbn; repeat split; assumption).
Qed.

Lemma Initialize_ring_mirrors buf w0 cs :
  ring_mirrors buf (run_FlagCalls cs (AudioDriver_Initialize (Some buf) w0).2).
Proof.
  assert (H0 : ring_mirrors buf (AudioDriver_Initialize (Some buf) w0).2).
  { eexists. split; [reflexivity|]. repeat split. }
  revert H0. generalize (AudioDriver_Initialize (Some buf) w0).2 as w.
  induction cs as [|c cs IH]; intros w Hw; cbn [run_FlagCalls]; [exact Hw|].
  apply IH, run_FlagCall_ring_mirrors, Hw.
Qed.

(** X20: when the mapping succeeds [AudioDriver_Initialize] returns the
    driver, and after every sequence of [StartIO], [StopIO], [AddDevice],
    [RemoveDevice] and running-flag sets the ring's active flag equals the
    driver's capture flag, with the samples and both positions of the ring
    untouched; when the mapping fails it returns [NULL] and no such
    sequence ever provides a ring. *)
Theorem X20_active_mirrors_capture_flag buf w0 cs :
  (AudioDriver_Initialize (Some buf) w0).1 = true
  /\ ring_mirrors buf (run_FlagCalls cs (AudioDriver_Initialize (Some buf) w0).2)
  /\ (AudioDriver_Initialize None w0).1 = false
  /\ shared_memory (run_FlagCalls cs (AudioDriver_Initialize None w0).2) = None.
Proof.
  split; [reflexivity|]. split; [apply Initialize_ring_mirrors|]. split; [reflexivity|].
  assert (H0 : shared_memory (AudioDriver_Initialize None w0).2 = None) by reflexivity.
  revert H0. generalize (AudioDriver_Initialize None w0).2 as w.
  induction cs as [|c cs IH]; intros w Hw; cbn [run_FlagCalls]; [exact Hw|].
  apply IH. destruct c; cbn; rewrite ?Z.eqb_refl; cbn; rewrite ?Hw; reflexivity.
Qed.

(** X21: whenever, after initialisation and any sequence of flag calls,
    the driver's capture flag is off, [AudioDriver_WriteToRingBuffer] on
    the shared ring returns success and leaves the ring as it is, whatever
    the buffer list holds. *)
Theorem X21_no_capture_when_stopped buf w0 cs abl :
  let w := run_FlagCalls cs (AudioDriver_Initialize (Some buf) w0).2 in
  AudioDriver.is_capture_active (g_driver_state w) = false ->
  exists r,
    shared_memory w = Some r
    /\ AudioDriver_WriteToRingBuffer (Some r) (Some abl) = Some (noErr, Some r).
Proof.
  intros w Hoff.
  destruct (Initialize_ring_mirrors buf w0 cs) as (r & Hm & Ha & _).
  exists r. split; [exact Hm|].
  unfold AudioDriver_WriteToRingBuffer. fold w in Ha. rewrite Ha, Hoff. reflexivity.
Qed.

Lemma X21_no_capture_when_stopped_witness :
  exists r,
    shared_memory (run_FlagCalls [Flag_StartIO; Flag_SetIsRunning 0]
                     (AudioDriver_Initialize (Some [F32_half]) Globals_static).2) = Some r
    /\ AudioDriver_WriteToRingBuffer (Some r)
         (Some (buffer_list_of 8 [F32_half; F32_quarter])) = Some (noErr, Some r).
Proof.
  apply (X21_no_capture_when_stopped [F32_half] Globals_static
           [Flag_StartIO; Flag_SetIsRunning 0] (buffer_list_of 8 [F32_half; F32_quarter])).
  reflexivity.
Defined.

(** ** Downmix and capture *)

Lemma RING_BUFFER_FRAMES_eq : RING_BUFFER_FRAMES = 96000.
Proof. reflexivity. Qed.

Lemma downmix_length n : forall stereo,
  length stereo = (2 * n)%nat -> length (downmix stereo) = n.
Proof.
  induction n as [|n IH]; intros stereo Hn.
  - destruct stereo; [reflexivity|discriminate Hn].
  - destruct stereo as [|l [|r rest]]; cbn in Hn; try lia.
    cbn [downmix length]. f_equal. apply IH. lia.
Qed.

Lemma downmix_cons2 l r rest :
  downmix (l :: r :: rest) = F32.mul (F32_add l r) F32_half :: downmix rest.
Proof. reflexivity. Qed.

Lemma downmix_lookup stereo : forall i l r,
  stereo !! (2 * i)%nat = Some l -> stereo !! S (2 * i) = Some r ->
  downmix stereo !! i = Some (F32.mul (F32_add l r) F32_half).
Proof.
  intros i. revert stereo.
  induction i as [|i IH]; intros stereo l r Hl Hr.
  - destruct stereo as [|a [|b rest]]; cbn in *; try discriminate. congruence.
  - replace (2 * S i)%nat with (S (S (2 * i))) in Hl, Hr by lia.
    destruct stereo as [|a [|b rest]]; try discriminate Hl.
    rewrite downmix_cons2. cbn [lookup list_lookup].
    apply IH; [exact Hl|exact Hr].
Qed.

Lemma drop_two_lookups {A} (xs : list A) k a b :
  xs !! k = Some a -> xs !! S k = Some b ->
  drop k xs = a :: b :: drop (S (S k)) xs.
Proof.
  intros Ha Hb.
  rewrite (drop_S xs a k Ha). f_equal. now rewrite (drop_S xs b (S k) Hb).
Qed.

Lemma Downmix_loop_spec count : forall i stereo mono,
  (2 * (i + count) <= length stereo)%nat ->
  (i + count <= length mono)%nat ->
  2 * Z.of_nat (i + count) <= UInt32_modulus ->
  Downmix_loop count i stereo mono
  = Some (take i mono ++ downmix (take (2 * count) (drop (2 * i) stereo))
          ++ drop (i + count) mono).
Proof.
  induction count as [|count IH]; intros i stereo mono Hs Hm Hw.
  - cbn [Downmix_loop]. rewrite Nat.add_0_r, Nat.mul_0_r.
    rewrite take_0. cbn [downmix app]. now rewrite take_drop.
  - cbn [Downmix_loop].
    assert (Hi0 : Z.to_nat (UInt32_wrap (Z.of_nat i * 2)) = (2 * i)%nat).
    { rewrite UInt32_wrap_small by lia. lia. }
    assert (Hi1 : Z.to_nat (UInt32_wrap (Z.of_nat i * 2 + 1)) = S (2 * i)).
    { rewrite UInt32_wrap_small by lia. lia. }
    rewrite Hi0, Hi1.
    destruct (lookup_lt_is_Some_2 stereo (2 * i)) as [l Hl]; [lia|].
    destruct (lookup_lt_is_Some_2 stereo (S (2 * i))) as [r Hr]; [lia|].
    rewrite Hl, Hr. cbn [mbind option_bind].
    destruct (decide (i < length mono)%nat) as [Hlt|]; [|lia].
    rewrite IH; [|lia|rewrite length_insert; lia|lia].
    f_equal.
    rewrite (drop_two_lookups stereo (2 * i) l r Hl Hr).
    replace (2 * S count)%nat with (S (S (2 * count))) by lia.
    cbn [take]. rewrite downmix_cons2.
    replace (2 * S i)%nat with (S (S (2 * i))) by lia.
    replace (S i + count)%nat with (i + S count)%nat by lia.
    rewrite take_S_r with (x := F32.mul (F32_add l r) F32_half)
      by (apply list_lookup_insert_eq; lia).
    rewrite take_insert_ge by lia.
    rewrite drop_insert_lt by lia.
    rewrite <- app_assoc. reflexivity.
Qed.

Lemma DownmixStereoToMono_spec stereo mono frame_count :
  0 < frame_count -> 2 * frame_count <= UInt32_modulus ->
  (2 * Z.to_nat frame_count <= length stereo)%nat ->
  (Z.to_nat frame_count <= length mono)%nat ->
  AudioDriver_DownmixStereoToMono (Some stereo) (Some mono) frame_count
  = Some (noErr, Some (downmix (take (2 * Z.to_nat frame_count) stereo)
                       ++ drop (Z.to_nat frame_count) mono)).
Proof.
  intros Hpos Hw Hs Hm. unfold AudioDriver_DownmixStereoToMono.
  destruct (frame_count =? 0) eqn:E; [apply Z.eqb_eq in E; lia|].
  rewrite Downmix_loop_spec by lia. reflexivity.
Qed.

(** X22: [AudioDriver_DownmixStereoToMono] on [frame_count] interleaved
    frames replaces the first [frame_count] entries of the output by the
    halved sums of the channel pairs, in order, and leaves the rest of the
    output as it was; frame [i] of the result is
    [(stereo[2i] + stereo[2i+1]) * 0.5]. *)
Theorem X22_Downmix_closed_form stereo mono frame_count (i : nat) l r :
  0 < frame_count -> 2 * frame_count <= UInt32_modulus ->
  (2 * Z.to_nat frame_count <= length stereo)%nat ->
  (Z.to_nat frame_count <= length mono)%nat ->
  Z.of_nat i < frame_count ->
  stereo !! (2 * i)%nat = Some l -> stereo !! S (2 * i) = Some r ->
  exists mono',
    AudioDriver_DownmixStereoToMono (Some stereo) (Some mono) frame_count
      = Some (noErr, Some mono')
    /\ mono' = downmix (take (2 * Z.to_nat frame_count) stereo)
               ++ drop (Z.to_nat frame_count) mono
    /\ length mono' = length mono
    /\ mono' !! i = Some (F32.mul (F32_add l r) F32_half).
Proof.
  intros Hpos Hw Hs Hm Hi Hl Hr.
  eexists. split; [exact (DownmixStereoToMono_spec stereo mono frame_count Hpos Hw Hs Hm)|].
  split; [reflexivity|].
  assert (Hlen : length (downmix (take (2 * Z.to_nat frame_count) stereo))
                 = Z.to_nat frame_count).
  { apply downmix_length. rewrite length_take. lia. }
  split.
  - rewrite length_app, Hlen, length_drop. lia.
  - rewrite lookup_app_l by lia.
    apply downmix_lookup; rewrite lookup_take_lt by lia; assumption.
Qed.

Lemma X22_Downmix_closed_form_witness :
  exists mono',
    AudioDriver_DownmixStereoToMono (Some [F32_half; F32_quarter]) (Some [F32.zero; F32.one]) 1
      = Some (noErr, Some mono')
    /\ mono' = downmix (take (2 * Z.to_nat 1) [F32_half; F32_quarter])
               ++ drop (Z.to_nat 1) [F32.zero; F32.one]
    /\ length mono' = length [F32.zero; F32.one]
    /\ mono' !! 0%nat = Some (F32.mul (F32_add F32_half F32_quarter) F32_half).
Proof.
  apply (X22_Downmix_closed_form [F32_half; F32_quarter] [F32.zero; F32.one] 1 0%nat
           F32_half F32_quarter).
  - reflexivity.
  - discriminate.
  - vm_compute. lia.
  - vm_compute. lia.
  - reflexivity.
  - reflexivity.
  - reflexivity.
Defined.

Lemma shm_store_length xs : forall p buf, length (shm_store p xs buf) = length buf.
Proof.
  induction xs as [|x xs IH]; intros p buf; cbn [shm_store]; [reflexivity|].
  now rewrite IH, length_insert.
Qed.

Lemma shm_store_lookup_other xs : forall p buf q,
  (forall j, 0 <= j < Z.of_nat (length xs) -> Z.to_nat ((p + j) mod RING_BUFFER_FRAMES) <> q) ->
  shm_store p xs buf !! q = buf !! q.
Proof.
  induction xs as [|x xs IH]; intros p buf q Hq; cbn [shm_store]; [reflexivity|].
  rewrite IH.
  - apply list_lookup_insert_ne. specialize (Hq 0). rewrite Z.add_0_r in Hq.
    apply Hq. cbn [length]. lia.
  - intros j Hj. replace (p + 1 + j) with (p + (1 + j)) by lia. apply Hq.
    cbn [length]. lia.
Qed.

Lemma shm_store_app xs ys : forall p buf,
  shm_store p (xs ++ ys) buf = shm_store (p + Z.of_nat (length xs)) ys (shm_store p xs buf).
Proof.
  induction xs as [|x xs IH]; intros p buf; cbn [app shm_store length].
  - now rewrite Z.add_0_r.
  - rewrite IH. f_equal. lia.
Qed.

Lemma shm_store_lookup xs : forall p buf i x,
  (Z.to_nat RING_BUFFER_FRAMES <= length buf)%nat ->
  Z.of_nat (length xs) <= RING_BUFFER_FRAMES ->
  xs !! i = Some x ->
  shm_store p xs buf !! Z.to_nat ((p + Z.of_nat i) mod RING_BUFFER_FRAMES) = Some x.
Proof.
  induction xs as [|y xs IH]; intros p buf i x Hlen Hxs Hi; [discriminate Hi|].
  cbn [shm_store]. cbn [length] in Hxs. destruct i as [|i].
  - injection Hi as ->. rewrite Z.add_0_r. rewrite shm_store_lookup_other.
    + apply list_lookup_insert_eq.
      pose proof (Z.mod_pos_bound p RING_BUFFER_FRAMES). rewrite RING_BUFFER_FRAMES_eq in *. lia.
    + intros j Hj. rewrite RING_BUFFER_FRAMES_eq in *.
      pose proof (Z.mod_pos_bound p 96000). pose proof (Z.mod_pos_bound (p + 1 + j) 96000).
      intros Heq. apply Z2Nat.inj in Heq; [|lia|lia]. Z.div_mod_to_equations. lia.
  - cbn [lookup list_lookup] in Hi.
    replace (p + Z.of_nat (S i)) with (p + 1 + Z.of_nat i) by lia.
    apply IH; [now rewrite length_insert | lia | exact Hi].
Qed.

Lemma shm_store_upper_half xs : forall p buf,
  drop (Z.to_nat RING_BUFFER_FRAMES) (shm_store p xs buf)
  = drop (Z.to_nat RING_BUFFER_FRAMES) buf.
Proof.
  intros p buf. apply list_eq. intros k. rewrite !lookup_drop.
  apply shm_store_lookup_other. intros j _.
  pose proof (Z.mod_pos_bound (p + j) RING_BUFFER_FRAMES).
  rewrite RING_BUFFER_FRAMES_eq in *. lia.
Qed.

Lemma RingWrite_loop_spec count : forall i write_pos mono buf,
  (i + count <= length mono)%nat ->
  (Z.to_nat RING_BUFFER_FRAMES <= length buf)%nat ->
  0 <= write_pos ->
  write_pos + Z.of_nat (i + count) <= UInt64_modulus ->
  RingWrite_loop count i write_pos mono buf
  = Some (shm_store (write_pos + Z.of_nat i) (take count (drop i mono)) buf).
Proof.
  induction count as [|count IH]; intros i write_pos mono buf Hm Hb Hp Hw.
  - cbn [RingWrite_loop]. now rewrite take_0.
  - cbn [RingWrite_loop].
    destruct (lookup_lt_is_Some_2 mono i) as [x Hx]; [lia|].
    rewrite Hx. cbn [mbind option_bind].
    rewrite UInt64_wrap_small by lia.
    pose proof (Z.mod_pos_bound (write_pos + Z.of_nat i) RING_BUFFER_FRAMES) as Hmod.
    destruct (decide _) as [_|Hn];
      [|rewrite RING_BUFFER_FRAMES_eq in *; lia].
    rewrite IH; [|lia|rewrite length_insert; lia|lia|lia].
    rewrite (drop_S mono x i Hx). cbn [take shm_store].
    do 2 f_equal. lia.
Qed.

Lemma WriteToRingBuffer_spec ring abl input stereo :
  active ring = true ->
  1 <= mNumberBuffers abl ->
  mBuffers abl !! 0%nat = Some input ->
  mData input = Some stereo ->
  8 <= mDataByteSize input < UInt32_modulus ->
  (2 * Z.to_nat (mDataByteSize input / 8) <= length stereo)%nat ->
  0 <= write_position ring < RING_BUFFER_FRAMES ->
  (Z.to_nat RING_BUFFER_FRAMES <= length (buffer ring))%nat ->
  let frame_count := mDataByteSize input / 8 in
  AudioDriver_WriteToRingBuffer (Some ring) (Some abl)
  = Some (noErr,
          Some {| write_position := (write_position ring + frame_count) mod RING_BUFFER_FRAMES;
                  read_position := read_position ring;
                  active := active ring;
                  sample_rate := sample_rate ring;
                  channels := channels ring;
                  frame_size := frame_size ring;
                  buffer := shm_store (write_position ring)
                              (downmix (take (2 * Z.to_nat frame_count) stereo))
                              (buffer ring) |}).
Proof.
  intros Hact Hnb Hin Hdata Hsz Hst Hwp Hbuf frame_count.
  unfold AudioDriver_WriteToRingBuffer. rewrite Hact. cbn [negb].
  destruct (mNumberBuffers abl <? 1) eqn:E; [apply Z.ltb_lt in E; lia|].
  rewrite Hin. cbn [mbind option_bind]. rewrite Hdata.
  destruct (mDataByteSize input =? 0) eqn:E0; [apply Z.eqb_eq in E0; lia|].
  change (sizeof_Float32 * 2) with 8. fold frame_count.
  assert (Hfc : 1 <= frame_count < 2 ^ 29).
  { unfold frame_count. split.
    - apply Z.div_le_lower_bound; lia.
    - apply Z.div_lt_upper_bound; [lia|]. change UInt32_modulus with (2 ^ 32) in Hsz. lia. }
  rewrite DownmixStereoToMono_spec;
    [ | lia | change UInt32_modulus with (2 ^ 32); lia | exact Hst
      | rewrite length_replicate; lia ].
  cbn [mbind option_bind].
  rewrite drop_ge by (rewrite length_replicate; lia). rewrite app_nil_r.
  set (mono := downmix (take (2 * Z.to_nat frame_count) stereo)).
  assert (Hmono : length mono = Z.to_nat frame_count).
  { apply downmix_length. rewrite length_take. lia. }
  rewrite RING_BUFFER_FRAMES_eq in *.
  rewrite RingWrite_loop_spec;
    [ | lia | rewrite RING_BUFFER_FRAMES_eq; exact Hbuf | lia
      | change UInt64_modulus with (2 ^ 64); lia ].
  cbn [mbind option_bind].
  rewrite UInt64_wrap_small by (change UInt64_modulus with (2 ^ 64); lia).
  rewrite drop_0, Z.add_0_r, take_ge by lia.
  reflexivity.
Qed.

Ltac region_is_large :=
  apply Nat.leb_le; vm_compute; reflexivity.

(** X23: on an active ring, [AudioDriver_WriteToRingBuffer] given a buffer
    of [size] bytes of interleaved stereo stores the downmix of its first
    [size / 8] frames from the write position on, modulo
    [RING_BUFFER_FRAMES], advances the write position by that many frames
    modulo [RING_BUFFER_FRAMES], and changes no other field. *)
Theorem X23_WriteToRingBuffer_stores_downmix ring abl input stereo :
  active ring = true ->
  1 <= mNumberBuffers abl ->
  mBuffers abl !! 0%nat = Some input ->
  mData input = Some stereo ->
  8 <= mDataByteSize input < UInt32_modulus ->
  (2 * Z.to_nat (mDataByteSize input / 8) <= length stereo)%nat ->
  0 <= write_position ring < RING_BUFFER_FRAMES ->
  (Z.to_nat RING_BUFFER_FRAMES <= length (buffer ring))%nat ->
  AudioDriver_WriteToRingBuffer (Some ring) (Some abl)
  = Some (noErr,
          Some {| write_position :=
                    (write_position ring + mDataByteSize input / 8) mod RING_BUFFER_FRAMES;
                  read_position := read_position ring;
                  active := active ring;
                  sample_rate := sample_rate ring;
                  channels := channels ring;
                  frame_size := frame_size ring;
                  buffer := shm_store (write_position ring)
                              (downmix (take (2 * Z.to_nat (mDataByteSize input / 8)) stereo))
                              (buffer ring) |}).
Proof.
  intros Hact Hnb Hin Hdata Hsz Hst Hwp Hbuf.
  exact (WriteToRingBuffer_spec ring abl input stereo Hact Hnb Hin Hdata Hsz Hst Hwp Hbuf).
Qed.

Lemma X23_WriteToRingBuffer_stores_downmix_witness :
  AudioDriver_WriteToRingBuffer (Some ring_capturing)
    (Some (buffer_list_of 8 [F32_half; F32_quarter]))
  = Some (noErr,
          Some {| write_position := (write_position ring_capturing + 8 / 8)
                                      mod RING_BUFFER_FRAMES;
                  read_position := read_position ring_capturing;
                  active := active ring_capturing;
                  sample_rate := sample_rate ring_capturing;
                  channels := channels ring_capturing;
                  frame_size := frame_size ring_capturing;
                  buffer := shm_store (write_position ring_capturing)
                              (downmix (take (2 * Z.to_nat (8 / 8)) [F32_half; F32_quarter]))
                              (buffer ring_capturing) |}).
Proof.
  apply (X23_WriteToRingBuffer_stores_downmix ring_capturing
           (buffer_list_of 8 [F32_half; F32_quarter])
           {| mNumberChannels := 2; mDataByteSize := 8;
              mData := Some [F32_half; F32_quarter] |}
           [F32_half; F32_quarter]).
  - reflexivity.
  - discriminate.
  - reflexivity.
  - reflexivity.
  - vm_compute. split; [discriminate | reflexivity].
  - vm_compute. lia.
  - vm_compute. split; [discriminate | reflexivity].
  - region_is_large.
Defined.

(** X24: a capture keeps the layout of the ring: the sample array keeps
    its length, the entries from [RING_BUFFER_FRAMES] on (the upper half of
    the array as declared) are never written, the write position stays
    below [RING_BUFFER_FRAMES], and the read position and the active flag
    are not touched. *)
Theorem X24_WriteToRingBuffer_keeps_layout ring abl input stereo :
  active ring = true ->
  1 <= mNumberBuffers abl ->
  mBuffers abl !! 0%nat = Some input ->
  mData input = Some stereo ->
  8 <= mDataByteSize input < UInt32_modulus ->
  (2 * Z.to_nat (mDataByteSize input / 8) <= length stereo)%nat ->
  0 <= write_position ring < RING_BUFFER_FRAMES ->
  (Z.to_nat RING_BUFFER_FRAMES <= length (buffer ring))%nat ->
  exists ring',
    AudioDriver_WriteToRingBuffer (Some ring) (Some abl) = Some (noErr, Some ring')
    /\ length (buffer ring') = length (buffer ring)
    /\ drop (Z.to_nat RING_BUFFER_FRAMES) (buffer ring')
       = drop (Z.to_nat RING_BUFFER_FRAMES) (buffer ring)
    /\ 0 <= write_position ring' < RING_BUFFER_FRAMES
    /\ read_position ring' = read_position ring
    /\ active ring' = true.
Proof.
  intros Hact Hnb Hin Hdata Hsz Hst Hwp Hbuf.
  eexists.
  split; [exact (WriteToRingBuffer_spec ring abl input stereo
                   Hact Hnb Hin Hdata Hsz Hst Hwp Hbuf)|].
  cbn [buffer write_position read_position active].
  split; [apply shm_store_length|].
  split; [apply shm_store_upper_half|].
  split; [apply Z.mod_pos_bound; reflexivity|].
  split; [reflexivity|exact Hact].
Qed.

Lemma X24_WriteToRingBuffer_keeps_layout_witness :
  exists ring',
    AudioDriver_WriteToRingBuffer (Some ring_capturing)
      (Some (buffer_list_of 8 [F32_half; F32_quarter])) = Some (noErr, Some ring')
    /\ length (buffer ring') = length (buffer ring_capturing)
    /\ drop (Z.to_nat RING_BUFFER_FRAMES) (buffer ring')
       = drop (Z.to_nat RING_BUFFER_FRAMES) (buffer ring_capturing)
    /\ 0 <= write_position ring' < RING_BUFFER_FRAMES
    /\ read_position ring' = read_position ring_capturing
    /\ active ring' = true.
Proof.
  apply (X24_WriteToRingBuffer_keeps_layout ring_capturing
           (buffer_list_of 8 [F32_half; F32_quarter])
           {| mNumberChannels := 2; mDataByteSize := 8;
              mData := Some [F32_half; F32_quarter] |}
           [F32_half; F32_quarter]).
  - reflexivity.
  - discriminate.
  - reflexivity.
  - reflexivity.
  - vm_compute. split; [discriminate | reflexivity].
  - vm_compute. lia.
  - vm_compute. split; [discriminate | reflexivity].
  - region_is_large.
Defined.

(** X25: after a capture, each of the last [RING_BUFFER_FRAMES] frames of
    the input sits in the ring at its position after the old write
    position, as the halved sum of its two channels; a capture longer than
    the ring keeps the newest frames. *)
Theorem X25_WriteToRingBuffer_frame_average ring abl input stereo (i : nat) l r :
  active ring = true ->
  1 <= mNumberBuffers abl ->
  mBuffers abl !! 0%nat = Some input ->
  mData input = Some stereo ->
  8 <= mDataByteSize input < UInt32_modulus ->
  (2 * Z.to_nat (mDataByteSize input / 8) <= length stereo)%nat ->
  0 <= write_position ring < RING_BUFFER_FRAMES ->
  (Z.to_nat RING_BUFFER_FRAMES <= length (buffer ring))%nat ->
  mDataByteSize input / 8 - RING_BUFFER_FRAMES <= Z.of_nat i < mDataByteSize input / 8 ->
  stereo !! (2 * i)%nat = Some l -> stereo !! S (2 * i) = Some r ->
  exists ring',
    AudioDriver_WriteToRingBuffer (Some ring) (Some abl) = Some (noErr, Some ring')
    /\ buffer ring' !! Z.to_nat ((write_position ring + Z.of_nat i) mod RING_BUFFER_FRAMES)
       = Some (F32.mul (F32_add l r) F32_half).
Proof.
  intros Hact Hnb Hin Hdata Hsz Hst Hwp Hbuf Hi Hl Hr.
  eexists.
  split; [exact (WriteToRingBuffer_spec ring abl input stereo
                   Hact Hnb Hin Hdata Hsz Hst Hwp Hbuf)|].
  cbn [buffer].
  set (fc := Z.to_nat (mDataByteSize input / 8)) in *.
  set (mono := downmix (take (2 * fc) stereo)).
  assert (Hmono : length mono = fc).
  { apply downmix_length. rewrite length_take. lia. }
  assert (Hmi : mono !! i = Some (F32.mul (F32_add l r) F32_half)).
  { apply downmix_lookup; rewrite lookup_take_lt by lia; assumption. }
  set (a := (fc - Z.to_nat RING_BUFFER_FRAMES)%nat).
  rewrite RING_BUFFER_FRAMES_eq in *.
  assert (Ha : (a <= i)%nat) by (unfold a; rewrite RING_BUFFER_FRAMES_eq; lia).
  rewrite <- (take_drop a mono), shm_store_app.
  rewrite length_take, Hmono.
  replace (Z.of_nat (a `min` fc)) with (Z.of_nat a) by lia.
  replace (write_position ring + Z.of_nat i)
    with (write_position ring + Z.of_nat a + Z.of_nat (i - a)) by lia.
  apply (shm_store_lookup (drop a mono)).
  - rewrite shm_store_length. exact Hbuf.
  - rewrite length_drop, Hmono. unfold a. rewrite RING_BUFFER_FRAMES_eq. lia.
  - rewrite lookup_drop. replace (a + (i - a))%nat with i by lia. exact Hmi.
Qed.

Lemma X25_WriteToRingBuffer_frame_average_witness :
  exists ring',
    AudioDriver_WriteToRingBuffer (Some ring_capturing)
      (Some (buffer_list_of 8 [F32_half; F32_quarter])) = Some (noErr, Some ring')
    /\ buffer ring' !! Z.to_nat ((write_position ring_capturing + Z.of_nat 0)
                                   mod RING_BUFFER_FRAMES)
       = Some (F32.mul (F32_add F32_half F32_quarter) F32_half).
Proof.
  apply (X25_WriteToRingBuffer_frame_average ring_capturing
           (buffer_list_of 8 [F32_half; F32_quarter])
           {| mNumberChannels := 2; mDataByteSize := 8;
              mData := Some [F32_half; F32_quarter] |}
           [F32_half; F32_quarter] 0%nat F32_half F32_quarter).
  - reflexivity.
  - discriminate.
  - reflexivity.
  - reflexivity.
  - vm_compute. split; [discriminate | reflexivity].
  - vm_compute. lia.
  - vm_compute. split; [discriminate | reflexivity].
  - region_is_large.
  - vm_compute. split; [discriminate | reflexivity].
  - reflexivity.
  - reflexivity.
Defined.

(** X26: on an active ring, a buffer of fewer than eight bytes holds no
    whole stereo frame: [AudioDriver_WriteToRingBuffer] leaves the ring as
    it is, and returns success for an empty buffer but the bad-object
    error, passed on from the downmix of zero frames, for one to seven
    bytes. *)
Theorem X26_WriteToRingBuffer_partial_frame ring abl input stereo :
  active ring = true ->
  1 <= mNumberBuffers abl ->
  mBuffers abl !! 0%nat = Some input ->
  mData input = Some stereo ->
  0 <= mDataByteSize input < 8 ->
  AudioDriver_WriteToRingBuffer (Some ring) (Some abl)
  = Some (if mDataByteSize input =? 0 then noErr else kAudioHardwareBadObjectError,
          Some ring).
Proof.
  intros Hact Hnb Hin Hdata Hsz.
  unfold AudioDriver_WriteToRingBuffer. rewrite Hact. cbn [negb].
  destruct (mNumberBuffers abl <? 1) eqn:E; [apply Z.ltb_lt in E; lia|].
  rewrite Hin. cbn [mbind option_bind]. rewrite Hdata.
  destruct (mDataByteSize input =? 0) eqn:E0; [reflexivity|].
  change (sizeof_Float32 * 2) with 8.
  rewrite Z.div_small by lia. reflexivity.
Qed.

Lemma X26_WriteToRingBuffer_partial_frame_witness :
  AudioDriver_WriteToRingBuffer (Some ring_capturing) (Some (buffer_list_of 4 [F32_half]))
  = Some (if 4 =? 0 then noErr else kAudioHardwareBadObjectError, Some ring_capturing).
Proof.
  apply (X26_WriteToRingBuffer_partial_frame ring_capturing (buffer_list_of 4 [F32_half])
           {| mNumberChannels := 2; mDataByteSize := 4; mData := Some [F32_half] |}
           [F32_half]).
  - reflexivity.
  - discriminate.
  - reflexivity.
  - reflexivity.
  - vm_compute. split; [discriminate | reflexivity].
Defined.

(** ** The average of two equal samples *)

Ltac zfold :=
  change IntDef.Z.add with Z.add in *; change IntDef.Z.sub with Z.sub in *;
  change IntDef.Z.max with Z.max in *.

Ltac subst_term H :=
  match type of H with
  | ?l = ?r => progress (replace l with r by (symmetry; exact H))
  end.

Lemma F32_average_self x :
  F32.valid x ->
  F32.mul (F32_add x x) F32_half
  = match x with
    | S754_finite sx _ e => if e <? F32.emax - F32.prec then x else S754_infinity sx
    | _ => x
    end.
Proof.
  intros Hv.
  destruct x as [sx|sx| |sx m e].
  - destruct sx; reflexivity.
  - destruct sx; reflexivity.
  - reflexivity.
  - pose proof Hv as Hv'.
    unfold F32.valid in Hv. cbn [valid_binary] in Hv. unfold bounded, canonical_mantissa in Hv.
    apply andb_prop in Hv. destruct Hv as [Hc He].
    apply Z.eqb_eq in Hc. apply Z.leb_le in He.
    unfold F32.emax, F32.prec in *.
    unfold fexp, emin in Hc.
    set (d := Z.pos (digits2_pos m)) in *.
    assert (Hsum : cond_Zopp sx (Z.pos m) + cond_Zopp sx (Z.pos m)
                   = cond_Zopp sx (Z.pos m~0)).
    { destruct sx; cbn [cond_Zopp Z.opp]; lia. }
    unfold F32_add, SFadd. rewrite Z.min_id.
    unfold shl_align at 1 2. rewrite Z.sub_diag. cbn [fst]. rewrite Hsum.
    assert (Hn : binary_normalize F32.prec F32.emax (cond_Zopp sx (Z.pos m~0)) e false
                 = binary_round F32.prec F32.emax sx m~0 e).
    { destruct sx; reflexivity. }
    rewrite Hn. unfold binary_round.
    rewrite digits2_pos_xO. fold d.
    destruct (Z.eq_dec d 24) as [Hd|Hd].
    + (* normal: the sum is [m * 2^(e+1)] *)
      assert (Hf : fexp F32.prec F32.emax (d + 1 + e) = e + 1).
      { unfold fexp, emin, F32.prec, F32.emax. lia. }
      subst_term Hf. unfold shl_align. replace (e + 1 - e) with 1 by lia. cbn iota.
      unfold binary_round_aux, shr_fexp. zfold. cbn [Zdigits2].
      rewrite digits2_pos_xO. fold d.
      subst_term Hf. replace (e + 1 - e) with 1 by lia.
      cbn [shr shr_record_of_loc SpecFloat.iter_pos shr_1 shr_m shr_r shr_s
           loc_of_shr_record round_nearest_even Zdigits2 orb]. zfold.
      fold d. replace (d + (e + 1)) with (d + 1 + e) by lia.
      subst_term Hf. rewrite Z.sub_diag. cbn [shr shr_m].
      destruct (e + 1 <=? F32.emax - F32.prec) eqn:E.
      * apply Z.leb_le in E. unfold F32.emax, F32.prec in E.
        destruct (e <? 128 - 24) eqn:E'; [|apply Z.ltb_ge in E'; lia].
        transitivity (F32.mul (S754_finite sx m e) F32.one).
        -- unfold F32.mul, F32.one, F32_half. cbn [SFmul].
           replace (e + 1 + -24) with (e + -23) by lia. reflexivity.
        -- apply F32_mul_one_r, Hv'.
      * apply Z.leb_gt in E. unfold F32.emax, F32.prec in E.
        destruct (e <? 128 - 24) eqn:E'; [apply Z.ltb_lt in E'; lia|].
        cbn. now rewrite xorb_false_r.
    + (* subnormal: the sum is [(2 * m) * 2^e] *)
      assert (He' : e = -149) by lia.
      assert (Hf : fexp F32.prec F32.emax (d + 1 + e) = e).
      { unfold fexp, emin, F32.prec, F32.emax. lia. }
      subst_term Hf. unfold shl_align. rewrite Z.sub_diag. cbn iota.
      unfold binary_round_aux at 1, shr_fexp. zfold. cbn [Zdigits2].
      rewrite digits2_pos_xO. fold d.
      subst_term Hf. rewrite Z.sub_diag.
      cbn [shr shr_record_of_loc shr_m shr_r shr_s loc_of_shr_record round_nearest_even
           Zdigits2]. zfold.
      rewrite digits2_pos_xO. fold d. subst_term Hf. rewrite Z.sub_diag. cbn [shr shr_m].
      destruct (e <=? F32.emax - F32.prec) eqn:E;
        [|apply Z.leb_gt in E; unfold F32.emax, F32.prec in E; lia].
      unfold F32.mul, F32_half. cbn [SFmul]. rewrite xorb_false_r.
      assert (Hdm : Z.pos (digits2_pos (m~0 * 8388608)) = d + 24).
      { rewrite Pos.mul_comm. cbv [Pos.mul]. rewrite !digits2_pos_xO. fold d. lia. }
      assert (Hs : SpecFloat.iter_pos shr_1 24
                     {| shr_m := Z.pos (m~0 * 8388608); shr_r := false; shr_s := false |}
                   = {| shr_m := Z.pos m; shr_r := false; shr_s := false |}).
      { rewrite Pos.mul_comm. reflexivity. }
      unfold binary_round_aux, shr_fexp. zfold. cbn [Zdigits2]. rewrite Hdm.
      assert (Hf2 : fexp F32.prec F32.emax (d + 24 + (e + -24)) = e).
      { unfold fexp, emin, F32.prec, F32.emax. lia. }
      subst_term Hf2. replace (e - (e + -24)) with 24 by lia.
      cbn [shr shr_record_of_loc]. rewrite Hs.
      cbn [shr_m loc_of_shr_record round_nearest_even Zdigits2 shr_record_of_loc]. zfold.
      fold d. replace (e + -24 + 24) with e by lia.
      assert (Hf3 : fexp F32.prec F32.emax (d + e) = e).
      { unfold fexp, emin, F32.prec, F32.emax. lia. }
      subst_term Hf3. rewrite Z.sub_diag. cbn [shr shr_m]. rewrite E.
      destruct (e <? 128 - 24) eqn:E'; [reflexivity|apply Z.ltb_ge in E'; lia].
Qed.

(** X28: the downmix expression applied to twice the same valid sample,
    [(x + x) * 0.5f], gives the sample back, zeros, infinities and
    subnormal numbers included, except in the top binade, where the sum
    overflows and the result is the infinity of the sample's sign. *)
Theorem X28_average_of_equal_samples x :
  F32.valid x ->
  F32.mul (F32_add x x) F32_half
  = match x with
    | S754_finite sx _ e => if e <? F32.emax - F32.prec then x else S754_infinity sx
    | _ => x
    end.
Proof. exact (F32_average_self x). Qed.

Lemma X28_average_of_equal_samples_witness :
  F32.mul (F32_add F32_half F32_half) F32_half
  = match F32_half with
    | S754_finite sx _ e => if e <? F32.emax - F32.prec then F32_half else S754_infinity sx
    | _ => F32_half
    end.
Proof.
  apply (X28_average_of_equal_samples F32_half).
  reflexivity.
Defined.

Lemma F32_add_self_half x :
  F32_doubles x -> F32.mul (F32_add x x) F32_half = x.
Proof.
  intros [Hv Hx]. rewrite F32_average_self by exact Hv.
  destruct x as [| | |sx m e]; try reflexivity.
  destruct (e <? F32.emax - F32.prec) eqn:E; [reflexivity|apply Z.ltb_ge in E; lia].
Qed.

Lemma duplicate_length xs : length (duplicate xs) = (2 * length xs)%nat.
Proof. induction xs as [|x xs IH]; cbn [duplicate length]; lia. Qed.

Lemma downmix_duplicate xs : Forall F32_doubles xs -> downmix (duplicate xs) = xs.
Proof.
  induction 1 as [|x xs Hx _ IH]; [reflexivity|].
  cbn [duplicate downmix]. now rewrite F32_add_self_half, IH.
Qed.

(** X27: a mono signal present on both channels is captured unchanged:
    when every sample is valid and below the top binade,
    [AudioDriver_WriteToRingBuffer] stores the samples themselves from the
    write position on and advances the write position by their number. *)
Theorem X27_identical_channels_captured_unchanged ring xs :
  active ring = true ->
  xs <> [] ->
  8 * Z.of_nat (length xs) < UInt32_modulus ->
  Forall F32_doubles xs ->
  0 <= write_position ring < RING_BUFFER_FRAMES ->
  (Z.to_nat RING_BUFFER_FRAMES <= length (buffer ring))%nat ->
  exists ring',
    AudioDriver_WriteToRingBuffer (Some ring)
      (Some (buffer_list_of (8 * Z.of_nat (length xs)) (duplicate xs)))
      = Some (noErr, Some ring')
    /\ buffer ring' = shm_store (write_position ring) xs (buffer ring)
    /\ write_position ring'
       = (write_position ring + Z.of_nat (length xs)) mod RING_BUFFER_FRAMES.
Proof.
  intros Hact Hne Hsz Hxs Hwp Hbuf.
  assert (Hlen : (0 < length xs)%nat) by (destruct xs; [congruence|cbn; lia]).
  assert (Hfc : 8 * Z.of_nat (length xs) / 8 = Z.of_nat (length xs)).
  { rewrite Z.mul_comm. apply Z.div_mul. lia. }
  eexists. split.
  { apply (WriteToRingBuffer_spec ring _
             {| mNumberChannels := 2; mDataByteSize := 8 * Z.of_nat (length xs);
                mData := Some (duplicate xs) |} (duplicate xs));
      cbn [mNumberBuffers mBuffers mData mDataByteSize buffer_list_of];
      try reflexivity; try assumption; try lia.
    rewrite Hfc, duplicate_length. lia. }
  cbn [buffer write_position mDataByteSize]. rewrite Hfc.
  split; [|reflexivity].
  rewrite take_ge by (rewrite duplicate_length; lia).
  now rewrite downmix_duplicate.
Qed.

Lemma X27_identical_channels_captured_unchanged_witness :
  exists ring',
    AudioDriver_WriteToRingBuffer (Some ring_capturing)
      (Some (buffer_list_of (8 * Z.of_nat (length [F32_half; F32_quarter]))
               (duplicate [F32_half; F32_quarter])))
      = Some (noErr, Some ring')
    /\ buffer ring'
       = shm_store (write_position ring_capturing) [F32_half; F32_quarter]
           (buffer ring_capturing)
    /\ write_position ring'
       = (write_position ring_capturing + Z.of_nat (length [F32_half; F32_quarter]))
           mod RING_BUFFER_FRAMES.
Proof.
  apply (X27_identical_channels_captured_unchanged ring_capturing [F32_half; F32_quarter]).
  - reflexivity.
  - discriminate.
  - reflexivity.
  - apply Forall_cons_2; [split; [reflexivity | vm_compute; reflexivity]|].
    apply Forall_cons_2; [split; [reflexivity | vm_compute; reflexivity]|].
    apply Forall_nil_2.
  - vm_compute. split; [discriminate | reflexivity].
  - region_is_large.
Defined.

(** ** The plug-in interface *)

(** X29: the variant's [QueryInterface] answers [S_OK] exactly for the
    identifier of the IOKit plug-in interface; it then hands out the driver
    and adds one reference, which one [Release] gives back; for every other
    identifier it stores [NULL] and leaves the count as it was. *)
Theorem X29_variant_QueryInterface_then_Release iocf in_iid g_ref_count hr out count' :
  0 <= g_ref_count -> g_ref_count + 1 < UInt32_modulus ->
  QueryInterface iocf in_iid true g_ref_count = (hr, out, count') ->
  (hr = S_OK <-> in_iid = iocf)
  /\ (hr = S_OK ->
      out = Some true /\ count' = g_ref_count + 1
      /\ (AudioDriver.Release count').2 = g_ref_count)
  /\ (hr <> S_OK -> hr = E_NOINTERFACE /\ out = Some false /\ count' = g_ref_count).
Proof.
  intros Hlo Hhi. unfold QueryInterface. cbn [negb].
  destruct (bool_decide (in_iid = iocf)) eqn:E; intros [= <- <- <-].
  - apply bool_decide_eq_true in E.
    assert (Hc : UInt32_wrap (g_ref_count + 1) = g_ref_count + 1)
      by (apply UInt32_wrap_small; lia).
    repeat split; auto; try congruence.
    unfold AudioDriver.Release, AudioDriver.AddRef. cbn. rewrite Hc.
    destruct (0 <? g_ref_count + 1) eqn:E1; [|apply Z.ltb_ge in E1; lia].
    replace (g_ref_count + 1 - 1) with g_ref_count by lia.
    apply UInt32_wrap_small; lia.
  - apply bool_decide_eq_false in E.
    repeat split; try congruence.
Qed.

Lemma X29_variant_QueryInterface_then_Release_witness :
  (S_OK = S_OK <-> iUnknownUUID = iUnknownUUID)
  /\ (S_OK = S_OK ->
      Some true = Some true /\ 2 = 1 + 1 /\ (AudioDriver.Release 2).2 = 1)
  /\ (S_OK <> S_OK -> S_OK = E_NOINTERFACE /\ Some true = Some false /\ 2 = 1).
Proof.
  apply (X29_variant_QueryInterface_then_Release iUnknownUUID iUnknownUUID 1
           S_OK (Some true) 2).
  - discriminate.
  - reflexivity.
  - reflexivity.
Defined.

(** X30: the variant's [GetZeroTimeStamp] always returns sample time zero;
    the host time it returns is the current host time scaled by the
    timebase, rounded down, and does not decrease when the host clock does
    not, as long as the scaled product stays below [2^64]. *)
Theorem X30_variant_zero_timestamp timebase now1 now2 :
  0 < denom timebase -> 0 <= numer timebase ->
  0 <= now1 <= now2 -> now2 * numer timebase < UInt64_modulus ->
  exists h1 h2,
    GetZeroTimeStamp timebase now1 true true = Some (noErr, Some F64.zero, Some h1)
    /\ GetZeroTimeStamp timebase now2 true true = Some (noErr, Some F64.zero, Some h2)
    /\ h1 = now1 * numer timebase / denom timebase
    /\ h2 = now2 * numer timebase / denom timebase
    /\ h1 <= h2.
Proof.
  intros Hd Hn Hnow Hov. unfold GetZeroTimeStamp.
  destruct (denom timebase =? 0) eqn:E; [apply Z.eqb_eq in E; lia|].
  assert (H1 : 0 <= now1 * numer timebase <= now2 * numer timebase) by nia.
  rewrite !UInt64_wrap_small by lia.
  do 2 eexists. repeat split.
  apply Z.div_le_mono; lia.
Qed.

Lemma X30_variant_zero_timestamp_witness :
  exists h1 h2,
    GetZeroTimeStamp timebase_arm64 3 true true = Some (noErr, Some F64.zero, Some h1)
    /\ GetZeroTimeStamp timebase_arm64 6 true true = Some (noErr, Some F64.zero, Some h2)
    /\ h1 = 3 * numer timebase_arm64 / denom timebase_arm64
    /\ h2 = 6 * numer timebase_arm64 / denom timebase_arm64
    /\ h1 <= h2.
Proof.
  apply (X30_variant_zero_timestamp timebase_arm64 3 6).
  - reflexivity.
  - discriminate.
  - split; discriminate.
  - reflexivity.
Defined.
